(** * The JSON-document layer of the linter-configuration schematic

    A shallow embedding of [utils] (serializeJson, readJsonInTree,
    sortObjectByKeys, updateJsonInTree, addPackageJsonDeps, the configuration
    builders, the package.json rules, getWorkspacePath,
    determineTargetProjectName) and of [configure-linters/index.ts]
    (configureLinters), with the properties the specification states about
    them.

    Conventions of the embedding.
    - A JavaScript string is its sequence of UTF-16 code units.
    - A JSON document is a tagged union; an object is the list of its own
      properties in the order [Object.keys] enumerates them (array-index keys
      in ascending numeric order, then the other keys in creation order).
    - A number is represented by an integer: the documents this program
      builds only contain small integers, and numbers read from a file are
      passed through untouched.
    - The functions of the platform that the program calls but does not
      define (Buffer decoding and encoding, strip-json-comments, JSON.parse,
      the path functions of the devkit, the external schematic) are the
      fields of a [Platform] record the definitions are parameterised by.
    - A call either returns, throws, or leaves the fragment of JavaScript
      embedded here ([Unmodelled]: a property written on an array, a
      prototype replaced, a member inherited from a prototype read). *)

From Stdlib Require Import ZArith NArith DecimalN DecimalString Ascii String.
From stdpp Require Import gmap list sorting.

Local Open Scope N_scope.

(** ** Strings *)

Abbreviation jsstring := (list N) (only parsing).

(** The code units of an ASCII literal. *)
Fixpoint js (s : string) : jsstring :=
  match s with
  | EmptyString => []
  | String a s' => N_of_ascii a :: js s'
  end.
Arguments js : simpl never.

(** [x < y] on strings, as the abstract relational comparison of ECMA-262
    decides it: the first differing code unit decides, a proper prefix is
    smaller. *)
Fixpoint units_ltb (a b : jsstring) : bool :=
  match a, b with
  | _, [] => false
  | [], _ :: _ => true
  | x :: a', y :: b' =>
      if x <? y then true else if y <? x then false else units_ltb a' b'
  end.

Definition units_lt (a b : jsstring) : Prop := units_ltb a b = true.
Definition units_le (a b : jsstring) : Prop := units_ltb b a = false.

(** [Array.prototype.sort()] without a comparator, on an array of strings:
    a stable sort by [units_ltb]. *)
Fixpoint sort_insert (k : jsstring) (l : list jsstring) : list jsstring :=
  match l with
  | [] => [k]
  | k' :: l' => if units_ltb k' k then k' :: sort_insert k l' else k :: l
  end.

Definition Array_sort (l : list jsstring) : list jsstring :=
  foldr sort_insert [] l.

(** ** JSON documents *)

#[warnings="-register-all"]
Inductive value : Type :=
| JNull
| JBool (b : bool)
| JNum (n : Z)
| JStr (s : jsstring)
| JArr (items : list value)
| JObj (props : list (jsstring * value)).

Abbreviation props := (list (jsstring * value)) (only parsing).

(** What a call does. *)
Inductive exn : Type :=
| Error (message : jsstring)              (* [throw new Error(message)] *)
| TypeError                               (* thrown by the language itself *)
| SyntaxError (message : jsstring)        (* an uncaught failure of JSON.parse *)
| FileAlreadyExistException (path : jsstring)     (* thrown by Tree.create *)
| FileDoesNotExistException (path : jsstring).    (* thrown by Tree.overwrite *)

Inductive completion (A : Type) : Type :=
| Normal (a : A)
| Throw (e : exn)
| Unmodelled.
Arguments Normal {A} a.
Arguments Throw {A} e.
Arguments Unmodelled {A}.

Definition cbind {A B} (c : completion A) (k : A -> completion B) : completion B :=
  match c with
  | Normal a => k a
  | Throw e => Throw e
  | Unmodelled => Unmodelled
  end.

(** [typeof v]: "object" for [null] too. *)
Inductive type_tag := t_object | t_string | t_number | t_boolean.

Definition typeof (v : value) : type_tag :=
  match v with
  | JNull | JArr _ | JObj _ => t_object
  | JStr _ => t_string
  | JNum _ => t_number
  | JBool _ => t_boolean
  end.

(** ** Own properties and their order *)

(** [Object.keys], the spread [{...o}] and [JSON.stringify] all enumerate
    the own properties of a plain object as OrdinaryOwnPropertyKeys of
    ECMA-262 lists them: the keys that are array indices in ascending
    numeric order, then the other keys in the order of their creation. *)

Definition digit_of_unit (c : N) (d : Decimal.uint) : option Decimal.uint :=
  match c with
  | 48 => Some (Decimal.D0 d) | 49 => Some (Decimal.D1 d)
  | 50 => Some (Decimal.D2 d) | 51 => Some (Decimal.D3 d)
  | 52 => Some (Decimal.D4 d) | 53 => Some (Decimal.D5 d)
  | 54 => Some (Decimal.D6 d) | 55 => Some (Decimal.D7 d)
  | 56 => Some (Decimal.D8 d) | 57 => Some (Decimal.D9 d)
  | _ => None
  end.

Fixpoint uint_of_units (s : jsstring) : option Decimal.uint :=
  match s with
  | [] => Some Decimal.Nil
  | c :: s' =>
      match uint_of_units s' with
      | Some d => digit_of_unit c d
      | None => None
      end
  end.

(** A canonical numeric string: ["0"], or digits that do not start with 0. *)
Definition canonical (d : Decimal.uint) : bool :=
  match d with
  | Decimal.Nil => false
  | Decimal.D0 Decimal.Nil => true
  | Decimal.D0 _ => false
  | _ => true
  end.

(** The array index a property key denotes, if any: a canonical numeric
    string below 2^32 - 1. *)
Definition array_index (k : jsstring) : option N :=
  match uint_of_units k with
  | Some d =>
      if canonical d && (N.of_uint d <? 4294967295) then Some (N.of_uint d)
      else None
  | None => None
  end.

(** [obj[k]] restricted to own properties. *)
Fixpoint own_get (k : jsstring) (ps : props) : option value :=
  match ps with
  | [] => None
  | (k', v) :: ps' => if decide (k' = k) then Some v else own_get k ps'
  end.

Definition has_own (k : jsstring) (ps : props) : bool :=
  bool_decide (is_Some (own_get k ps)).

Definition Object_keys_own (ps : props) : list jsstring := ps.*1.

(** An existing property keeps its place when its value changes. *)
Fixpoint replace_own (k : jsstring) (v : value) (ps : props) : props :=
  match ps with
  | [] => []
  | (k', v') :: ps' =>
      if decide (k' = k) then (k, v) :: ps' else (k', v') :: replace_own k v ps'
  end.

(** A new array-index key goes before the first key that is not a smaller
    array index. *)
Fixpoint insert_index (n : N) (k : jsstring) (v : value) (ps : props) : props :=
  match ps with
  | [] => [(k, v)]
  | (k', v') :: ps' =>
      match array_index k' with
      | Some n' =>
          if n' <? n then (k', v') :: insert_index n k v ps'
          else (k, v) :: (k', v') :: ps'
      | None => (k, v) :: (k', v') :: ps'
      end
  end.

(** CreateDataProperty on an ordinary object: what [{...o, [k]: v}] does to
    the copy of [o], and what [o[k] = v] does when no setter is inherited. *)
Definition define_own (k : jsstring) (v : value) (ps : props) : props :=
  if has_own k ps then replace_own k v ps
  else match array_index k with
       | Some n => insert_index n k v ps
       | None => ps ++ [(k, v)]
       end.

(** The names every plain object inherits from [Object.prototype]. *)
Definition Object_prototype_names : list jsstring :=
  map js ["constructor"; "__defineGetter__"; "__defineSetter__";
          "hasOwnProperty"; "__lookupGetter__"; "__lookupSetter__";
          "isPrototypeOf"; "propertyIsEnumerable"; "toString"; "valueOf";
          "__proto__"; "toLocaleString"]%string.

Definition proto_key : jsstring := js "__proto__".

(** [recv[k] = v] in strict mode (the module is an ES module), as
    OrdinarySet of ECMA-262 decides it.  On a plain object an own property
    is overwritten in place; otherwise the only accessor a plain object
    inherits is [__proto__] of [Object.prototype], whose setter returns
    without a change when the value is a primitive and replaces the
    prototype when it is an object or null; any other key becomes a new own
    property.  On [null] the assignment throws, and in strict mode it throws
    on a primitive too (the key [__proto__] apart, which reaches the
    inherited setter there as well: no rule of the program writes that key,
    and the model does not tell it from the other keys on a primitive). *)
Definition assign (recv : value) (k : jsstring) (v : value) : completion value :=
  match recv with
  | JObj ps =>
      if has_own k ps then Normal (JObj (replace_own k v ps))
      else if decide (k = proto_key) then
        match v with
        | JObj _ | JArr _ | JNull => Unmodelled
        | JBool _ | JNum _ | JStr _ => Normal recv
        end
      else Normal (JObj (define_own k v ps))
  | JArr _ => Unmodelled
  | JNull => Throw TypeError
  | JBool _ | JNum _ | JStr _ => Throw TypeError
  end.

(** [recv.name] for the member names the program spells out ([projects],
    [prefix], [root], [devDependencies], [dependencies]): no prototype has a
    member of these names, so the read finds an own property or [undefined]
    ([None]). *)
Definition get_field (name : jsstring) (recv : value) : completion (option value) :=
  match recv with
  | JObj ps => Normal (own_get name ps)
  | JNull => Throw TypeError
  | JArr _ | JBool _ | JNum _ | JStr _ => Normal None
  end.

(** [recv[k]] for a key computed at run time. *)
Definition get_dynamic (k : jsstring) (recv : value) : completion (option value) :=
  match recv with
  | JObj ps =>
      match own_get k ps with
      | Some v => Normal (Some v)
      | None => if bool_decide (k ∈ Object_prototype_names) then Unmodelled
                else Normal None
      end
  | JNull => Throw TypeError
  | JArr _ | JBool _ | JNum _ | JStr _ => Unmodelled
  end.

(** ** sortObjectByKeys (utils, lines 23-32) *)

(** [Object.keys(obj).sort().reduce((result, key) => ({...result, [key]:
    obj[key]}), {})].  Every key comes from [Object.keys(obj)], so [obj[key]]
    is an own property of [obj]. *)
Definition sortObjectByKeys (obj : props) : props :=
  fold_left
    (fun result key =>
       match own_get key obj with
       | Some v => define_own key v result
       | None => result
       end)
    (Array_sort (Object_keys_own obj)) [].

(** The call [sortObjectByKeys(x)] on what a member read produced:
    [Object.keys] throws on [undefined] and [null] and finds no key in a
    number or a boolean. *)
Definition sortObjectByKeys_call (x : option value) : completion value :=
  match x with
  | None | Some JNull => Throw TypeError
  | Some (JObj ps) => Normal (JObj (sortObjectByKeys ps))
  | Some (JNum _) | Some (JBool _) => Normal (JObj [])
  | Some (JArr _) | Some (JStr _) => Unmodelled
  end.

(** ** addPackageJsonDeps (utils, lines 52-76) *)

Inductive section_name := dependencies | devDependencies.

Definition section_key (s : section_name) : jsstring :=
  match s with
  | dependencies => js "dependencies"
  | devDependencies => js "devDependencies"
  end.

(** [Partial<Record<'dependencies' | 'devDependencies', Record<string,
    string>>>]: each section is absent or the list of its entries, as
    [Object.entries] enumerates them. *)
Record deps_options := {
  opt_dependencies : option (list (jsstring * jsstring));
  opt_devDependencies : option (list (jsstring * jsstring))
}.

Definition options_get (options : deps_options) (s : section_name)
  : option (list (jsstring * jsstring)) :=
  match s with
  | dependencies => opt_dependencies options
  | devDependencies => opt_devDependencies options
  end.

(** [section in packageJson] *)
Definition in_section (s : section_name) (packageJson : value) : completion bool :=
  match packageJson with
  | JObj ps => Normal (has_own (section_key s) ps)
  | JArr _ => Normal false
  | JNull | JBool _ | JNum _ | JStr _ => Throw TypeError
  end.

(** [packageJson[section][packageToAdd] = version]: the section object is
    shared with [packageJson], which sees the write. *)
Definition assign_in_section (s : section_name) (packageJson : value)
    (packageToAdd version : jsstring) : completion value :=
  match packageJson with
  | JObj ps =>
      match own_get (section_key s) ps with
      | Some sec =>
          cbind (assign sec packageToAdd (JStr version))
                (fun sec' => Normal (JObj (replace_own (section_key s) sec' ps)))
      | None => Throw TypeError
      end
  | JNull => Throw TypeError
  | JArr _ | JBool _ | JNum _ | JStr _ => Unmodelled
  end.

Fixpoint forEach_entry (s : section_name) (entries : list (jsstring * jsstring))
    (packageJson : value) : completion value :=
  match entries with
  | [] => Normal packageJson
  | (packageToAdd, version) :: rest =>
      cbind (assign_in_section s packageJson packageToAdd version)
            (forEach_entry s rest)
  end.

Definition addDeps (options : deps_options) (s : section_name)
    (packageJson : value) : completion value :=
  match options_get options s with
  | None => Normal packageJson
  | Some entries =>
      cbind (in_section s packageJson) (fun present =>
      cbind (if present : bool then Normal packageJson
             else assign packageJson (section_key s) (JObj [])) (fun packageJson =>
      forEach_entry s entries packageJson))
  end.

Definition addPackageJsonDeps (packageJson : value) (options : deps_options)
  : completion value :=
  match typeof packageJson with
  | t_object =>
      cbind (addDeps options dependencies packageJson)
            (addDeps options devDependencies)
  | _ => Normal packageJson
  end.

(** ** JSON.stringify and serializeJson (utils, lines 7-9) *)

(** Number::toString on an integer: its decimal digits.  This is what
    JavaScript prints for the integers a double holds and prints in full
    (magnitude below 2^53), among them the numbers of the documents this
    program builds (0, 4, 5 and 120); a larger integer or a fraction, which
    JavaScript rounds or prints with an exponent, is outside the model. *)
Definition Number_toString (n : Z) : jsstring :=
  js (NilEmpty.string_of_int (Z.to_int n)).

Definition hex_digit (n : N) : N := if n <? 10 then 48 + n else 87 + n.

(** [\uXXXX] with lower-case hexadecimal digits. *)
Definition unicode_escape (c : N) : jsstring :=
  [92; 117; hex_digit ((c / 4096) mod 16); hex_digit ((c / 256) mod 16);
   hex_digit ((c / 16) mod 16); hex_digit (c mod 16)].

Definition is_leading_surrogate (c : N) : bool := (55296 <=? c) && (c <=? 56319).
Definition is_trailing_surrogate (c : N) : bool := (56320 <=? c) && (c <=? 57343).

Definition quote_unit (c : N) : jsstring :=
  match c with
  | 8 => [92; 98]      (* backspace: \b *)
  | 9 => [92; 116]     (* tab: \t *)
  | 10 => [92; 110]    (* line feed: \n *)
  | 12 => [92; 102]    (* form feed: \f *)
  | 13 => [92; 114]    (* carriage return: \r *)
  | 34 => [92; 34]     (* quotation mark, escaped *)
  | 92 => [92; 92]     (* reverse solidus, escaped *)
  | _ => if c <? 32 then unicode_escape c else [c]
  end.

(** The body of QuoteJSONString: a surrogate pair is copied, a lone
    surrogate is escaped. *)
Fixpoint quote_units (s : jsstring) : jsstring :=
  match s with
  | [] => []
  | c :: rest =>
      if is_leading_surrogate c then
        match rest with
        | d :: rest' =>
            if is_trailing_surrogate d then c :: d :: quote_units rest'
            else unicode_escape c ++ quote_units rest
        | [] => unicode_escape c
        end
      else if is_trailing_surrogate c then unicode_escape c ++ quote_units rest
      else quote_unit c ++ quote_units rest
  end.

Definition QuoteJSONString (s : jsstring) : jsstring :=
  34 :: quote_units s ++ [34].

Fixpoint join (sep : jsstring) (parts : list jsstring) : jsstring :=
  match parts with
  | [] => []
  | [p] => p
  | p :: rest => p ++ sep ++ join sep rest
  end.

(** The closing steps of SerializeJSONObject and SerializeJSONArray. *)
Definition wrap (open close : N) (gap indent stepback : jsstring)
    (partial : list jsstring) : jsstring :=
  match partial with
  | [] => [open; close]
  | _ =>
      match gap with
      | [] => open :: join [44] partial ++ [close]
      | _ => open :: 10 :: indent ++ join (44 :: 10 :: indent) partial
                  ++ 10 :: stepback ++ [close]
      end
  end.

Definition member_separator (gap : jsstring) : jsstring :=
  match gap with [] => [58] | _ => [58; 32] end.

(** SerializeJSONProperty of ECMA-262 on a JSON document: [indent] is the
    indentation of the enclosing level, each level adds [gap] to it. *)
Fixpoint SerializeJSONProperty (gap indent : jsstring) (v : value) : jsstring :=
  match v with
  | JNull => js "null"
  | JBool true => js "true"
  | JBool false => js "false"
  | JNum n => Number_toString n
  | JStr s => QuoteJSONString s
  | JArr items =>
      let stepback := indent in
      let indent := indent ++ gap in
      wrap 91 93 gap indent stepback
        ((fix each (l : list value) : list jsstring :=
            match l with
            | [] => []
            | x :: l' => SerializeJSONProperty gap indent x :: each l'
            end) items)
  | JObj ps =>
      let stepback := indent in
      let indent := indent ++ gap in
      wrap 123 125 gap indent stepback
        ((fix each (l : props) : list jsstring :=
            match l with
            | [] => []
            | (k, x) :: l' =>
                (QuoteJSONString k ++ member_separator gap
                   ++ SerializeJSONProperty gap indent x) :: each l'
            end) ps)
  end.

(** [JSON.stringify(v, null, space)] for a number [space]: the gap is
    [min(10, space)] spaces. *)
Definition JSON_stringify (v : value) (space : nat) : jsstring :=
  SerializeJSONProperty (replicate (Nat.min 10 space) 32) [] v.

Definition serializeJson (json : value) : jsstring :=
  JSON_stringify json 2 ++ [10].

(** ** The workspace tree and the schematic context *)

Abbreviation Buffer := (list Byte.byte) (only parsing).

(** The files of the tree, by normalised path. *)
Abbreviation Tree := (gmap (list N) (list Byte.byte)) (only parsing).

Inductive event : Type :=
| Logger_info (message : jsstring)                        (* context.logger.info *)
| Console_log (projectName : jsstring) (projects : option value)
| AddTask_NodePackageInstall.                             (* context.addTask *)

(** The tree a rule works on and what it has sent to the context so far. *)
Record World := { host : gmap (list N) (list Byte.byte); trace : list event }.

(** A computation over the world: how it completes, and the world it leaves. *)
Definition M (A : Type) : Type := World -> completion A * World.

Definition ret {A} (a : A) : M A := fun w => (Normal a, w).
Definition bind {A B} (m : M A) (k : A -> M B) : M B :=
  fun w =>
    match m w with
    | (Normal a, w') => k a w'
    | (Throw e, w') => (Throw e, w')
    | (Unmodelled, w') => (Unmodelled, w')
    end.
Definition throw {A} (e : exn) : M A := fun w => (Throw e, w).
Definition lift {A} (c : completion A) : M A := fun w => (c, w).
Definition get_host : M (gmap (list N) (list Byte.byte)) := fun w => (Normal (host w), w).
Definition set_host (t : gmap (list N) (list Byte.byte)) : M unit :=
  fun w => (Normal tt, {| host := t; trace := trace w |}).
Definition emit (e : event) : M unit :=
  fun w => (Normal tt, {| host := host w; trace := trace w ++ [e] |}).

Declare Scope rule_scope.
Delimit Scope rule_scope with rule.
Notation "'let*' x := m 'in' k" := (bind m (fun x => k))
  (at level 10, x name, m at level 100, k at level 200) : rule_scope.
Notation "m ;; k" := (bind m (fun _ => k))
  (at level 100, k at level 200, right associativity) : rule_scope.

Abbreviation Rule := (M unit) (only parsing).

(** [chain(rules)]: each rule runs on the tree the previous one left; the
    first exception ends the chain. *)
Fixpoint chain (rules : list (M unit)) : M unit :=
  match rules with
  | [] => ret tt
  | r :: rest => bind r (fun _ => chain rest)
  end.

(** ** The platform *)

Record Platform := {
  (** [buffer.toString('utf-8')] *)
  Buffer_toString : list Byte.byte -> jsstring;
  (** the bytes [Tree.create] and [Tree.overwrite] store for a string *)
  Buffer_from : jsstring -> list Byte.byte;
  (** the default export of strip-json-comments *)
  stripJsonComments : jsstring -> jsstring;
  (** [JSON.parse]: the document, or the message of the SyntaxError *)
  JSON_parse : jsstring -> value + jsstring;
  (** the path under which the tree files a name: [normalize('/' + path)] *)
  tree_path : jsstring -> jsstring;
  (** [join(normalize(projectRoot), name)] of @angular-devkit/core *)
  join_normalize : option value -> jsstring -> completion jsstring;
  (** [externalSchematic(collection, schematic, {project})] *)
  externalSchematic : jsstring -> jsstring -> jsstring -> M unit
}.

Section Program.

Context (P : Platform).

(** *** The Tree interface *)

Definition Tree_exists (t : Tree) (path : jsstring) : bool :=
  bool_decide (is_Some (t !! tree_path P path)).

(** [host.read(path)]: the buffer, or [null] *)
Definition Tree_read (t : Tree) (path : jsstring) : option (list Byte.byte) :=
  t !! tree_path P path.

Definition Tree_create (path content : jsstring) : M unit :=
  (let* t := get_host in
   if Tree_exists t path then throw (FileAlreadyExistException path)
   else set_host (<[tree_path P path := Buffer_from P content]> t))%rule.

Definition Tree_overwrite (path content : jsstring) : M unit :=
  (let* t := get_host in
   if Tree_exists t path
   then set_host (<[tree_path P path := Buffer_from P content]> t)
   else throw (FileDoesNotExistException path))%rule.

(** The world after [path] has been given the content [content]. *)
Definition written (w : World) (path content : jsstring) : World :=
  {| host := <[tree_path P path := Buffer_from P content]> (host w); trace := trace w |}.

(** *** readJsonInTree (utils, lines 11-21) *)

Definition readJsonInTree (t : Tree) (path : jsstring) : completion value :=
  if negb (Tree_exists t path) then Throw (Error (js "Cannot find " ++ path))
  else
    match Tree_read t path with
    | None => Throw TypeError
    | Some buffer =>
        let contents := stripJsonComments P (Buffer_toString P buffer) in
        match JSON_parse P contents with
        | inl json => Normal json
        | inr message =>
            Throw (Error (js "Cannot parse " ++ path ++ js ": " ++ message))
        end
    end.

(** *** updateJsonInTree (utils, lines 41-50) *)

(** The callbacks of this program are pure and ignore the context: a
    callback is a function from documents to documents. *)

Definition updateJsonInTree (path : jsstring) (callback : value -> value) : M unit :=
  (let* t := get_host in
   if negb (Tree_exists t path)
   then Tree_create path (serializeJson (callback (JObj [])))
   else
     let* json := lift (readJsonInTree t path) in
     Tree_overwrite path (serializeJson (callback json)))%rule.

(** *** getWorkspacePath (utils, lines 440-443) *)

Definition possibleFiles : list jsstring :=
  [js "/workspace.json"; js "/angular.json"; js "/.angular.json"].

(** [possibleFiles.filter(path => host.exists(path))[0]]: [None] is
    [undefined]. *)
Definition getWorkspacePath (t : Tree) : option jsstring :=
  head (filter (fun path => Tree_exists t path = true) possibleFiles).

(** *** determineTargetProjectName (utils, lines 445-455) *)

(** [Object.keys(x)] *)
Definition Object_keys (x : option value) : completion (list jsstring) :=
  match x with
  | None | Some JNull => Throw TypeError
  | Some (JObj ps) => Normal (Object_keys_own ps)
  | Some (JArr items) =>
      Normal (map (fun i => Number_toString (Z.of_nat i)) (seq 0 (length items)))
  | Some (JStr s) =>
      Normal (map (fun i => Number_toString (Z.of_nat i)) (seq 0 (length s)))
  | Some (JNum _) | Some (JBool _) => Normal []
  end.

(** A path argument that is [undefined] reaches the tree and the error
    message as the string it converts to. *)
Definition path_argument (p : option jsstring) : jsstring :=
  default (js "undefined") p.

(** [if (maybeProject)] on an optional string *)
Definition truthy (s : option jsstring) : bool :=
  match s with
  | Some (_ :: _) => true
  | Some [] | None => false
  end.

Definition determineTargetProjectName (t : Tree) (maybeProject : option jsstring)
  : completion (option jsstring) :=
  if truthy maybeProject then Normal maybeProject
  else
    cbind (readJsonInTree t (path_argument (getWorkspacePath t))) (fun workspaceJson =>
    cbind (get_field (js "projects") workspaceJson) (fun projects_member =>
    cbind (Object_keys projects_member) (fun projects =>
    match projects with
    | [only] => Normal (Some only)
    | _ => Normal None
    end))).

(** *** The configuration builders (utils, lines 78-211, 222-287, 300-321) *)

Definition str (s : string) : value := JStr (js s).
Definition fld (k : string) (v : value) : jsstring * value := (js k, v).
Definition yes : value := JBool true.
Definition no : value := JBool false.

(** The option object of a selector rule: [{ type, prefix, style }]. *)
Definition selector_options (type : string) (prefix : value) (style : string) : value :=
  JObj [fld "type" (str type); fld "prefix" prefix; fld "style" (str style)].

Definition createProjectESLintConfig (prefix : value) : value :=
  JObj [
    fld "root" yes;
    fld "ignorePatterns" (JArr [str "projects/**/*"]);
    fld "overrides" (JArr [
      JObj [
        fld "files" (JArr [str "*.ts"]);
        fld "parserOptions" (JObj [
          fld "project" (JArr [str "tsconfig.json"]);
          fld "createDefaultProgram" yes]);
        fld "extends" (JArr [
          str "eslint:recommended";
          str "plugin:@typescript-eslint/recommended";
          str "plugin:@typescript-eslint/recommended-requiring-type-checking";
          str "plugin:rxjs/recommended";
          str "plugin:@angular-eslint/recommended";
          str "plugin:@angular-eslint/recommended--extra";
          str "plugin:@angular-eslint/template/process-inline-templates";
          str "plugin:import/recommended";
          str "plugin:import/typescript";
          str "plugin:prettier/recommended"]);
        fld "settings" (JObj [
          fld "import/resolver" (JObj [
            fld "typescript" (JObj [
              fld "alwaysTryTypes" yes;
              fld "project" (JArr [str "tsconfig.json"])])])]);
        fld "rules" (JObj [
          fld "prettier/prettier" (str "error");
          fld "@angular-eslint/component-selector"
            (JArr [str "error"; selector_options "element" prefix "kebab-case"]);
          fld "@angular-eslint/directive-selector"
            (JArr [str "error"; selector_options "attribute" prefix "camelCase"]);
          fld "@angular-eslint/use-lifecycle-interface" (str "error");
          fld "@typescript-eslint/dot-notation" (str "off");
          fld "@typescript-eslint/explicit-function-return-type"
            (JArr [str "error"; JObj [fld "allowExpressions" yes]]);
          fld "@typescript-eslint/explicit-member-accessibility"
            (JArr [str "error"; JObj [fld "accessibility" (str "no-public")]]);
          fld "@typescript-eslint/lines-between-class-members"
            (JArr [str "error"; str "always"; JObj [fld "exceptAfterSingleLine" yes]]);
          fld "@typescript-eslint/no-inferrable-types" (str "off");
          fld "@typescript-eslint/typedef"
            (JArr [str "error";
                   JObj [fld "propertyDeclaration" yes;
                         fld "variableDeclaration" yes;
                         fld "parameter" yes;
                         fld "memberVariableDeclaration" yes;
                         fld "arrowParameter" no]]);
          fld "no-shadow" (str "off");
          fld "@typescript-eslint/no-shadow" (str "error");
          fld "@typescript-eslint/no-unused-expressions" (str "error");
          fld "@typescript-eslint/prefer-for-of" (str "error");
          fld "import/no-extraneous-dependencies" (str "error");
          fld "import/order" (str "error");
          fld "import/prefer-default-export" (str "off");
          fld "rxjs/finnish"
            (JArr [str "error";
                   JObj [fld "functions" yes;
                         fld "methods" yes;
                         fld "names" (JObj [
                           fld "^(canActivate|canActivateChild|canDeactivate|canLoad|intercept|resolve|validate)$" no]);
                         fld "parameters" yes;
                         fld "properties" yes;
                         fld "strict" no;
                         fld "types" (JObj [fld "^EventEmitter$" no]);
                         fld "variables" yes]]);
          fld "rxjs/no-topromise" (str "error");
          fld "rxjs/suffix-subjects"
            (JArr [str "error";
                   JObj [fld "parameters" yes;
                         fld "properties" yes;
                         fld "suffix" (str "$");
                         fld "types" (JObj [fld "^EventEmitter$" no]);
                         fld "variables" yes]]);
          fld "curly" (str "error");
          fld "default-case" (str "error");
          fld "eqeqeq" (JArr [str "error"; str "smart"]);
          fld "guard-for-in" (str "error");
          fld "no-caller" (str "error");
          fld "no-duplicate-imports" (str "error");
          fld "no-else-return" (JArr [str "error"; JObj [fld "allowElseIf" no]]);
          fld "no-eval" (str "error");
          fld "no-new-wrappers" (str "error");
          fld "no-plusplus" (str "error");
          fld "no-restricted-imports"
            (JArr [str "error";
                   JObj [fld "paths" (JArr [
                           JObj [fld "name" (str "rxjs/Rx");
                                 fld "message" (str "Please import directly from 'rxjs' instead")]]);
                         fld "patterns" (JArr [
                           JObj [fld "group" (JArr [str "lodash/*"; str "lodash"]);
                                 fld "message" (str "Please use lodash-es that uses es modules")]])]]);
          fld "no-useless-constructor" (str "error");
          fld "radix" (str "error");
          fld "spaced-comment"
            (JArr [str "error"; str "always"; JObj [fld "markers" (JArr [str "/"])]])])];
      JObj [
        fld "files" (JArr [str "*.html"]);
        fld "extends" (JArr [str "plugin:@angular-eslint/template/recommended"]);
        fld "rules" (JObj [])]])].

Definition createProjectStylelintConfig : value :=
  JObj [
    fld "extends" (JArr [str "stylelint-config-standard";
                         str "stylelint-config-recommended-scss";
                         str "stylelint-prettier/recommended"]);
    fld "plugins" (JArr [str "stylelint-scss"; str "stylelint-order"; str "stylelint-prettier"]);
    fld "rules" (JObj [
      fld "at-rule-no-vendor-prefix" yes;
      fld "color-named" (str "never");
      fld "declaration-block-no-duplicate-properties" yes;
      fld "declaration-no-important" yes;
      fld "font-family-name-quotes" (str "always-where-recommended");
      fld "function-url-quotes" (str "always");
      fld "max-nesting-depth" (JNum 5);
      fld "media-feature-name-no-vendor-prefix" yes;
      fld "property-no-vendor-prefix" yes;
      fld "selector-max-id" (JNum 0);
      fld "selector-no-vendor-prefix" yes;
      fld "selector-pseudo-element-no-unknown"
        (JArr [yes; JObj [fld "ignorePseudoElements" (JArr [str "ng-deep"])]]);
      fld "value-no-vendor-prefix" yes;
      fld "order/properties-alphabetical-order" yes;
      fld "scss/at-each-key-value-single-line" yes;
      fld "scss/at-else-closing-brace-newline-after" (str "always-last-in-chain");
      fld "scss/at-else-empty-line-before" (str "never");
      fld "scss/at-else-if-parentheses-space-before" (str "always");
      fld "scss/at-extend-no-missing-placeholder" yes;
      fld "scss/at-function-parentheses-space-before" (str "never");
      fld "scss/at-if-closing-brace-newline-after" (str "always-last-in-chain");
      fld "scss/at-if-closing-brace-space-after" (str "always-intermediate");
      fld "scss/at-if-no-null" yes;
      fld "scss/at-mixin-argumentless-call-parentheses" (str "never");
      fld "scss/at-mixin-named-arguments" (str "never");
      fld "scss/at-mixin-parentheses-space-before" (str "never");
      fld "scss/comment-no-empty" yes;
      fld "scss/comment-no-loud" yes;
      fld "scss/declaration-nested-properties" (str "never");
      fld "scss/dollar-variable-colon-space-after" (str "always");
      fld "scss/dollar-variable-colon-space-before" (str "never");
      fld "scss/dollar-variable-empty-line-after"
        (JArr [str "always";
               JObj [fld "except" (JArr [str "last-nested"; str "before-comment";
                                         str "before-dollar-variable"])]]);
      fld "scss/dollar-variable-empty-line-before"
        (JArr [str "always";
               JObj [fld "except" (JArr [str "first-nested"; str "after-comment";
                                         str "after-dollar-variable"])]]);
      fld "scss/dollar-variable-first-in-block"
        (JArr [yes; JObj [fld "except" (JArr [str "function"]);
                          fld "ignore" (JArr [str "comments"; str "imports"])]]);
      fld "scss/dollar-variable-no-missing-interpolation" yes;
      fld "scss/double-slash-comment-whitespace-inside" (str "always");
      fld "scss/function-quote-no-quoted-strings-inside" yes;
      fld "scss/function-unquote-no-unquoted-strings-inside" yes;
      fld "scss/no-duplicate-dollar-variables"
        (JArr [yes; JObj [fld "ignoreInside" (JArr [str "nested-at-rule"]);
                          fld "ignoreInsideAtRules" (JArr [str "function"])]]);
      fld "scss/no-duplicate-mixins" yes;
      fld "scss/operator-no-newline-after" yes;
      fld "scss/operator-no-newline-before" yes;
      fld "scss/operator-no-unspaced" yes;
      fld "scss/selector-nest-combinators" (str "always");
      fld "scss/selector-no-union-class-name" yes;
      fld "prettier/prettier" yes])].

Definition createPrettierConfig : value :=
  JObj [
    fld "singleQuote" yes;
    fld "tabWidth" (JNum 4);
    fld "printWidth" (JNum 120);
    fld "trailingComma" (str "none");
    fld "arrowParens" (str "avoid");
    fld "endOfLine" (str "auto");
    fld "attributeGroups" (JArr [
      str "$ANGULAR_ELEMENT_REF";
      str "$ANGULAR_STRUCTURAL_DIRECTIVE";
      str "$CLASS";
      str "$ID";
      str "$DEFAULT";
      str "$ANGULAR_ANIMATION";
      str "$ANGULAR_ANIMATION_INPUT";
      str "$ANGULAR_INPUT";
      str "$ANGULAR_TWO_WAY_BINDING";
      str "$ANGULAR_OUTPUT"])].

(** *** The configuration rules (utils, lines 213-220, 289-298, 323-331) *)

(** [x[k]] where [x] may be [undefined] *)
Definition index (x : option value) (k : jsstring) : completion (option value) :=
  match x with
  | None => Throw TypeError
  | Some recv => get_dynamic k recv
  end.

(** [const { name } = x]: destructuring [undefined] or [null] throws. *)
Definition destructure (name : jsstring) (x : option value) : completion (option value) :=
  match x with
  | None => Throw TypeError
  | Some recv => get_field name recv
  end.

(** [const { prefix = 'app' } = angularJSON.projects[projectName]]: the
    default stands in for [undefined] only. *)
Definition updateESLintConfigForProject (projectName : jsstring) : M unit :=
  (let* tree := get_host in
   let* angularJSON := lift (readJsonInTree tree (js "angular.json")) in
   let* projects := lift (get_field (js "projects") angularJSON) in
   let* descriptor := lift (index projects projectName) in
   let* declared := lift (destructure (js "prefix") descriptor) in
   let prefix := default (str "app") declared in
   updateJsonInTree (js ".eslintrc.json") (fun _ => createProjectESLintConfig prefix))%rule.

Definition addStylelintConfigForProject (projectName : jsstring) : M unit :=
  (let* tree := get_host in
   let* angularJSON := lift (readJsonInTree tree (js "angular.json")) in
   let* projects := lift (get_field (js "projects") angularJSON) in
   let* descriptor := lift (index projects projectName) in
   let* projectRoot := lift (destructure (js "root") descriptor) in
   let* path := lift (join_normalize P projectRoot (js ".stylelintrc.json")) in
   updateJsonInTree path (fun _ => createProjectStylelintConfig))%rule.

Definition addPrettierConfigForProject (projectName : jsstring) : M unit :=
  (let* tree := get_host in
   let* angularJSON := lift (readJsonInTree tree (js "angular.json")) in
   let* projects := lift (get_field (js "projects") angularJSON) in
   emit (Console_log projectName projects) ;;
   let* descriptor := lift (index projects projectName) in
   let* projectRoot := lift (destructure (js "root") descriptor) in
   let* path := lift (join_normalize P projectRoot (js ".prettierrc.json")) in
   updateJsonInTree path (fun _ => createPrettierConfig))%rule.

(** *** The package.json rules (utils, lines 333-430) *)

Definition devDeps (entries : list (string * string)) : deps_options :=
  {| opt_dependencies := None;
     opt_devDependencies := Some (map (fun e => (js e.1, js e.2)) entries) |}.

(** The lines of a notice: the template literal starts and ends with a line
    break, and its first line ends with U+1F389. *)
Definition notice (headline : string) (bullets : list string) : jsstring :=
  [10] ++ js headline ++ [55356; 57225; 10]
       ++ concat (map (fun b => js "  * " ++ js b ++ [10]) bullets).

(** The body the three rules share: they differ in the packages they
    request and in the notice they log. *)
Definition package_json_rule (requested : deps_options) (message : jsstring) : M unit :=
  (let* tree := get_host in
   if negb (Tree_exists tree (js "package.json")) then
     throw (Error (js "Could not find a `package.json` file at the root of your workspace"))
   else
     let* projectPackageJSON :=
       lift (match Tree_read tree (js "package.json") with
             | Some buffer => Normal (Buffer_toString P buffer)
             | None => Throw TypeError
             end) in
     let* json :=
       lift (match JSON_parse P projectPackageJSON with
             | inl json => Normal json
             | inr reason => Throw (SyntaxError reason)
             end) in
     let* json := lift (addPackageJsonDeps json requested) in
     let* member := lift (get_field (js "devDependencies") json) in
     let* sorted := lift (sortObjectByKeys_call member) in
     let* json := lift (assign json (js "devDependencies") sorted) in
     Tree_overwrite (js "package.json") (JSON_stringify json 4) ;;
     emit (Logger_info message))%rule.

Definition addPrettierPackages : M unit :=
  package_json_rule
    (devDeps [("prettier", "2.4.1"); ("prettier-plugin-organize-attributes", "^0.0.4")]%string)
    (notice "The following prettier packages was added to project "
            ["prettier"; "prettier-plugin-organize-attributes"]%string).

Definition addESLintPluginsPackages : M unit :=
  package_json_rule
    (devDeps [("eslint-plugin-import", "^2.24.2");
              ("eslint-import-resolver-typescript", "^2.5.0");
              ("eslint-plugin-rxjs", "^3.3.7");
              ("eslint-config-prettier", "^8.3.0");
              ("eslint-plugin-prettier", "^4.0.0")]%string)
    (notice "The following eslint plugins was added to project "
            ["eslint-plugin-prettier"; "eslint-config-prettier";
             "eslint-import-resolver-typescript"; "eslint-plugin-import";
             "eslint-plugin-rxjs"]%string).

Definition addStylelintPackages : M unit :=
  package_json_rule
    (devDeps [("stylelint", "^13.13.1");
              ("stylelint-config-prettier", "^8.0.2");
              ("stylelint-config-standard", "^22.0.0");
              ("stylelint-config-recommended-scss", "4.3.0");
              ("stylelint-order", "^4.1.0");
              ("stylelint-prettier", "^1.2.0");
              ("stylelint-scss", "^3.21.0")]%string)
    (notice "The following stylelint related packages was added to project "
            ["stylelint"; "stylelint-config-prettier"; "stylelint-config-standard";
             "stylelint-order"; "stylelint-prettier"; "stylelint-scss"]%string).

Definition addPackageInstallTask : M unit := emit AddTask_NodePackageInstall.

(** *** configureLinters (configure-linters/index.ts, lines 18-43) *)

(** ['\n' + `...`.trim()]: the template literal without the blanks around
    it, after a line break. *)
Definition ambiguous_project_message : jsstring :=
  [10] ++ js "Error: You must specify a project to add ESLint to because you have multiple projects in your angular.json"
       ++ [10] ++ js "E.g. npx ng g angular-brulex-lint:configure-linters {{YOUR_PROJECT_NAME_GOES_HERE}}".

Definition configureLinters (schema_project : option jsstring) : M unit :=
  (let* tree := get_host in
   let* projectName := lift (determineTargetProjectName tree schema_project) in
   match projectName with
   | Some (c :: name) =>
       let projectName := c :: name in
       chain [
         externalSchematic P (js "@angular-eslint/schematics") (js "add-eslint-to-project")
                           projectName;
         addPrettierPackages;
         addPrettierConfigForProject projectName;
         addESLintPluginsPackages;
         updateESLintConfigForProject projectName;
         addStylelintPackages;
         addStylelintConfigForProject projectName;
         addPackageInstallTask]
   | Some [] | None => throw (Error ambiguous_project_message)
   end)%rule.

End Program.

(** ** The order of own properties *)

(** The order in which an object lists two of its keys once both are
    present, when the second was created after every smaller one: array
    indices by value, before every other key; the other keys by code
    units. *)
Definition key_ltb (k k' : jsstring) : bool :=
  match array_index k, array_index k' with
  | Some n, Some n' => n <? n'
  | Some _, None => true
  | None, Some _ => false
  | None, None => units_ltb k k'
  end.

Definition key_lt (k k' : jsstring) : Prop := key_ltb k k' = true.

(** The code points of a string: a surrogate pair is one code point, any
    other code unit is its own. *)
Fixpoint code_points (s : jsstring) : list N :=
  match s with
  | [] => []
  | c :: rest =>
      match rest with
      | d :: rest' =>
          if is_leading_surrogate c && is_trailing_surrogate d
          then (65536 + (c - 55296) * 1024 + (d - 56320)) :: code_points rest'
          else c :: code_points rest
      | [] => [c]
      end
  end.

(** The keys of an object are in that order. *)
Definition ordered (ps : props) : Prop := StronglySorted key_lt ps.*1.

(** One step of the reduction in sortObjectByKeys. *)
Definition copy_key (obj result : props) (k : jsstring) : props :=
  match own_get k obj with
  | Some v => define_own k v result
  | None => result
  end.

(** ** What addPackageJsonDeps is specified on *)

(** What [section[k] = version] leaves of a section that is a plain object. *)
Definition set_version (sec : props) (entry : jsstring * jsstring) : props :=
  if has_own entry.1 sec then replace_own entry.1 (JStr entry.2) sec
  else if decide (entry.1 = proto_key) then sec
  else define_own entry.1 (JStr entry.2) sec.

(** A manifest: an object whose dependency sections, where present, are
    plain objects. *)
Definition manifest (ps : props) : Prop :=
  forall s, match own_get (section_key s) ps with
            | Some (JObj _) | None => True
            | Some _ => False
            end.

(** The entries of a section before the merge; none when it is absent. *)
Definition section_before (s : section_name) (ps : props) : props :=
  match own_get (section_key s) ps with
  | Some (JObj sec) => sec
  | _ => []
  end.

(** A requested dependency set: no section names a package twice. *)
Definition request (r : deps_options) : Prop :=
  forall s entries, options_get r s = Some entries -> NoDup entries.*1.

#[global] Instance section_name_eq_dec : EqDecision section_name.
Proof. solve_decision. Defined.

(** ** A platform to evaluate the rules on *)

(** Texts are ASCII and carry no comment, the parser knows the documents of
    the examples below, a path is filed under its absolute form, and the
    external schematic leaves the world as it is. *)
Definition sample_decode (buffer : list Byte.byte) : jsstring := map Byte.to_N buffer.

Definition sample_encode (s : jsstring) : list Byte.byte :=
  map (fun c => default Byte.x00 (Byte.of_N c)) s.

Definition one_project : value :=
  JObj [fld "projects" (JObj [fld "web" (JObj [fld "root" (str "apps/web")])])].

Definition two_projects : value :=
  JObj [fld "projects" (JObj [
          fld "web" (JObj [fld "root" (str "apps/web")]);
          fld "admin" (JObj [fld "root" (str "apps/admin"); fld "prefix" (str "adm")])])].

Definition sample_manifest : value :=
  JObj [fld "name" (str "demo"); fld "devDependencies" (JObj [fld "a" (str "1.0.0")])].

Definition sample_documents : list value :=
  [one_project; two_projects; sample_manifest; JObj []].

Definition sample_parse (text : jsstring) : value + jsstring :=
  match List.find (fun doc => bool_decide (JSON_stringify doc 0 = text)) sample_documents with
  | Some doc => inl doc
  | None => inr (js "Unexpected token")
  end.

Definition sample_tree_path (path : jsstring) : jsstring :=
  match path with
  | 47 :: _ => path
  | _ => 47 :: path
  end.

Definition sample_join (root : option value) (name : jsstring) : completion jsstring :=
  match root with
  | Some (JStr r) => Normal (r ++ [47] ++ name)
  | _ => Throw TypeError
  end.

Definition sample_platform : Platform :=
  {| Buffer_toString := sample_decode;
     Buffer_from := sample_encode;
     stripJsonComments := fun text => text;
     JSON_parse := sample_parse;
     tree_path := sample_tree_path;
     join_normalize := sample_join;
     externalSchematic := fun _ _ _ => ret tt |}.

Definition sample_file (path : string) (doc : value) : list N * list Byte.byte :=
  (js path, sample_encode (JSON_stringify doc 0)).

(** A workspace with one project and a manifest. *)
Definition single_workspace : World :=
  {| host := list_to_map [sample_file "/angular.json" one_project;
                          sample_file "/package.json" sample_manifest];
     trace := [] |}.

(** A workspace with two projects. *)
Definition double_workspace : World :=
  {| host := list_to_map [sample_file "/angular.json" two_projects;
                          sample_file "/package.json" sample_manifest];
     trace := [] |}.

(** ** Reading a configuration document *)




(** ** The lines of a text *)

(** The text between the line breaks. *)
Fixpoint lines (s : jsstring) : list jsstring :=
  match s with
  | [] => [[]]
  | c :: s' =>
      if decide (c = 10) then [] :: lines s'
      else match lines s' with
           | l :: ls => (c :: l) :: ls
           | [] => [[c]]
           end
  end.

(** A text whose first code unit is neither a space nor a line break. *)
Definition solid (body : jsstring) : Prop :=
  match body with
  | c :: _ => c <> 32 /\ c <> 10
  | [] => False
  end.

(** A line indented by [space] spaces per level, for some level from
    [depth] on. *)
Definition indented (space depth : nat) (l : jsstring) : Prop :=
  exists level body,
    (depth <= level)%nat /\ l = replicate (space * level) 32 ++ body /\ solid body.

(** A text laid out at a depth: its first line starts where the text
    starts, and every later line is indented for a level from [depth] on. *)
Definition laid_out (space depth : nat) (s : jsstring) : Prop :=
  exists first rest,
    lines s = first :: rest /\ solid first /\ Forall (indented space depth) rest.

(** The lines of [a ++ b], from the lines of [a] and of [b]: the last line
    of [a] runs into the first of [b]. *)
Fixpoint glue (ls ms : list jsstring) : list jsstring :=
  match ls with
  | [] => ms
  | [l] => match ms with
           | m :: ms' => (l ++ m) :: ms'
           | [] => [l]
           end
  | l :: ls' => l :: glue ls' ms
  end.

(** Every line of the text is indented, the first one too. *)
Definition block (space depth : nat) (s : jsstring) : Prop :=
  Forall (indented space depth) (lines s).


(** ** The merge, in closed form *)

(** The request of the three package rules: development dependencies
    only. *)
Definition dev_request (entries : list (jsstring * jsstring)) : deps_options :=
  {| opt_dependencies := None; opt_devDependencies := Some entries |}.

(** What [addDeps] makes of the members of a manifest. *)
Definition merge_section (r : deps_options) (s : section_name) (ps : props) : props :=
  match options_get r s with
  | None => ps
  | Some entries =>
      replace_own (section_key s)
        (JObj (fold_left set_version entries (section_before s ps)))
        (if has_own (section_key s) ps then ps
         else define_own (section_key s) (JObj []) ps)
  end.

(** The section names that [addDeps] has to create. *)
Definition created (r : deps_options) (s : section_name) (ps : props) : list jsstring :=
  match options_get r s with
  | Some _ => if has_own (section_key s) ps then [] else [section_key s]
  | None => []
  end.

(** The members of package.json after a package rule that requests
    [entries]: the merge, then [json.devDependencies =
    sortObjectByKeys(json.devDependencies)]. *)
Definition package_json_after (entries : list (jsstring * jsstring)) (m : props) : props :=
  let merged := merge_section (dev_request entries) devDependencies m in
  replace_own (section_key devDependencies)
    (JObj (sortObjectByKeys (section_before devDependencies merged))) merged.

(** The message of the package rules when there is no manifest. *)
Definition no_manifest_message : jsstring :=
  js "Could not find a `package.json` file at the root of your workspace".

(** ** A platform that reads back what the rules write *)

(** The parser knows a list of documents, in the three layouts the program
    writes: without gap, with a gap of four spaces, and as serializeJson
    lays a document out. *)
Definition known_parse (documents : list value) (text : jsstring) : value + jsstring :=
  match List.find (fun doc => bool_decide (JSON_stringify doc 0 = text)
                              || bool_decide (JSON_stringify doc 4 = text)
                              || bool_decide (serializeJson doc = text)) documents with
  | Some doc => inl doc
  | None => inr (js "Unexpected token")
  end.

Definition known_platform (documents : list value) : Platform :=
  {| Buffer_toString := sample_decode;
     Buffer_from := sample_encode;
     stripJsonComments := fun text => text;
     JSON_parse := known_parse documents;
     tree_path := sample_tree_path;
     join_normalize := sample_join;
     externalSchematic := fun _ _ _ => ret tt |}.

(** ** The requests and notices of the three package rules *)

Definition prettier_packages : list (jsstring * jsstring) :=
  [(js "prettier", js "2.4.1");
   (js "prettier-plugin-organize-attributes", js "^0.0.4")].

Definition eslint_packages : list (jsstring * jsstring) :=
  [(js "eslint-plugin-import", js "^2.24.2");
   (js "eslint-import-resolver-typescript", js "^2.5.0");
   (js "eslint-plugin-rxjs", js "^3.3.7");
   (js "eslint-config-prettier", js "^8.3.0");
   (js "eslint-plugin-prettier", js "^4.0.0")].

Definition stylelint_packages : list (jsstring * jsstring) :=
  [(js "stylelint", js "^13.13.1");
   (js "stylelint-config-prettier", js "^8.0.2");
   (js "stylelint-config-standard", js "^22.0.0");
   (js "stylelint-config-recommended-scss", js "4.3.0");
   (js "stylelint-order", js "^4.1.0");
   (js "stylelint-prettier", js "^1.2.0");
   (js "stylelint-scss", js "^3.21.0")].

Definition prettier_notice : jsstring :=
  notice "The following prettier packages was added to project "
         ["prettier"; "prettier-plugin-organize-attributes"]%string.

Definition eslint_notice : jsstring :=
  notice "The following eslint plugins was added to project "
         ["eslint-plugin-prettier"; "eslint-config-prettier";
          "eslint-import-resolver-typescript"; "eslint-plugin-import";
          "eslint-plugin-rxjs"]%string.

Definition stylelint_notice : jsstring :=
  notice "The following stylelint related packages was added to project "
         ["stylelint"; "stylelint-config-prettier"; "stylelint-config-standard";
          "stylelint-order"; "stylelint-prettier"; "stylelint-scss"]%string.

(** What the rules send to the context when every one of them returns. *)
Definition full_trace (projectName : jsstring) (projects : option value) : list event :=
  [Logger_info prettier_notice; Console_log projectName projects;
   Logger_info eslint_notice; Logger_info stylelint_notice;
   AddTask_NodePackageInstall].

(** A path that updateJsonInTree can update: no file, or a file that
    readJsonInTree reads. *)
Definition updatable (P : Platform) (t : gmap (list N) (list Byte.byte)) (path : jsstring)
  : Prop :=
  Tree_exists P t path = true -> exists json, readJsonInTree P t path = Normal json.

(** ** A workspace with two descriptors *)






(** * Properties *)
Section Strings.
Implicit Types a b c : list N.

Lemma units_ltb_irrefl a : units_ltb a a = false.
Proof.
  induction a as [|x a IH]; simpl; [done|].
  by rewrite N.ltb_irrefl.
Qed.

Lemma units_ltb_trans a b c :
  units_ltb a b = true -> units_ltb b c = true -> units_ltb a c = true.
Proof.
  revert b c. induction a as [|x a IH]; intros [|y b] [|z c]; simpl; try done.
  destruct (N.ltb_spec x y), (N.ltb_spec y x), (N.ltb_spec y z), (N.ltb_spec z y),
    (N.ltb_spec x z), (N.ltb_spec z x); try done; try lia.
  apply IH.
Qed.

Lemma units_ltb_total a b :
  units_ltb a b = false -> units_ltb b a = false -> a = b.
Proof.
  revert b. induction a as [|x a IH]; intros [|y b]; simpl; try done.
  destruct (N.ltb_spec x y), (N.ltb_spec y x); try done; try lia.
  intros. f_equal; [lia|]. by apply IH.
Qed.

Lemma units_ltb_asym a b : units_ltb a b = true -> units_ltb b a = false.
Proof.
  intros H. destruct (units_ltb b a) eqn:E; [|done].
  by rewrite <- (units_ltb_irrefl a), <- (units_ltb_trans _ _ _ H E).
Qed.
End Strings.

(** ** Array_sort *)

Lemma sort_insert_Permutation k l : sort_insert k l ≡ₚ k :: l.
Proof.
  induction l as [|k' l IH]; simpl; [done|].
  destruct (units_ltb k' k); [|done].
  rewrite IH. apply Permutation_swap.
Qed.

Lemma Array_sort_Permutation l : Array_sort l ≡ₚ l.
Proof.
  induction l as [|k l IH]; simpl; [done|].
  by rewrite sort_insert_Permutation, IH.
Qed.

Lemma elem_of_Array_sort k l : k ∈ Array_sort l <-> k ∈ l.
Proof. by rewrite Array_sort_Permutation. Qed.

Lemma units_le_trans a b c : units_le a b -> units_le b c -> units_le a c.
Proof.
  unfold units_le. intros Hab Hbc.
  destruct (units_ltb c a) eqn:Hca; [|done].
  destruct (units_ltb b a) eqn:E; [done|].
  destruct (units_ltb a b) eqn:E'.
  - by rewrite (units_ltb_trans _ _ _ Hca E') in Hbc.
  - rewrite (units_ltb_total _ _ E' E) in Hca. congruence.
Qed.

Lemma sort_insert_sorted k l :
  StronglySorted units_le l -> StronglySorted units_le (sort_insert k l).
Proof.
  induction 1 as [|k' l Hl IH Hall]; simpl; [repeat constructor|].
  destruct (units_ltb k' k) eqn:E.
  - constructor; [done|].
    rewrite sort_insert_Permutation. constructor; [|done].
    by apply units_ltb_asym.
  - constructor; [by constructor|].
    constructor; [done|].
    eapply Forall_impl; [exact Hall|]. intros x Hx. by eapply units_le_trans.
Qed.

Lemma Array_sort_sorted l : StronglySorted units_le (Array_sort l).
Proof.
  induction l as [|k l IH]; simpl; [constructor|]. by apply sort_insert_sorted.
Qed.

(** ** Array indices *)

Lemma digit_of_unit_inj c c' d d' u :
  digit_of_unit c d = Some u -> digit_of_unit c' d' = Some u -> c = c' /\ d = d'.
Proof.
  unfold digit_of_unit. intros H H'.
  destruct c as [|p]; [done|].
  do 7 (try (destruct p as [p|p|]; try done)).
  all: destruct c' as [|q]; [done|].
  all: do 7 (try (destruct q as [q|q|]; try done)).
  all: by simplify_eq.
Qed.

Lemma uint_of_units_inj k k' d :
  uint_of_units k = Some d -> uint_of_units k' = Some d -> k = k'.
Proof.
  revert k' d. induction k as [|c k IH]; intros [|c' k'] d; simpl.
  - done.
  - intros [= <-]. destruct (uint_of_units k'); [|done].
    unfold digit_of_unit. destruct c' as [|q]; [done|].
    do 7 (try (destruct q as [q|q|]; try done)).
  - intros H [= <-]. destruct (uint_of_units k); [|done].
    revert H. unfold digit_of_unit. destruct c as [|q]; [done|].
    do 7 (try (destruct q as [q|q|]; try done)).
  - destruct (uint_of_units k) as [u|] eqn:E; [|done].
    destruct (uint_of_units k') as [u'|] eqn:E'; [|done].
    intros H H'. destruct (digit_of_unit_inj _ _ _ _ _ H H') as [-> ->].
    f_equal. by eapply IH.
Qed.

Lemma canonical_unorm d : canonical d = true -> Decimal.unorm d = d.
Proof. destruct d as [|d| | | | | | | | |]; try done. by destruct d. Qed.

Lemma array_index_inj k k' n :
  array_index k = Some n -> array_index k' = Some n -> k = k'.
Proof.
  unfold array_index.
  destruct (uint_of_units k) as [d|] eqn:E; [|done].
  destruct (uint_of_units k') as [d'|] eqn:E'; [|done].
  destruct (canonical d) eqn:C; [|done].
  destruct (canonical d') eqn:C'; [|done]. simpl.
  repeat case_match; try done. intros [= <-] [= Heq].
  apply Unsigned.of_inj in Heq.
  rewrite !canonical_unorm in Heq by done. subst d'.
  by eapply uint_of_units_inj.
Qed.

(** ** key_lt is a strict total order *)

Lemma key_lt_irrefl k : ~ key_lt k k.
Proof.
  unfold key_lt, key_ltb. destruct (array_index k).
  - rewrite N.ltb_irrefl. done.
  - rewrite units_ltb_irrefl. done.
Qed.

Lemma key_lt_trans k1 k2 k3 : key_lt k1 k2 -> key_lt k2 k3 -> key_lt k1 k3.
Proof.
  unfold key_lt, key_ltb.
  destruct (array_index k1), (array_index k2), (array_index k3); try done.
  - rewrite !N.ltb_lt. lia.
  - apply units_ltb_trans.
Qed.

Lemma key_lt_connected k k' : k <> k' -> key_lt k k' \/ key_lt k' k.
Proof.
  intros Hne. unfold key_lt, key_ltb.
  destruct (array_index k) as [n|] eqn:E, (array_index k') as [n'|] eqn:E'; auto.
  - rewrite !N.ltb_lt. destruct (decide (n = n')) as [->|]; [|lia].
    destruct Hne. by eapply array_index_inj.
  - destruct (units_ltb k k') eqn:L; [auto|].
    destruct (units_ltb k' k) eqn:L'; [auto|].
    destruct Hne. by apply units_ltb_total.
Qed.

Lemma key_lt_asym k k' : key_lt k k' -> ~ key_lt k' k.
Proof. intros H H'. exact (key_lt_irrefl _ (key_lt_trans _ _ _ H H')). Qed.

(** ** Reading after writing *)

Section Props.
Implicit Types (ps : list (list N * value)) (k : list N) (v : value).

Lemma own_get_None k ps : own_get k ps = None <-> k ∉ ps.*1.
Proof.
  induction ps as [|[k' v'] ps IH]; simpl.
  - split; [intros _; apply not_elem_of_nil|done].
  - rewrite not_elem_of_cons. destruct (decide (k' = k)) as [->|Hne].
    + split; [done|]. intros [? _]. done.
    + rewrite IH. split; [by intros | by intros [_ ?]].
Qed.

Lemma own_get_is_Some k ps : is_Some (own_get k ps) <-> k ∈ ps.*1.
Proof.
  rewrite <- not_eq_None_Some, own_get_None.
  destruct (decide (k ∈ ps.*1)); naive_solver.
Qed.

Lemma has_own_true k ps : has_own k ps = true <-> k ∈ ps.*1.
Proof. unfold has_own. by rewrite bool_decide_eq_true, own_get_is_Some. Qed.

Lemma has_own_false k ps : has_own k ps = false <-> k ∉ ps.*1.
Proof. unfold has_own. by rewrite bool_decide_eq_false, own_get_is_Some. Qed.

Lemma keys_replace_own k v ps : (replace_own k v ps).*1 = ps.*1.
Proof.
  induction ps as [|[k' v'] ps IH]; simpl; [done|].
  destruct (decide (k' = k)) as [->|Hne]; simpl; [done|]. by f_equal.
Qed.

Lemma own_get_replace_own k v ps k' :
  k ∈ ps.*1 ->
  own_get k' (replace_own k v ps) = if decide (k = k') then Some v else own_get k' ps.
Proof.
  induction ps as [|[k0 v0] ps IH]; simpl.
  - by intros ?%elem_of_nil.
  - intros Hin. destruct (decide (k0 = k)) as [->|Hne]; simpl.
    + by repeat case_decide.
    + apply elem_of_cons in Hin as [?|Hin]; [congruence|].
      rewrite (IH Hin). repeat case_decide; congruence.
Qed.

Lemma keys_insert_index n k v ps : (insert_index n k v ps).*1 ≡ₚ k :: ps.*1.
Proof.
  induction ps as [|[k' v'] ps IH]; simpl; [done|].
  destruct (array_index k'); [|done].
  destruct (_ <? _); simpl; [|done].
  rewrite IH. apply Permutation_swap.
Qed.

Lemma own_get_insert_index n k v ps k' :
  k ∉ ps.*1 ->
  own_get k' (insert_index n k v ps) = if decide (k = k') then Some v else own_get k' ps.
Proof.
  induction ps as [|[k0 v0] ps IH]; simpl; [done|].
  rewrite not_elem_of_cons. intros [Hne Hnot].
  destruct (array_index k0); [destruct (_ <? _)|]; simpl; try done.
  rewrite (IH Hnot). repeat case_decide; congruence.
Qed.

Lemma own_get_app k ps ps' :
  own_get k (ps ++ ps') = match own_get k ps with Some v => Some v | None => own_get k ps' end.
Proof.
  induction ps as [|[k0 v0] ps IH]; simpl; [done|]. by case_decide.
Qed.

Lemma own_get_define_own k v ps k' :
  own_get k' (define_own k v ps) = if decide (k = k') then Some v else own_get k' ps.
Proof.
  unfold define_own. destruct (has_own k ps) eqn:H.
  - apply own_get_replace_own. by apply has_own_true.
  - apply has_own_false in H. destruct (array_index k).
    + by apply own_get_insert_index.
    + rewrite own_get_app. simpl.
      destruct (decide (k = k')) as [<-|].
      * by apply own_get_None in H as ->.
      * by destruct (own_get k' ps).
Qed.

Lemma keys_define_own k v ps :
  forall k', k' ∈ (define_own k v ps).*1 <-> k' = k \/ k' ∈ ps.*1.
Proof.
  intros k'. rewrite <- !own_get_is_Some, own_get_define_own.
  destruct (decide (k = k')) as [<-|Hne]; [split; eauto|].
  split; [by right|]. by intros [->|].
Qed.

(** ** Keeping the keys in order *)

Lemma ordered_NoDup ps : ordered ps -> NoDup ps.*1.
Proof.
  unfold ordered. induction 1 as [|k l Hl IH Hall]; constructor; [|done].
  intros Hin. rewrite Forall_forall in Hall. exact (key_lt_irrefl _ (Hall _ Hin)).
Qed.

Lemma ordered_replace_own k v ps : ordered ps -> ordered (replace_own k v ps).
Proof. unfold ordered. by rewrite keys_replace_own. Qed.

Lemma ordered_insert_index n k v ps :
  array_index k = Some n -> k ∉ ps.*1 -> ordered ps -> ordered (insert_index n k v ps).
Proof.
  unfold ordered. intros Hk Hnot Hs.
  induction ps as [|[k' v'] ps IH]; simpl in *; [repeat constructor|].
  apply not_elem_of_cons in Hnot as [Hne Hnot].
  apply StronglySorted_inv in Hs as [Hs Hall].
  assert (Hfront : key_lt k k' -> StronglySorted key_lt (k :: k' :: ps.*1)).
  { intros Hlt. constructor; [by constructor|].
    constructor; [done|].
    eapply Forall_impl; [exact Hall|]. intros x Hx. by eapply key_lt_trans. }
  destruct (array_index k') as [n'|] eqn:Hk'.
  - destruct (N.ltb_spec n' n) as [Hlt|Hge]; simpl.
    + constructor; [by apply IH|].
      rewrite keys_insert_index. constructor; [|done].
      unfold key_lt, key_ltb. rewrite Hk, Hk'. by apply N.ltb_lt.
    + apply Hfront. destruct (key_lt_connected k k' Hne) as [|Hlt]; [done|].
      revert Hlt. unfold key_lt, key_ltb. rewrite Hk, Hk', N.ltb_lt. lia.
  - simpl. apply Hfront. unfold key_lt, key_ltb. by rewrite Hk, Hk'.
Qed.

Lemma ordered_snoc k v ps :
  ordered ps -> Forall (fun k' => key_lt k' k) ps.*1 -> ordered (ps ++ [(k, v)]).
Proof.
  unfold ordered. rewrite fmap_app. simpl.
  induction 1 as [|k' l Hl IH Hall]; simpl; intros Hlt.
  - repeat constructor.
  - apply Forall_cons in Hlt as [Hk' Hlt]. constructor; [by apply IH|].
    apply Forall_app. split; [done|]. by constructor.
Qed.

Lemma ordered_ext ps ps' :
  ordered ps -> ordered ps' -> (forall k, own_get k ps = own_get k ps') -> ps = ps'.
Proof.
  intros Hs. revert ps'.
  induction ps as [|[k v] ps IH]; intros [|[k' v'] ps'] Hs' Hget.
  - done.
  - specialize (Hget k'). simpl in Hget. by rewrite decide_True in Hget.
  - specialize (Hget k). simpl in Hget. by rewrite decide_True in Hget.
  - pose proof (ordered_NoDup _ Hs) as Hnd. pose proof (ordered_NoDup _ Hs') as Hnd'.
    unfold ordered in Hs, Hs'. simpl in *.
    apply StronglySorted_inv in Hs as [Hs Hall].
    apply StronglySorted_inv in Hs' as [Hs' Hall'].
    apply NoDup_cons in Hnd as [Hk Hnd]. apply NoDup_cons in Hnd' as [Hk' Hnd'].
    rewrite Forall_forall in Hall, Hall'.
    assert (k = k') as <-.
    { destruct (decide (k = k')) as [|Hne]; [done|]. exfalso.
      pose proof (Hget k) as H1. pose proof (Hget k') as H2.
      rewrite decide_True, decide_False in H1 by done.
      rewrite decide_False, decide_True in H2 by done.
      assert (k ∈ ps'.*1) as Hin by (apply own_get_is_Some; rewrite <- H1; eauto).
      assert (k' ∈ ps.*1) as Hin' by (apply own_get_is_Some; rewrite H2; eauto).
      exact (key_lt_asym _ _ (Hall _ Hin') (Hall' _ Hin)). }
    pose proof (Hget k) as H1. rewrite !decide_True in H1 by done.
    injection H1 as <-. f_equal. apply IH; [done..|].
    intros k0. specialize (Hget k0).
    destruct (decide (k = k0)) as [<-|]; [|done].
    apply own_get_None in Hk, Hk'. congruence.
Qed.

End Props.

(** ** sortObjectByKeys *)

Section SortObjectByKeys.
Implicit Types (obj ps : list (list N * value)) (k : list N).

Lemma own_get_copy_keys obj keys result k :
  Forall (fun k' => k' ∈ obj.*1) keys ->
  own_get k (fold_left (copy_key obj) keys result)
  = if decide (k ∈ keys) then own_get k obj else own_get k result.
Proof.
  revert result. induction keys as [|x keys IH]; intros result Hkeys; cbn [fold_left].
  { destruct (decide (k ∈ [])) as [Hin|]; [by apply elem_of_nil in Hin|done]. }
  apply Forall_cons in Hkeys as [Hx Hkeys]. rewrite (IH _ Hkeys).
  apply own_get_is_Some in Hx as [v Hv].
  replace (copy_key obj result x) with (define_own x v result)
    by (unfold copy_key; by rewrite Hv).
  rewrite own_get_define_own.
  destruct (decide (k ∈ keys)) as [Hin|Hnot].
  - rewrite decide_True; [done|by right].
  - destruct (decide (x = k)) as [->|Hne].
    + rewrite decide_True; [done|by left].
    + rewrite decide_False; [done|]. rewrite elem_of_cons. by intros [->|].
Qed.

Lemma own_get_sortObjectByKeys obj k :
  own_get k (sortObjectByKeys obj) = own_get k obj.
Proof.
  unfold sortObjectByKeys. fold (copy_key obj). rewrite own_get_copy_keys.
  - case_decide as Hin; [done|]. simpl. symmetry. apply own_get_None.
    by rewrite elem_of_Array_sort in Hin.
  - apply Forall_forall. intros x. by rewrite elem_of_Array_sort.
Qed.

Lemma keys_sortObjectByKeys obj k : k ∈ (sortObjectByKeys obj).*1 <-> k ∈ obj.*1.
Proof. by rewrite <- !own_get_is_Some, own_get_sortObjectByKeys. Qed.

Lemma ordered_copy_keys obj keys result :
  StronglySorted units_le keys ->
  ordered result ->
  (forall k' k, k' ∈ result.*1 -> k ∈ keys -> units_le k' k) ->
  ordered (fold_left (copy_key obj) keys result).
Proof.
  intros Hs. revert result.
  induction Hs as [|x keys Hs IH Hall]; intros result Hord Hle; simpl; [done|].
  rewrite Forall_forall in Hall.
  apply IH.
  - unfold copy_key. destruct (own_get x obj) as [v|]; [|done].
    unfold define_own. destruct (has_own x result) eqn:Hhas.
    + by apply ordered_replace_own.
    + apply has_own_false in Hhas.
      destruct (array_index x) as [n|] eqn:Hx.
      * by apply ordered_insert_index.
      * apply ordered_snoc; [done|]. apply Forall_forall. intros k' Hin.
        unfold key_lt, key_ltb. rewrite Hx.
        destruct (array_index k'); [done|].
        destruct (units_ltb k' x) eqn:E; [done|]. exfalso.
        assert (units_le k' x) as E' by (apply Hle; [done|by left]).
        apply Hhas. by rewrite <- (units_ltb_total _ _ E E').
  - intros k' k Hin Hk. unfold copy_key in Hin.
    destruct (own_get x obj) as [v|].
    + apply keys_define_own in Hin as [->|Hin]; [by apply Hall|].
      apply Hle; [done|by right].
    + apply Hle; [done|by right].
Qed.

Lemma ordered_sortObjectByKeys obj : ordered (sortObjectByKeys obj).
Proof.
  unfold sortObjectByKeys. fold (copy_key obj). apply ordered_copy_keys.
  - apply Array_sort_sorted.
  - constructor.
  - by intros k' k ?%elem_of_nil.
Qed.

Lemma sortObjectByKeys_idempotent obj :
  sortObjectByKeys (sortObjectByKeys obj) = sortObjectByKeys obj.
Proof.
  apply ordered_ext; try apply ordered_sortObjectByKeys.
  intros k. apply own_get_sortObjectByKeys.
Qed.

Lemma key_lt_units_lt keys :
  Forall (fun k => array_index k = None) keys ->
  StronglySorted key_lt keys -> StronglySorted units_lt keys.
Proof.
  intros Hnone. induction 1 as [|k keys Hs IH Hall]; [constructor|].
  apply Forall_cons in Hnone as [Hk Hnone]. constructor; [by apply IH|].
  rewrite Forall_forall in Hall, Hnone. apply Forall_forall. intros k' Hin.
  specialize (Hall _ Hin). unfold key_lt, key_ltb in Hall.
  by rewrite Hk, (Hnone _ Hin) in Hall.
Qed.

End SortObjectByKeys.

(** C4 (as amended): sortObjectByKeys is idempotent, keeps every key with its value, and
    maps the empty object to the empty object; the keys of the result that
    are array indices come first, in ascending numeric order, and the other
    keys follow in ascending order of their UTF-16 code units.  When no key
    is an array index, the keys are in ascending lexicographic order.  The
    function only reads [obj] (its keys and their values) and builds a new
    object. *)
Theorem sortObjectByKeys_canonical (m : list (list N * value)) :
  sortObjectByKeys (sortObjectByKeys m) = sortObjectByKeys m
  /\ (forall k, own_get k (sortObjectByKeys m) = own_get k m)
  /\ (forall k, k ∈ (sortObjectByKeys m).*1 <-> k ∈ m.*1)
  /\ NoDup (sortObjectByKeys m).*1
  /\ StronglySorted key_lt (sortObjectByKeys m).*1
  /\ ((forall k, k ∈ m.*1 -> array_index k = None) ->
      StronglySorted units_lt (sortObjectByKeys m).*1)
  /\ sortObjectByKeys [] = [].
Proof.
  split; [apply sortObjectByKeys_idempotent|].
  split; [apply own_get_sortObjectByKeys|].
  split; [apply keys_sortObjectByKeys|].
  split; [apply ordered_NoDup, ordered_sortObjectByKeys|].
  split; [apply ordered_sortObjectByKeys|].
  split; [|done].
  intros Hnone. apply key_lt_units_lt; [|apply ordered_sortObjectByKeys].
  apply Forall_forall. intros k Hk. by apply Hnone, keys_sortObjectByKeys.
Qed.

(** The scenario of the specification: [{"b": ..., "a": ...}] comes out as
    [{"a": ..., "b": ...}]. *)
Lemma sortObjectByKeys_canonical_witness :
  StronglySorted units_lt
    (sortObjectByKeys [(js "b", str "2.0.0"); (js "a", str "1.0.0")]).*1.
Proof.
  apply (sortObjectByKeys_canonical [(js "b", str "2.0.0"); (js "a", str "1.0.0")]).
  intros k Hk. simpl in Hk. rewrite !elem_of_cons in Hk.
  destruct Hk as [->|[->|Hk]]; [reflexivity|reflexivity|].
  by apply elem_of_nil in Hk.
Defined.

(** C4, as stated, fails on keys that are array indices: an object with the
    keys "9" and "10" lists them in this order, before and after the call,
    and "10" is smaller than "9" in lexicographic order. *)
Lemma sortObjectByKeys_not_lexicographic :
  (sortObjectByKeys [(js "9", str "1.0.0"); (js "10", str "2.0.0")]).*1
    = [js "9"; js "10"]
  /\ ~ StronglySorted units_le
        (sortObjectByKeys [(js "9", str "1.0.0"); (js "10", str "2.0.0")]).*1.
Proof.
  split; [reflexivity|].
  intros Hs. apply StronglySorted_inv in Hs as [_ Hall].
  apply Forall_cons in Hall as [Hle _]. vm_compute in Hle. discriminate.
Qed.

(** The order of [sort()] is the order of code units, which is not the
    order of code points once a key has a surrogate pair: U+1F600, the pair
    D83D DE00, sorts before U+FF5E. *)
Lemma sort_compares_code_units :
  Array_sort [[65374]; [55357; 56832]] = [[55357; 56832]; [65374]]
  /\ code_points [55357; 56832] = [128512]
  /\ units_lt (code_points [65374]) (code_points [55357; 56832]).
Proof. repeat split; reflexivity. Qed.

(** ** addPackageJsonDeps *)

Section Merge.
Implicit Types (ps sec : list (list N * value)) (k : list N)
  (entries : list (list N * list N)) (s : section_name).

Lemma replace_own_same k v ps : own_get k ps = Some v -> replace_own k v ps = ps.
Proof.
  induction ps as [|[k' v'] ps IH]; simpl; [done|].
  destruct (decide (k' = k)) as [->|Hne]; [by intros [= ->]|].
  intros H. by rewrite IH.
Qed.

Lemma replace_own_twice k v v' ps :
  replace_own k v (replace_own k v' ps) = replace_own k v ps.
Proof.
  induction ps as [|[k0 v0] ps IH]; simpl; [done|].
  destruct (decide (k0 = k)) as [->|Hne]; simpl.
  - by rewrite decide_True.
  - rewrite decide_False by done. by rewrite IH.
Qed.

Lemma assign_version sec k version :
  assign (JObj sec) k (JStr version) = Normal (JObj (set_version sec (k, version))).
Proof. unfold assign, set_version. simpl. by repeat case_match. Qed.

Lemma forEach_entry_object s entries ps sec :
  own_get (section_key s) ps = Some (JObj sec) ->
  forEach_entry s entries (JObj ps)
  = Normal (JObj (replace_own (section_key s)
                    (JObj (fold_left set_version entries sec)) ps)).
Proof.
  revert ps sec. induction entries as [|[k version] entries IH]; intros ps sec Hsec; simpl.
  - by rewrite replace_own_same.
  - rewrite Hsec, assign_version. simpl. erewrite IH.
    + by rewrite replace_own_twice.
    + rewrite own_get_replace_own, decide_True; [done..|].
      apply own_get_is_Some. by rewrite Hsec.
Qed.

Lemma own_get_set_version sec entry k :
  own_get k (set_version sec entry)
  = if decide (entry.1 = k)
    then (if decide (k <> proto_key \/ k ∈ sec.*1) then Some (JStr entry.2) else None)
    else own_get k sec.
Proof.
  destruct entry as [k0 version]. unfold set_version. simpl.
  destruct (has_own k0 sec) eqn:Hhas.
  - apply has_own_true in Hhas. rewrite own_get_replace_own by done.
    destruct (decide (k0 = k)) as [<-|]; [|done].
    rewrite decide_True; [done|by right].
  - apply has_own_false in Hhas.
    destruct (decide (k0 = proto_key)) as [->|Hne].
    + destruct (decide (proto_key = k)) as [<-|]; [|done].
      rewrite decide_False; [by apply own_get_None|]. by intros [|].
    + rewrite own_get_define_own. destruct (decide (k0 = k)) as [<-|]; [|done].
      rewrite decide_True; [done|by left].
Qed.

Lemma keys_set_version sec entry k : k ∈ sec.*1 -> k ∈ (set_version sec entry).*1.
Proof.
  rewrite <- !own_get_is_Some, own_get_set_version.
  intros Hin. destruct (decide (entry.1 = k)) as [<-|]; [|done].
  rewrite decide_True; [eauto|]. right. by apply own_get_is_Some.
Qed.

Lemma own_get_set_versions_other entries sec k :
  k ∉ entries.*1 -> own_get k (fold_left set_version entries sec) = own_get k sec.
Proof.
  revert sec. induction entries as [|entry entries IH]; intros sec; simpl; [done|].
  rewrite not_elem_of_cons. intros [Hne Hnot].
  rewrite IH, own_get_set_version by done. by rewrite decide_False.
Qed.

Lemma own_get_set_versions entries sec k version :
  NoDup entries.*1 -> (k, version) ∈ entries ->
  k <> proto_key \/ k ∈ sec.*1 ->
  own_get k (fold_left set_version entries sec) = Some (JStr version).
Proof.
  revert sec. induction entries as [|entry entries IH]; intros sec Hnd Hin Hk; simpl.
  { by apply elem_of_nil in Hin. }
  simpl in Hnd. apply NoDup_cons in Hnd as [Hfresh Hnd].
  apply elem_of_cons in Hin as [<-|Hin].
  - rewrite own_get_set_versions_other by done.
    rewrite own_get_set_version. simpl. by rewrite !decide_True.
  - apply IH; [done..|]. destruct Hk as [|Hk]; [by left|]. right.
    by apply keys_set_version.
Qed.

Lemma section_key_not_proto s : section_key s <> proto_key.
Proof. by destruct s. Qed.

Lemma section_key_inj s s' : section_key s = section_key s' -> s = s'.
Proof. by destruct s, s'. Qed.


End Merge.

Section MergeTheorems.
Implicit Types (ps sec : list (list N * value)) (k : list N) (s : section_name).



End MergeTheorems.




(** C5: a manifest that is a string, a number or a boolean is returned as
    it is, whatever is requested; [null], whose [typeof] is "object" too,
    passes the guard, and [section in null] throws a TypeError as soon as
    the request has a section. *)
Theorem addPackageJsonDeps_non_object :
  (forall v r, typeof v <> t_object -> addPackageJsonDeps v r = Normal v)
  /\ (forall r, addPackageJsonDeps JNull r
                = match opt_dependencies r, opt_devDependencies r with
                  | None, None => Normal JNull
                  | _, _ => Throw TypeError
                  end)
  /\ addPackageJsonDeps JNull (devDeps [("b", "2.0.0")]%string) = Throw TypeError.
Proof.
  split; [|split; [|reflexivity]].
  - intros v r Hv. unfold addPackageJsonDeps. by destruct v.
  - intros [[d|] [d'|]]; reflexivity.
Qed.

(** A manifest that is a string comes back as it is. *)
Lemma addPackageJsonDeps_non_object_witness :
  addPackageJsonDeps (str "1.0.0") (devDeps [("b", "2.0.0")]%string)
  = Normal (str "1.0.0").
Proof.
  apply (proj1 addPackageJsonDeps_non_object). discriminate.
Defined.

(** ** The text JSON.stringify produces *)

Section Stringify.
Implicit Types (s gap indent : list N) (v : value).

Lemma string_of_uint_no_newline d : 10 ∉ js (NilEmpty.string_of_uint d).
Proof.
  induction d; simpl; unfold js; fold js;
    rewrite ?not_elem_of_cons; try (split; [done|]); try done.
  apply not_elem_of_nil.
Qed.

Lemma Number_toString_no_newline n : 10 ∉ Number_toString n.
Proof.
  unfold Number_toString, NilEmpty.string_of_int.
  destruct (Z.to_int n); simpl; unfold js; fold js; rewrite ?not_elem_of_cons;
    try (split; [done|]); apply string_of_uint_no_newline.
Qed.

Lemma wrap_last open close gap indent stepback partial :
  last (wrap open close gap indent stepback partial) = Some close.
Proof.
  unfold wrap. destruct partial as [|p partial]; [done|].
  destruct gap as [|g gap].
  - change (open :: join [44] (p :: partial) ++ [close])
      with ((open :: join [44] (p :: partial)) ++ [close]).
    apply last_snoc.
  - rewrite !app_comm_cons. rewrite app_assoc.
    change (10 :: stepback ++ [close]) with ((10 :: stepback) ++ [close]).
    rewrite app_assoc. apply last_snoc.
Qed.

(** The text never ends with a line break. *)
Lemma SerializeJSONProperty_last gap indent v :
  last (SerializeJSONProperty gap indent v) <> Some 10.
Proof.
  destruct v as [|[]|n|s|items|ps]; simpl; try done.
  - intros H. apply last_Some_elem_of in H. by apply Number_toString_no_newline in H.
  - unfold QuoteJSONString.
    change (34 :: quote_units s ++ [34]) with ((34 :: quote_units s) ++ [34]).
    by rewrite last_snoc.
  - by rewrite wrap_last.
  - by rewrite wrap_last.
Qed.

(** How an object with members is laid out: an opening brace, one member
    per line in the order of the own keys, each after the indentation of
    the level and separated by commas, and the closing brace on a line of
    its own at the indentation of the enclosing level. *)
Lemma SerializeJSONProperty_object g gap indent p ps :
  SerializeJSONProperty (g :: gap) indent (JObj (p :: ps))
  = [123; 10] ++ (indent ++ g :: gap)
      ++ join ([44; 10] ++ indent ++ g :: gap)
           (map (fun member =>
                   QuoteJSONString member.1 ++ [58; 32]
                     ++ SerializeJSONProperty (g :: gap) (indent ++ g :: gap) member.2)
                (p :: ps))
      ++ [10] ++ indent ++ [125].
Proof.
  cbn [SerializeJSONProperty]. unfold wrap.
  set (each := fix each (l : list (list N * value)) : list (list N) :=
         match l with
         | [] => []
         | (k, x) :: l' =>
             (QuoteJSONString k ++ member_separator (g :: gap)
                ++ SerializeJSONProperty (g :: gap) (indent ++ g :: gap) x) :: each l'
         end).
  assert (forall l, each l
            = map (fun member =>
                     QuoteJSONString member.1 ++ [58; 32]
                       ++ SerializeJSONProperty (g :: gap) (indent ++ g :: gap) member.2) l)
    as Heach.
  { induction l as [|[k x] l IH]; [done|]. cbn [map]. rewrite <- IH. reflexivity. }
  rewrite Heach. destruct p as [k x]. reflexivity.
Qed.

End Stringify.


(** ** Lines and indentation *)

Section Lines.
Implicit Types (s a b z l : list N) (ls ms : list (list N)).

Lemma lines_nonempty s : lines s <> [].
Proof.
  destruct s as [|c s]; simpl; [done|].
  case_decide; [done|]. by destruct (lines s).
Qed.

Lemma lines_app a b : lines (a ++ b) = glue (lines a) (lines b).
Proof.
  induction a as [|c a IH]; simpl.
  - pose proof (lines_nonempty b). by destruct (lines b).
  - pose proof (lines_nonempty a) as Ha. rewrite IH. case_decide.
    + by destruct (lines a) as [|l [|l' ls]].
    + destruct (lines a) as [|l [|l' ls]]; [done| |done].
      simpl. pose proof (lines_nonempty b). by destruct (lines b).
Qed.

Lemma lines_single z : 10 ∉ z -> lines z = [z].
Proof.
  induction z as [|c z IH]; simpl; [done|].
  rewrite not_elem_of_cons. intros [Hc Hz].
  rewrite decide_False by done. by rewrite IH.
Qed.

Lemma glue_app ls l ms : glue (ls ++ [l]) ms = ls ++ glue [l] ms.
Proof.
  induction ls as [|l0 ls IH]; [done|].
  simpl. rewrite IH. by destruct ls.
Qed.

Lemma lines_break a b : lines (a ++ 10 :: b) = lines a ++ lines b.
Proof.
  rewrite lines_app. simpl.
  destruct (lines a) as [|l ls] eqn:E using rev_ind; [by apply lines_nonempty in E|].
  rewrite glue_app. simpl. by rewrite app_nil_r, <- app_assoc.
Qed.

Section Layout.
Context (space : nat).
Implicit Types (depth : nat).

Lemma solid_app a z : solid a -> solid (a ++ z).
Proof. by destruct a. Qed.

Lemma indented_app depth l z : indented space depth l -> indented space depth (l ++ z).
Proof.
  intros (level & body & Hle & -> & Hbody).
  exists level, (body ++ z). split; [done|]. split; [by rewrite app_assoc|].
  by apply solid_app.
Qed.

Lemma indented_mono depth depth' l :
  (depth <= depth')%nat -> indented space depth' l -> indented space depth l.
Proof.
  intros Hle (level & body & Hle' & -> & Hbody).
  exists level, body. split; [lia|done].
Qed.

Lemma Forall_glue_single (Q : list N -> Prop) ls z :
  ls <> [] -> (forall l, Q l -> Q (l ++ z)) -> Forall Q ls -> Forall Q (glue ls [z]).
Proof.
  intros Hne HQ. induction 1 as [|l ls Hl Hls IH]; [done|].
  destruct ls as [|l' ls].
  - simpl. repeat constructor. by apply HQ.
  - change (glue (l :: l' :: ls) [z]) with (l :: glue (l' :: ls) [z]).
    constructor; [done|]. by apply IH.
Qed.

Lemma block_snoc depth a z :
  10 ∉ z -> block space depth a -> block space depth (a ++ z).
Proof.
  intros Hz Ha. unfold block. rewrite lines_app, (lines_single z Hz).
  apply Forall_glue_single; [apply lines_nonempty| |done]. intros l. apply indented_app.
Qed.

Lemma block_break depth a b :
  block space depth a -> block space depth b -> block space depth (a ++ 10 :: b).
Proof. intros Ha Hb. unfold block. rewrite lines_break. by apply Forall_app. Qed.

Lemma laid_out_single depth z : 10 ∉ z -> solid z -> laid_out space depth z.
Proof. intros Hz Hs. exists z, []. by rewrite lines_single. Qed.

Lemma laid_out_break depth a b :
  laid_out space depth a -> block space depth b -> laid_out space depth (a ++ 10 :: b).
Proof.
  intros (first & rest & Hlines & Hfirst & Hrest) Hb.
  exists first, (rest ++ lines b). rewrite lines_break, Hlines.
  split; [done|]. split; [done|]. by apply Forall_app.
Qed.

Lemma replicate_no_newline n : 10 ∉ replicate n (32 : N).
Proof. by intros [? _]%elem_of_replicate. Qed.

(** A text laid out one level down, after the indentation of that level. *)
Lemma block_indent depth s :
  laid_out space (S depth) s -> block space depth (replicate (space * S depth) 32 ++ s).
Proof.
  intros (first & rest & Hlines & Hfirst & Hrest).
  unfold block. rewrite lines_app, lines_single by apply replicate_no_newline.
  rewrite Hlines. simpl. constructor.
  - by exists (S depth), first; split; [lia|].
  - eapply Forall_impl; [exact Hrest|]. intros l. apply indented_mono. lia.
Qed.

Lemma block_join depth parts :
  parts <> [] ->
  Forall (laid_out space (S depth)) parts ->
  block space depth (replicate (space * S depth) 32
                 ++ join (44 :: 10 :: replicate (space * S depth) 32) parts).
Proof.
  intros Hne Hparts. induction Hparts as [|p parts Hp Hparts IH]; [done|].
  destruct parts as [|q parts].
  - simpl. by apply block_indent.
  - change (join ?sep (p :: q :: parts)) with (p ++ sep ++ join sep (q :: parts)).
    rewrite app_assoc.
    change ((?x ++ p) ++ (44 :: 10 :: ?i) ++ ?y) with ((x ++ p) ++ [44] ++ 10 :: (i ++ y)).
    rewrite app_assoc. apply block_break; [|by apply IH].
    apply block_snoc; [|by apply block_indent].
    rewrite not_elem_of_cons. split; [done|apply not_elem_of_nil].
Qed.

Lemma wrap_members open close gap indent stepback parts :
  gap <> [] -> parts <> [] ->
  wrap open close gap indent stepback parts
  = [open] ++ 10 :: ((indent ++ join (44 :: 10 :: indent) parts)
                       ++ 10 :: (stepback ++ [close])).
Proof.
  intros Hgap Hparts. unfold wrap. destruct parts; [done|]. destruct gap; [done|].
  simpl. by rewrite <- app_assoc.
Qed.

(** The layout of an array or an object: the members one level down. *)
Lemma laid_out_wrap open close depth parts :
  (0 < space)%nat -> open <> 32 -> open <> 10 -> close <> 32 -> close <> 10 ->
  Forall (laid_out space (S depth)) parts ->
  laid_out space depth
    (wrap open close (replicate space 32)
          (replicate (space * depth) 32 ++ replicate space 32)
          (replicate (space * depth) 32) parts).
Proof.
  intros Hspace Ho Ho' Hc Hc' Hparts.
  destruct (decide (parts = [])) as [->|Hne].
  { apply laid_out_single; [|done]. simpl.
    rewrite !not_elem_of_cons. by repeat split; try apply not_elem_of_nil. }
  rewrite wrap_members; [|by destruct space; [lia|]|done].
  assert (replicate (space * depth) 32 ++ replicate space (32 : N)
          = replicate (space * S depth) 32) as ->.
  { rewrite <- replicate_add. f_equal. lia. }
  apply laid_out_break.
  - apply laid_out_single; [|done].
    rewrite not_elem_of_cons. split; [done|apply not_elem_of_nil].
  - apply block_break; [by apply block_join|].
    unfold block. rewrite lines_single.
    + repeat constructor. exists depth, [close]. split; [lia|]. by split.
    + rewrite not_elem_of_app, not_elem_of_cons.
      split; [apply replicate_no_newline|]. split; [done|apply not_elem_of_nil].
Qed.

End Layout.
End Lines.

(** ** Induction on documents *)

Section value_ind_nested.
Variable Pv : value -> Prop.
Hypothesis Hnull : Pv JNull.
Hypothesis Hbool : forall b, Pv (JBool b).
Hypothesis Hnum : forall n, Pv (JNum n).
Hypothesis Hstr : forall s, Pv (JStr s).
Hypothesis Harr : forall items, Forall Pv items -> Pv (JArr items).
Hypothesis Hobj : forall ps : list (list N * value),
    Forall (fun p => Pv p.2) ps -> Pv (JObj ps).

Fixpoint value_ind_nested (v : value) : Pv v :=
  match v with
  | JNull => Hnull
  | JBool b => Hbool b
  | JNum n => Hnum n
  | JStr s => Hstr s
  | JArr items =>
      Harr items
        ((fix all (l : list value) : Forall Pv l :=
            match l with
            | [] => List.Forall_nil Pv
            | x :: l' => List.Forall_cons Pv x l' (value_ind_nested x) (all l')
            end) items)
  | JObj ps =>
      Hobj ps
        ((fix all (l : list (list N * value)) : Forall (fun p => Pv p.2) l :=
            match l with
            | [] => List.Forall_nil _
            | p :: l' => List.Forall_cons _ p l' (value_ind_nested p.2) (all l')
            end) ps)
  end.

End value_ind_nested.

(** ** The layout of the text JSON.stringify produces *)

Ltac by_decision :=
  match goal with
  | |- ?G => apply (@bool_decide_unpack G _); vm_compute; exact I
  end.

Section StringifyLayout.
Implicit Types (s : list N) (v : value).

Lemma hex_digit_no_newline n : hex_digit n <> 10.
Proof. unfold hex_digit. case_match; lia. Qed.

Lemma unicode_escape_no_newline c : 10 ∉ unicode_escape c.
Proof.
  unfold unicode_escape. rewrite !not_elem_of_cons.
  repeat split; try done; try (apply not_eq_sym, hex_digit_no_newline).
  apply not_elem_of_nil.
Qed.

Lemma quote_unit_no_newline c : 10 ∉ quote_unit c.
Proof.
  unfold quote_unit.
  repeat case_match; try apply unicode_escape_no_newline;
    rewrite !not_elem_of_cons; repeat split; try done; try apply not_elem_of_nil.
  all: intros <-; done.
Qed.

Lemma quote_units_no_newline s : 10 ∉ quote_units s.
Proof.
  remember (length s) as n eqn:Hn. revert s Hn.
  induction n as [n IH] using lt_wf_ind. intros [|c rest] Hn.
  { apply not_elem_of_nil. }
  cbn [quote_units]. cbn [length] in Hn.
  destruct (is_leading_surrogate c) eqn:Hlead.
  - unfold is_leading_surrogate in Hlead. apply andb_true_iff in Hlead as [Hc _].
    apply N.leb_le in Hc.
    destruct rest as [|d rest']; [apply unicode_escape_no_newline|].
    destruct (is_trailing_surrogate d) eqn:Htrail.
    + unfold is_trailing_surrogate in Htrail. apply andb_true_iff in Htrail as [Hd _].
      apply N.leb_le in Hd. rewrite !not_elem_of_cons.
      split; [lia|]. split; [lia|]. eapply IH; [|done]. cbn [length] in Hn. lia.
    + rewrite not_elem_of_app. split; [apply unicode_escape_no_newline|].
      eapply IH; [|done]. lia.
  - destruct (is_trailing_surrogate c).
    + rewrite not_elem_of_app. split; [apply unicode_escape_no_newline|].
      eapply IH; [|done]. lia.
    + rewrite not_elem_of_app. split; [apply quote_unit_no_newline|].
      eapply IH; [|done]. lia.
Qed.

Lemma QuoteJSONString_no_newline s : 10 ∉ QuoteJSONString s.
Proof.
  unfold QuoteJSONString. rewrite not_elem_of_cons, not_elem_of_app, not_elem_of_cons.
  split; [done|]. split; [apply quote_units_no_newline|].
  split; [done|apply not_elem_of_nil].
Qed.

Lemma string_of_uint_solid d : d <> Decimal.Nil -> solid (js (NilEmpty.string_of_uint d)).
Proof. destruct d; try done; intros _; by vm_compute. Qed.

Lemma Number_toString_solid n : solid (Number_toString n).
Proof.
  unfold Number_toString. destruct n as [|p|p]; simpl.
  - by vm_compute.
  - apply string_of_uint_solid, DecimalPos.Unsigned.to_uint_nonnil.
  - by vm_compute.
Qed.

Lemma laid_out_prefix space depth a s :
  10 ∉ a -> solid a -> laid_out space depth s -> laid_out space depth (a ++ s).
Proof.
  intros Ha Hsolid (first & rest & Hlines & Hfirst & Hrest).
  exists (a ++ first), rest. rewrite lines_app, (lines_single a Ha), Hlines.
  split; [done|]. split; [by apply solid_app|done].
Qed.

Lemma each_item gap indent items :
  (fix each (l : list value) : list (list N) :=
     match l with
     | [] => []
     | x :: l' => SerializeJSONProperty gap indent x :: each l'
     end) items
  = map (SerializeJSONProperty gap indent) items.
Proof. induction items as [|x items IH]; [done|]. cbn [map]. by rewrite <- IH. Qed.

Lemma each_member gap indent (ps : list (list N * value)) :
  (fix each (l : list (list N * value)) : list (list N) :=
     match l with
     | [] => []
     | (k, x) :: l' =>
         (QuoteJSONString k ++ member_separator gap
            ++ SerializeJSONProperty gap indent x) :: each l'
     end) ps
  = map (fun p => QuoteJSONString p.1 ++ member_separator gap
                    ++ SerializeJSONProperty gap indent p.2) ps.
Proof. induction ps as [|[k x] ps IH]; [done|]. cbn [map]. by rewrite <- IH. Qed.

(** With a gap of [space] spaces, every line of a document after its first
    starts with a whole number of gaps, at least as many as the document is
    deep in its enclosing document, and goes on with a code unit that is
    not a space. *)
Lemma SerializeJSONProperty_laid_out space v :
  (0 < space)%nat ->
  forall depth,
    laid_out space depth
      (SerializeJSONProperty (replicate space 32) (replicate (space * depth) 32) v).
Proof.
  intros Hspace.
  assert (forall depth, replicate (space * depth) 32 ++ replicate space (32 : N)
                        = replicate (space * S depth) 32) as Hdeeper.
  { intros depth. rewrite <- replicate_add. f_equal. lia. }
  induction v as [|[]|n|s|items IH|ps IH] using value_ind_nested; intros depth.
  - apply laid_out_single; [by_decision|by vm_compute].
  - apply laid_out_single; [by_decision|by vm_compute].
  - apply laid_out_single; [by_decision|by vm_compute].
  - apply laid_out_single; [apply Number_toString_no_newline|apply Number_toString_solid].
  - apply laid_out_single; [apply QuoteJSONString_no_newline|done].
  - cbn [SerializeJSONProperty]. rewrite each_item.
    apply laid_out_wrap; try done.
    rewrite Hdeeper. apply Forall_fmap. eapply Forall_impl; [exact IH|].
    intros x Hx. apply Hx.
  - cbn [SerializeJSONProperty]. rewrite each_member.
    apply laid_out_wrap; try done.
    rewrite Hdeeper. apply Forall_fmap. eapply Forall_impl; [exact IH|].
    intros [k x] Hx. unfold compose. cbn [fst snd] in *.
    rewrite app_assoc. apply laid_out_prefix.
    + rewrite not_elem_of_app. split; [apply QuoteJSONString_no_newline|].
      unfold member_separator. destruct (replicate space 32);
        rewrite !not_elem_of_cons; repeat split; try done; apply not_elem_of_nil.
    + done.
    + apply Hx.
Qed.

Lemma JSON_stringify_laid_out v space :
  (0 < space <= 10)%nat -> laid_out space 0 (JSON_stringify v space).
Proof.
  intros Hspace. unfold JSON_stringify.
  rewrite Nat.min_r by lia.
  replace (@nil N) with (replicate (space * 0) (32 : N)) by (by rewrite Nat.mul_0_r).
  apply SerializeJSONProperty_laid_out. lia.
Qed.

Lemma lines_serializeJson json :
  lines (serializeJson json) = lines (JSON_stringify json 2) ++ [[]].
Proof. unfold serializeJson. change [10] with (10 :: @nil N). by rewrite lines_break. Qed.

End StringifyLayout.

(** ** The document store *)

Section Store.
Context (P : Platform).
Implicit Types (t : gmap (list N) (list Byte.byte)) (w : World) (path : list N).

Lemma Tree_exists_read t path :
  Tree_exists P t path = true <-> exists buffer, Tree_read P t path = Some buffer.
Proof. unfold Tree_exists, Tree_read. by rewrite bool_decide_eq_true. Qed.

Lemma Tree_exists_false t path :
  Tree_exists P t path = false <-> Tree_read P t path = None.
Proof.
  unfold Tree_exists, Tree_read. rewrite bool_decide_eq_false.
  by rewrite <- eq_None_not_Some.
Qed.

Lemma readJsonInTree_missing t path :
  Tree_exists P t path = false ->
  readJsonInTree P t path = Throw (Error (js "Cannot find " ++ path)).
Proof. intros H. unfold readJsonInTree. by rewrite H. Qed.

Lemma readJsonInTree_present t path buffer :
  Tree_read P t path = Some buffer ->
  readJsonInTree P t path
  = match JSON_parse P (stripJsonComments P (Buffer_toString P buffer)) with
    | inl json => Normal json
    | inr message => Throw (Error (js "Cannot parse " ++ path ++ js ": " ++ message))
    end.
Proof.
  intros H. unfold readJsonInTree.
  assert (Tree_exists P t path = true) as -> by (apply Tree_exists_read; eauto).
  by rewrite H.
Qed.

Lemma parse_message_inj (a b c m m' : list N) :
  @Throw value (Error (a ++ b ++ c ++ m)) = Throw (Error (a ++ b ++ c ++ m')) -> m = m'.
Proof. intros [= H]. by do 3 apply app_inv_head in H. Qed.

(** C6: readJsonInTree throws "Cannot find <path>" exactly when the path
    does not exist in the tree; when it exists, the text of its buffer,
    stripped of comments, is parsed: the call returns the document when the
    parser returns one, and throws "Cannot parse <path>: <message>" with the
    message of the parser exactly when the parser fails. *)
Theorem readJsonInTree_spec t path :
  (readJsonInTree P t path = Throw (Error (js "Cannot find " ++ path))
   <-> Tree_exists P t path = false)
  /\ forall buffer, Tree_read P t path = Some buffer ->
       let contents := stripJsonComments P (Buffer_toString P buffer) in
       (forall json, readJsonInTree P t path = Normal json
                     <-> JSON_parse P contents = inl json)
       /\ (forall message,
             readJsonInTree P t path
             = Throw (Error (js "Cannot parse " ++ path ++ js ": " ++ message))
             <-> JSON_parse P contents = inr message).
Proof.
  split.
  - split; [|apply readJsonInTree_missing].
    destruct (Tree_exists P t path) eqn:E; [|done].
    apply Tree_exists_read in E as [buffer Hb].
    rewrite (readJsonInTree_present _ _ _ Hb). by case_match.
  - intros buffer Hb contents. rewrite (readJsonInTree_present _ _ _ Hb).
    fold contents. destruct (JSON_parse P contents) as [json|message]; split.
    + intros json'. split; congruence.
    + intros message'. split; discriminate.
    + intros json'. split; discriminate.
    + intros message'. split; [|congruence].
      intros H. f_equal. by eapply parse_message_inj.
Qed.

Lemma updateJsonInTree_create w path callback :
  Tree_exists P (host w) path = false ->
  updateJsonInTree P path callback w
  = (Normal tt, written P w path (serializeJson (callback (JObj [])))).
Proof.
  intros H. unfold updateJsonInTree, Tree_create, bind, get_host, set_host, written.
  simpl. by repeat (rewrite H; simpl).
Qed.

Lemma updateJsonInTree_overwrite w path callback :
  Tree_exists P (host w) path = true ->
  updateJsonInTree P path callback w
  = match readJsonInTree P (host w) path with
    | Normal json => (Normal tt, written P w path (serializeJson (callback json)))
    | Throw e => (Throw e, w)
    | Unmodelled => (Unmodelled, w)
    end.
Proof.
  intros H. unfold updateJsonInTree, Tree_overwrite, bind, get_host, set_host, lift, written.
  simpl. rewrite H. simpl.
  destruct (readJsonInTree P (host w) path); [|done..].
  simpl. by rewrite H.
Qed.

Lemma written_read w path content :
  Tree_read P (host (written P w path content)) path = Some (Buffer_from P content).
Proof. unfold Tree_read, written. simpl. by rewrite lookup_insert_eq. Qed.

Lemma written_other w path content path' :
  tree_path P path' <> tree_path P path ->
  Tree_read P (host (written P w path content)) path' = Tree_read P (host w) path'.
Proof. intros H. unfold Tree_read, written. simpl. by rewrite lookup_insert_ne. Qed.

(** C2: on a path that does not exist, updateJsonInTree creates the file
    with the serialization of the callback applied to an empty object; on a
    path that exists, it reads the file with readJsonInTree, and either
    overwrites the file with the serialization of the callback applied to
    the document read, or fails as the read failed, leaving the tree as it
    was.  No other file changes, and nothing is sent to the context. *)
Theorem updateJsonInTree_spec path callback w :
  let run := updateJsonInTree P path callback w in
  (Tree_exists P (host w) path = false ->
     run = (Normal tt, written P w path (serializeJson (callback (JObj [])))))
  /\ (forall json,
        Tree_exists P (host w) path = true ->
        readJsonInTree P (host w) path = Normal json ->
        run = (Normal tt, written P w path (serializeJson (callback json))))
  /\ (forall e,
        Tree_exists P (host w) path = true ->
        readJsonInTree P (host w) path = Throw e -> run = (Throw e, w))
  /\ (forall content,
        Tree_read P (host (written P w path content)) path = Some (Buffer_from P content)
        /\ trace (written P w path content) = trace w
        /\ forall path', tree_path P path' <> tree_path P path ->
             Tree_read P (host (written P w path content)) path'
             = Tree_read P (host w) path').
Proof.
  intros run. subst run. split; [apply updateJsonInTree_create|].
  split; [|split].
  - intros json He Hr. by rewrite updateJsonInTree_overwrite, Hr.
  - intros e He Hr. by rewrite updateJsonInTree_overwrite, Hr.
  - intros content. split; [apply written_read|]. split; [done|].
    intros path'. apply written_other.
Qed.

End Store.

(** The two cases at work: .prettierrc.json does not exist and is created;
    package.json exists and is rewritten from the document read. *)
Lemma updateJsonInTree_spec_witness :
  updateJsonInTree sample_platform (js ".prettierrc.json") (fun _ => createPrettierConfig)
    single_workspace
  = (Normal tt, written sample_platform single_workspace (js ".prettierrc.json")
                  (serializeJson createPrettierConfig))
  /\ updateJsonInTree sample_platform (js "package.json") (fun json => json) single_workspace
     = (Normal tt, written sample_platform single_workspace (js "package.json")
                     (serializeJson sample_manifest)).
Proof.
  split.
  - apply (proj1 (updateJsonInTree_spec sample_platform (js ".prettierrc.json")
                    (fun _ => createPrettierConfig) single_workspace)).
    reflexivity.
  - apply (proj1 (proj2 (updateJsonInTree_spec sample_platform (js "package.json")
                           (fun json => json) single_workspace))).
    + reflexivity.
    + vm_compute. reflexivity.
Defined.

(** The three outcomes at work: a missing file, a document, a text the
    parser refuses. *)
Lemma readJsonInTree_spec_witness :
  readJsonInTree sample_platform (host single_workspace) (js "tsconfig.json")
  = Throw (Error (js "Cannot find tsconfig.json"))
  /\ readJsonInTree sample_platform (host single_workspace) (js "angular.json")
     = Normal one_project
  /\ readJsonInTree sample_platform
       (<[js "/broken.json" := sample_encode (js "{")]> (host single_workspace))
       (js "broken.json")
     = Throw (Error (js "Cannot parse broken.json: Unexpected token")).
Proof.
  split; [|split].
  - apply (proj1 (readJsonInTree_spec sample_platform (host single_workspace)
                    (js "tsconfig.json"))).
    reflexivity.
  - destruct (proj2 (readJsonInTree_spec sample_platform (host single_workspace)
                       (js "angular.json"))
                (sample_encode (JSON_stringify one_project 0)) eq_refl) as [Hjson _].
    apply Hjson. vm_compute. reflexivity.
  - assert (Tree_read sample_platform
              (<[js "/broken.json" := sample_encode (js "{")]> (host single_workspace))
              (js "broken.json") = Some (sample_encode (js "{"))) as Hread
      by (vm_compute; reflexivity).
    destruct (proj2 (readJsonInTree_spec sample_platform _ _) _ Hread) as [_ Hmessage].
    apply (Hmessage (js "Unexpected token")). vm_compute. reflexivity.
Defined.

(** ** Project resolution *)

Section Resolution.
Context (P : Platform).
Implicit Types (t : gmap (list N) (list Byte.byte)) (w : World).

Lemma getWorkspacePath_cases t :
  getWorkspacePath P t
  = if Tree_exists P t (js "/workspace.json") then Some (js "/workspace.json")
    else if Tree_exists P t (js "/angular.json") then Some (js "/angular.json")
    else if Tree_exists P t (js "/.angular.json") then Some (js "/.angular.json")
    else None.
Proof.
  unfold getWorkspacePath, possibleFiles.
  rewrite !filter_cons, filter_nil.
  destruct (Tree_exists P t (js "/workspace.json")),
           (Tree_exists P t (js "/angular.json")),
           (Tree_exists P t (js "/.angular.json")); reflexivity.
Qed.

(** C8: the workspace descriptor is the first of /workspace.json,
    /angular.json and /.angular.json that exists in the tree: a candidate is
    chosen exactly when it exists and no earlier candidate does, and none is
    chosen exactly when none exists. *)
Theorem getWorkspacePath_priority t :
  (getWorkspacePath P t = Some (js "/workspace.json")
   <-> Tree_exists P t (js "/workspace.json") = true)
  /\ (getWorkspacePath P t = Some (js "/angular.json")
      <-> Tree_exists P t (js "/workspace.json") = false
          /\ Tree_exists P t (js "/angular.json") = true)
  /\ (getWorkspacePath P t = Some (js "/.angular.json")
      <-> Tree_exists P t (js "/workspace.json") = false
          /\ Tree_exists P t (js "/angular.json") = false
          /\ Tree_exists P t (js "/.angular.json") = true)
  /\ (getWorkspacePath P t = None
      <-> Tree_exists P t (js "/workspace.json") = false
          /\ Tree_exists P t (js "/angular.json") = false
          /\ Tree_exists P t (js "/.angular.json") = false)
  /\ (forall path, getWorkspacePath P t = Some path -> path ∈ possibleFiles).
Proof.
  rewrite getWorkspacePath_cases.
  destruct (Tree_exists P t (js "/workspace.json")),
           (Tree_exists P t (js "/angular.json")),
           (Tree_exists P t (js "/.angular.json")).
  all: repeat split; try done; try (by intros [? ?]); try (by intros (? & ? & ?)).
  all: intros path [= <-]; unfold possibleFiles; set_solver.
Qed.

(** C10: a non-empty project hint is returned as it is, on every tree and
    platform: the descriptor is not read, and the hint is not looked up in
    it.  An empty hint counts as no hint, and without a hint the descriptor
    is read: a failure of that read is the failure of the call. *)
Theorem determineTargetProjectName_hint :
  (forall t c hint,
     determineTargetProjectName P t (Some (c :: hint)) = Normal (Some (c :: hint)))
  /\ (forall t, determineTargetProjectName P t (Some [])
                = determineTargetProjectName P t None)
  /\ (forall t e,
        readJsonInTree P t (path_argument (getWorkspacePath P t)) = Throw e ->
        determineTargetProjectName P t None = Throw e).
Proof.
  split; [done|]. split; [done|].
  intros t e H. unfold determineTargetProjectName. simpl. by rewrite H.
Qed.

Lemma determineTargetProjectName_descriptor t hint workspaceJson projects :
  truthy hint = false ->
  readJsonInTree P t (path_argument (getWorkspacePath P t)) = Normal workspaceJson ->
  get_field (js "projects") workspaceJson = Normal (Some (JObj projects)) ->
  determineTargetProjectName P t hint
  = Normal (match projects with [(name, _)] => Some name | _ => None end).
Proof.
  intros Hhint Hread Hprojects. unfold determineTargetProjectName.
  rewrite Hhint, Hread. cbn [cbind]. rewrite Hprojects. cbn [cbind Object_keys].
  unfold Object_keys_own. by destruct projects as [|[name d] [|[name' d'] projects]].
Qed.

(** C7: without a project hint, a descriptor that lists more than one
    project resolves to no project, and configureLinters throws the error
    that asks for a project name, with the command line to use, leaving the
    tree and the context as they were; a descriptor that lists exactly one
    project resolves to that project. *)
Theorem configureLinters_ambiguous w hint workspaceJson projects :
  truthy hint = false ->
  readJsonInTree P (host w) (path_argument (getWorkspacePath P (host w)))
    = Normal workspaceJson ->
  get_field (js "projects") workspaceJson = Normal (Some (JObj projects)) ->
  ((1 < length projects)%nat ->
     determineTargetProjectName P (host w) hint = Normal None
     /\ configureLinters P hint w = (Throw (Error ambiguous_project_message), w))
  /\ (forall name descriptor,
        projects = [(name, descriptor)] ->
        determineTargetProjectName P (host w) hint = Normal (Some name))
  /\ js "npx ng g angular-brulex-lint:configure-linters {{YOUR_PROJECT_NAME_GOES_HERE}}"
       `suffix_of` ambiguous_project_message.
Proof.
  intros Hhint Hread Hprojects.
  pose proof (determineTargetProjectName_descriptor _ _ _ _ Hhint Hread Hprojects) as Hname.
  split; [|split].
  - intros Hmany.
    assert (determineTargetProjectName P (host w) hint = Normal None) as Hnone.
    { rewrite Hname. destruct projects as [|[name d] [|[name' d'] projects]];
        simpl in Hmany; [lia|lia|done]. }
    split; [done|].
    unfold configureLinters, bind, get_host, lift. simpl. by rewrite Hnone.
  - intros name descriptor ->. by rewrite Hname.
  - exists ([10] ++ js "Error: You must specify a project to add ESLint to because you have multiple projects in your angular.json"
                 ++ [10] ++ js "E.g. ").
    reflexivity.
Qed.

End Resolution.

(** The scenario of the specification: two projects and no hint. *)
Lemma configureLinters_ambiguous_witness :
  determineTargetProjectName sample_platform (host double_workspace) None = Normal None
  /\ configureLinters sample_platform None double_workspace
     = (Throw (Error ambiguous_project_message), double_workspace).
Proof.
  refine (proj1 (configureLinters_ambiguous sample_platform double_workspace None
                   two_projects _ _ _ _) _).
  - reflexivity.
  - vm_compute. reflexivity.
  - reflexivity.
  - simpl. lia.
Defined.

(** Without a hint and without a descriptor, the failed read is the
    failure of the call. *)
Lemma determineTargetProjectName_hint_witness :
  determineTargetProjectName sample_platform ∅ None
  = Throw (Error (js "Cannot find undefined")).
Proof.
  apply (proj2 (proj2 (determineTargetProjectName_hint sample_platform))).
  reflexivity.
Defined.

(** ** Running a rule *)

Section Monad.
Context {A B : Type}.
Implicit Types (w : World).

Lemma bind_Normal (m : M A) (k : A -> M B) w b w' :
  bind m k w = (Normal b, w') ->
  exists a w1, m w = (Normal a, w1) /\ k a w1 = (Normal b, w').
Proof.
  unfold bind. destruct (m w) as [[a| |] w1]; [|done..]. intros H. by exists a, w1.
Qed.

Lemma lift_Normal (c : completion A) w a w' :
  lift c w = (Normal a, w') -> c = Normal a /\ w' = w.
Proof. unfold lift. by intros [= -> ->]. Qed.

End Monad.

Ltac run_rule H :=
  repeat match type of H with
         | bind _ _ _ = (Normal _, _) =>
             let a := fresh "a" in
             let w1 := fresh "w" in
             let H1 := fresh "Hstep" in
             apply bind_Normal in H as (a & w1 & H1 & H);
             first [ apply lift_Normal in H1 as [H1 ->]
                   | injection H1 as <- <-
                   | idtac ]
         end.

(** ** The documents the rules write *)

Section Rules.
Context (P : Platform).
Implicit Types (w : World) (path : list N).

Lemma updateJsonInTree_constant path doc w w' :
  updateJsonInTree P path (fun _ => doc) w = (Normal tt, w') ->
  w' = written P w path (serializeJson doc).
Proof.
  destruct (Tree_exists P (host w) path) eqn:E.
  - rewrite updateJsonInTree_overwrite by done.
    destruct (readJsonInTree P (host w) path); by intros [= <-].
  - rewrite updateJsonInTree_create by done. by intros [= <-].
Qed.

Lemma updateJsonInTree_written path callback w w' :
  updateJsonInTree P path callback w = (Normal tt, w') ->
  exists json, w' = written P w path (serializeJson (callback json)).
Proof.
  destruct (Tree_exists P (host w) path) eqn:E.
  - rewrite updateJsonInTree_overwrite by done.
    destruct (readJsonInTree P (host w) path) as [json| |]; [|done..].
    intros [= <-]. by exists json.
  - rewrite updateJsonInTree_create by done. intros [= <-]. by exists (JObj []).
Qed.


End Rules.



Section ConfigRules.
Context (P : Platform).
Implicit Types (w : World) (path : list N).

(** Each of the three configuration rules, when it returns, has written one
    file through updateJsonInTree and left the other files as they were. *)
Lemma config_rule_written projectName rule w w' :
  rule ∈ [updateESLintConfigForProject P projectName;
          addStylelintConfigForProject P projectName;
          addPrettierConfigForProject P projectName] ->
  rule w = (Normal tt, w') ->
  exists path json,
    host w' = host (written P w path (serializeJson json)).
Proof.
  rewrite !elem_of_cons. intros [->|[->|[->|Hrule]]] Hrun;
    [| | |by apply elem_of_nil in Hrule].
  - unfold updateESLintConfigForProject in Hrun. run_rule Hrun.
    apply updateJsonInTree_written in Hrun as [json ->]. by do 2 eexists.
  - unfold addStylelintConfigForProject in Hrun. run_rule Hrun.
    apply updateJsonInTree_written in Hrun as [json ->]. by do 2 eexists.
  - unfold addPrettierConfigForProject in Hrun. run_rule Hrun.
    apply updateJsonInTree_written in Hrun as [json ->]. by do 2 eexists.
Qed.

End ConfigRules.

Section Written.
Context (P : Platform).
Implicit Types (w : World) (path : list N).

Lemma package_json_rule_written requested message w w' :
  package_json_rule P requested message w = (Normal tt, w') ->
  exists json,
    w' = {| host := host (written P w (js "package.json") (JSON_stringify json 4));
            trace := trace w ++ [Logger_info message] |}.
Proof.
  unfold package_json_rule, bind, get_host, lift, Tree_overwrite, bind, get_host,
    set_host, emit, throw.
  simpl. destruct (Tree_exists P (host w) (js "package.json")) eqn:E; [|done].
  simpl. destruct (Tree_read P (host w) (js "package.json")) as [buffer|]; [|done].
  destruct (JSON_parse P (Buffer_toString P buffer)) as [json|reason]; [|done].
  destruct (addPackageJsonDeps json requested) as [json1| |]; [|done..].
  destruct (get_field (js "devDependencies") json1) as [member| |]; [|done..].
  destruct (sortObjectByKeys_call member) as [sorted| |]; [|done..].
  destruct (assign json1 (js "devDependencies") sorted) as [json2| |]; [|done..].
  rewrite E. simpl. intros [= <-]. by exists json2.
Qed.

(** C3 (as amended): a configuration rule that returns has written one
    file, through updateJsonInTree, whose content is the text JSON.stringify
    produces with a gap of two spaces followed by a line break; a package
    rule that returns has written package.json, whose content is the text
    JSON.stringify produces with a gap of four spaces, with no line break
    after it.  In the text JSON.stringify produces with a gap of [space]
    spaces, every line after the first starts with a whole number of gaps
    and goes on with a code unit that is not a space, and the members of an
    object stand one per line, in the order of its own keys. *)
Theorem written_documents :
  (forall path callback w w',
     updateJsonInTree P path callback w = (Normal tt, w') ->
     exists json,
       host w' = <[tree_path P path := Buffer_from P (JSON_stringify json 2 ++ [10])]> (host w))
  /\ (forall projectName rule w w',
        rule ∈ [updateESLintConfigForProject P projectName;
                addStylelintConfigForProject P projectName;
                addPrettierConfigForProject P projectName] ->
        rule w = (Normal tt, w') ->
        exists path json,
          host w' = <[tree_path P path := Buffer_from P (JSON_stringify json 2 ++ [10])]> (host w))
  /\ (forall rule w w',
        rule ∈ [addPrettierPackages P; addESLintPluginsPackages P; addStylelintPackages P] ->
        rule w = (Normal tt, w') ->
        exists json,
          host w' = <[tree_path P (js "package.json") := Buffer_from P (JSON_stringify json 4)]> (host w))
  /\ (forall json space,
        (0 < space <= 10)%nat -> laid_out space 0 (JSON_stringify json space))
  /\ (forall json, lines (serializeJson json) = lines (JSON_stringify json 2) ++ [[]])
  /\ (forall json space, last (JSON_stringify json space) <> Some 10)
  /\ (forall space indent member members,
        (0 < space <= 10)%nat ->
        let gap := replicate space 32 in
        SerializeJSONProperty gap indent (JObj (member :: members))
        = [123; 10] ++ (indent ++ gap)
            ++ join ([44; 10] ++ indent ++ gap)
                 (map (fun member =>
                         QuoteJSONString member.1 ++ [58; 32]
                           ++ SerializeJSONProperty gap (indent ++ gap) member.2)
                      (member :: members))
            ++ [10] ++ indent ++ [125]).
Proof.
  split; [|split; [|split; [|split; [|split; [|split]]]]].
  - intros path callback w w' Hrun.
    apply updateJsonInTree_written in Hrun as [json ->]. by exists (callback json).
  - intros projectName rule w w' Hrule Hrun.
    destruct (config_rule_written P projectName rule w w' Hrule Hrun)
      as (path & json & ->). by exists path, json.
  - intros rule w w' Hrule Hrun.
    assert (exists requested message, rule = package_json_rule P requested message)
      as (requested & message & ->).
    { rewrite !elem_of_cons in Hrule.
      destruct Hrule as [->|[->|[->|Hrule]]]; [by do 2 eexists..|].
      by apply elem_of_nil in Hrule. }
    apply package_json_rule_written in Hrun as [json ->]. by exists json.
  - intros json space. apply JSON_stringify_laid_out.
  - apply lines_serializeJson.
  - intros json space. apply SerializeJSONProperty_last.
  - intros space indent member members Hspace gap. subst gap.
    destruct space as [|space]; [lia|]. apply SerializeJSONProperty_object.
Qed.

End Written.

(** The package rules at work: package.json comes out with a gap of four
    spaces. *)
Lemma written_documents_witness :
  exists json,
    host (addPrettierPackages sample_platform single_workspace).2
    = <[tree_path sample_platform (js "package.json")
          := Buffer_from sample_platform (JSON_stringify json 4)]> (host single_workspace).
Proof.
  refine (proj1 (proj2 (proj2 (written_documents sample_platform)))
            (addPrettierPackages sample_platform) single_workspace _ _ _).
  - apply list_elem_of_here.
  - vm_compute. reflexivity.
Defined.

(** C3, as stated, fails for package.json: after addPrettierPackages the
    manifest is the text JSON.stringify produces with a gap of four spaces,
    its first member is indented by four spaces, and it is not the text
    serializeJson gives for any document, whose last byte is a line break. *)
Lemma package_json_not_serializeJson :
  let w' := (addPrettierPackages sample_platform single_workspace).2 in
  let merged :=
    JObj [fld "name" (str "demo");
          fld "devDependencies" (JObj [
            fld "a" (str "1.0.0");
            fld "prettier" (str "2.4.1");
            fld "prettier-plugin-organize-attributes" (str "^0.0.4")])] in
  Tree_read sample_platform (host w') (js "package.json")
    = Some (sample_encode (JSON_stringify merged 4))
  /\ take 7 (JSON_stringify merged 4) = [123; 10; 32; 32; 32; 32; 34]
  /\ forall json,
       Tree_read sample_platform (host w') (js "package.json")
       <> Some (sample_encode (serializeJson json)).
Proof.
  intros w' merged. split; [vm_compute; reflexivity|]. split; [reflexivity|].
  intros json H.
  assert (last (sample_encode (serializeJson json)) = Some Byte.x0a) as Hlast.
  { unfold serializeJson, sample_encode. rewrite map_app. apply last_snoc. }
  apply (f_equal (fun o => o ≫= last)) in H. simpl in H. rewrite Hlast in H.
  vm_compute in H. discriminate.
Qed.

(** * Further properties *)

(** ** The merge in closed form *)

Section MergeClosedForm.
Implicit Types (ps sec : list (list N * value)) (k : list N)
  (entries : list (list N * list N)) (s : section_name) (r : deps_options).

Lemma addDeps_merge_section r s ps :
  manifest ps -> addDeps r s (JObj ps) = Normal (JObj (merge_section r s ps)).
Proof.
  intros Hm. unfold addDeps, merge_section, section_before.
  destruct (options_get r s) as [entries|]; [|done].
  unfold in_section. cbn [cbind]. destruct (has_own (section_key s) ps) eqn:Hhas.
  - cbn [cbind]. specialize (Hm s).
    apply has_own_true, own_get_is_Some in Hhas as [v Hv]. rewrite Hv in Hm |- *.
    destruct v as [| | | | |sec]; try done.
    by rewrite (forEach_entry_object _ _ _ _ Hv).
  - pose proof Hhas as Hnone. apply has_own_false, own_get_None in Hnone.
    rewrite Hnone. unfold assign. rewrite Hhas.
    rewrite decide_False by apply section_key_not_proto. cbn [cbind].
    apply forEach_entry_object. rewrite own_get_define_own. by rewrite decide_True.
Qed.

Lemma own_get_merge_section_other r s ps k :
  k <> section_key s -> own_get k (merge_section r s ps) = own_get k ps.
Proof.
  intros Hk. unfold merge_section. destruct (options_get r s) as [entries|]; [|done].
  destruct (has_own (section_key s) ps) eqn:Hhas.
  - rewrite own_get_replace_own by (by apply has_own_true). by rewrite decide_False.
  - rewrite own_get_replace_own, decide_False by (done || apply keys_define_own; by left).
    rewrite own_get_define_own. by rewrite decide_False.
Qed.

Lemma own_get_merge_section r s ps entries :
  options_get r s = Some entries ->
  own_get (section_key s) (merge_section r s ps)
  = Some (JObj (fold_left set_version entries (section_before s ps))).
Proof.
  intros Hr. unfold merge_section. rewrite Hr.
  rewrite own_get_replace_own, decide_True; [done..|].
  destruct (has_own (section_key s) ps) eqn:Hhas; [by apply has_own_true|].
  apply keys_define_own. by left.
Qed.

Lemma manifest_merge_section r s ps : manifest ps -> manifest (merge_section r s ps).
Proof.
  intros Hm s'. destruct (decide (s' = s)) as [->|Hne].
  - destruct (options_get r s) as [entries|] eqn:Hr.
    + by rewrite (own_get_merge_section _ _ _ _ Hr).
    + unfold merge_section. rewrite Hr. apply Hm.
  - rewrite own_get_merge_section_other; [apply Hm|]. by intros ?%section_key_inj.
Qed.

Lemma addPackageJsonDeps_closed_form r ps :
  manifest ps ->
  addPackageJsonDeps (JObj ps) r
  = Normal (JObj (merge_section r devDependencies (merge_section r dependencies ps))).
Proof.
  intros Hm. unfold addPackageJsonDeps. cbn [typeof].
  rewrite addDeps_merge_section by done. cbn [cbind].
  apply addDeps_merge_section. by apply manifest_merge_section.
Qed.

(** *** The order of the members *)

Lemma section_key_not_index s : array_index (section_key s) = None.
Proof. by destruct s. Qed.

Lemma keys_define_own_new k v ps :
  k ∉ ps.*1 -> array_index k = None -> (define_own k v ps).*1 = ps.*1 ++ [k].
Proof.
  intros Hk Hi. unfold define_own.
  apply has_own_false in Hk as ->. rewrite Hi. by rewrite fmap_app.
Qed.

Lemma keys_merge_section r s ps :
  (merge_section r s ps).*1 = ps.*1 ++ created r s ps.
Proof.
  unfold merge_section, created. destruct (options_get r s); [|by rewrite app_nil_r].
  rewrite keys_replace_own. destruct (has_own (section_key s) ps) eqn:Hhas.
  - by rewrite app_nil_r.
  - apply keys_define_own_new; [by apply has_own_false|apply section_key_not_index].
Qed.

Lemma has_own_merge_section_other r s s' ps :
  s' <> s -> has_own (section_key s') (merge_section r s ps) = has_own (section_key s') ps.
Proof.
  intros Hne. unfold has_own. rewrite own_get_merge_section_other; [done|].
  by intros ?%section_key_inj.
Qed.

End MergeClosedForm.

Section MergeInvariants.
Implicit Types (ps sec : list (list N * value)) (k : list N)
  (entries : list (list N * list N)) (s : section_name) (r : deps_options).

Lemma sublist_insert_index n k v ps : ps.*1 `sublist_of` (insert_index n k v ps).*1.
Proof.
  induction ps as [|[k' v'] ps IH]; simpl; [apply sublist_nil_l|].
  destruct (array_index k'); [destruct (_ <? _)|]; simpl.
  - by apply sublist_skip.
  - by apply sublist_cons.
  - by apply sublist_cons.
Qed.

Lemma sublist_define_own k v ps : ps.*1 `sublist_of` (define_own k v ps).*1.
Proof.
  unfold define_own. destruct (has_own k ps).
  - by rewrite keys_replace_own.
  - destruct (array_index k); [apply sublist_insert_index|].
    rewrite fmap_app. by apply sublist_inserts_r.
Qed.

Lemma NoDup_define_own k v ps : NoDup ps.*1 -> NoDup (define_own k v ps).*1.
Proof.
  intros Hnd. unfold define_own. destruct (has_own k ps) eqn:Hhas.
  - by rewrite keys_replace_own.
  - apply has_own_false in Hhas. destruct (array_index k).
    + rewrite keys_insert_index. by constructor.
    + rewrite fmap_app. apply NoDup_app. split; [done|]. split; [|apply NoDup_singleton].
      intros x Hx ->%list_elem_of_singleton. done.
Qed.

Lemma sublist_set_version sec entry : sec.*1 `sublist_of` (set_version sec entry).*1.
Proof.
  unfold set_version. destruct (has_own entry.1 sec).
  - by rewrite keys_replace_own.
  - case_decide; [done|apply sublist_define_own].
Qed.

Lemma NoDup_set_version sec entry : NoDup sec.*1 -> NoDup (set_version sec entry).*1.
Proof.
  intros Hnd. unfold set_version. destruct (has_own entry.1 sec).
  - by rewrite keys_replace_own.
  - case_decide; [done|by apply NoDup_define_own].
Qed.

Lemma sublist_set_versions entries sec :
  sec.*1 `sublist_of` (fold_left set_version entries sec).*1.
Proof.
  revert sec. induction entries as [|entry entries IH]; intros sec; simpl; [done|].
  etrans; [apply sublist_set_version|apply IH].
Qed.

Lemma NoDup_set_versions entries sec :
  NoDup sec.*1 -> NoDup (fold_left set_version entries sec).*1.
Proof.
  revert sec. induction entries as [|entry entries IH]; intros sec Hnd; simpl; [done|].
  by apply IH, NoDup_set_version.
Qed.

Lemma section_before_merge_section r s ps :
  section_before s (merge_section r s ps)
  = match options_get r s with
    | Some entries => fold_left set_version entries (section_before s ps)
    | None => section_before s ps
    end.
Proof.
  destruct (options_get r s) as [entries|] eqn:Hr.
  - unfold section_before at 1. by rewrite (own_get_merge_section _ _ _ _ Hr).
  - unfold merge_section. by rewrite Hr.
Qed.

Lemma section_before_merge_section_other r s s' ps :
  s' <> s -> section_before s' (merge_section r s ps) = section_before s' ps.
Proof.
  intros Hne. unfold section_before. rewrite own_get_merge_section_other; [done|].
  by intros ?%section_key_inj.
Qed.

Lemma section_before_merged r s ps :
  section_before s (merge_section r devDependencies (merge_section r dependencies ps))
  = match options_get r s with
    | Some entries => fold_left set_version entries (section_before s ps)
    | None => section_before s ps
    end.
Proof.
  destruct s.
  - rewrite section_before_merge_section_other by done.
    apply section_before_merge_section.
  - rewrite section_before_merge_section.
    by rewrite section_before_merge_section_other.
Qed.

End MergeInvariants.

(** X1: the merge keeps the members of the manifest in their order and puts
    a section it creates after them; inside a section, the packages that
    were there keep their relative order; and where the keys were distinct
    they stay distinct. *)
Theorem addPackageJsonDeps_keeps_order (m : list (list N * value)) (r : deps_options) :
  manifest m ->
  exists m',
    addPackageJsonDeps (JObj m) r = Normal (JObj m')
    /\ m'.*1 = m.*1 ++ created r dependencies m ++ created r devDependencies m
    /\ (NoDup m.*1 -> NoDup m'.*1)
    /\ forall s,
         (section_before s m).*1 `sublist_of` (section_before s m').*1
         /\ (NoDup (section_before s m).*1 -> NoDup (section_before s m').*1).
Proof.
  intros Hm. eexists. split; [by apply addPackageJsonDeps_closed_form|].
  assert (created r devDependencies (merge_section r dependencies m)
          = created r devDependencies m) as Hcreated.
  { unfold created. by rewrite has_own_merge_section_other. }
  split; [|split].
  - by rewrite !keys_merge_section, Hcreated, <- app_assoc.
  - intros Hnd. rewrite !keys_merge_section, Hcreated, <- app_assoc.
    apply NoDup_app. split; [done|]. split.
    + intros k Hk Hin. unfold created in Hin.
      rewrite elem_of_app in Hin. destruct Hin as [Hin|Hin];
        destruct (options_get r _); try (by apply elem_of_nil in Hin);
        destruct (has_own _ m) eqn:Hhas; try (by apply elem_of_nil in Hin);
        apply list_elem_of_singleton in Hin as ->; by apply has_own_false in Hhas.
    + unfold created.
      destruct (options_get r dependencies), (options_get r devDependencies),
        (has_own (section_key dependencies) m), (has_own (section_key devDependencies) m);
        simpl; try apply NoDup_nil_2; try apply NoDup_singleton.
      apply NoDup_cons. split; [|apply NoDup_singleton].
      by intros ?%list_elem_of_singleton.
  - intros s. rewrite section_before_merged.
    destruct (options_get r s); [|done].
    split; [apply sublist_set_versions|apply NoDup_set_versions].
Qed.

(** A manifest without devDependencies: the section is created last. *)
Lemma addPackageJsonDeps_keeps_order_witness :
  exists m',
    addPackageJsonDeps (JObj [fld "name" (str "demo"); fld "version" (str "0.0.0")])
                       (devDeps [("prettier", "2.4.1")]%string)
    = Normal (JObj m')
    /\ m'.*1 = [js "name"; js "version"; js "devDependencies"].
Proof.
  destruct (addPackageJsonDeps_keeps_order
              [fld "name" (str "demo"); fld "version" (str "0.0.0")]
              (devDeps [("prettier", "2.4.1")]%string)) as (m' & Hrun & Hkeys & _).
  - intros []; exact I.
  - exists m'. split; [exact Hrun|exact Hkeys].
Defined.

(** ** Merging twice *)

Section MergeTwice.
Implicit Types (ps sec : list (list N * value)) (k : list N)
  (entries : list (list N * list N)) (s : section_name) (r : deps_options).

(** A section that already holds the requested versions is left as it is. *)
Lemma set_versions_fixed entries sec :
  (forall k version, (k, version) ∈ entries ->
     own_get k sec = Some (JStr version) \/ (k = proto_key /\ k ∉ sec.*1)) ->
  fold_left set_version entries sec = sec.
Proof.
  induction entries as [|[k version] entries IH]; intros Hall; simpl; [done|].
  assert (set_version sec (k, version) = sec) as ->.
  { unfold set_version. simpl.
    destruct (Hall k version) as [Hget|[-> Hnot]]; [by left| |].
    - assert (has_own k sec = true) as ->
        by (apply has_own_true, own_get_is_Some; eauto).
      by apply replace_own_same.
    - apply has_own_false in Hnot as ->. by rewrite decide_True. }
  apply IH. intros k' version' Hin. apply Hall. by right.
Qed.

Lemma proto_key_stays_out entries sec :
  proto_key ∉ sec.*1 -> proto_key ∉ (fold_left set_version entries sec).*1.
Proof.
  revert sec. induction entries as [|entry entries IH]; intros sec Hnot; simpl; [done|].
  apply IH. rewrite <- own_get_None, own_get_set_version.
  destruct (decide (entry.1 = proto_key)); [|by apply own_get_None].
  rewrite decide_False; [done|]. by intros [|].
Qed.

Lemma set_versions_settled entries sec k version :
  NoDup entries.*1 -> (k, version) ∈ entries ->
  own_get k (fold_left set_version entries sec) = Some (JStr version)
  \/ (k = proto_key /\ k ∉ (fold_left set_version entries sec).*1).
Proof.
  intros Hnd Hin.
  destruct (decide (k = proto_key)) as [->|Hne];
    [destruct (decide (proto_key ∈ sec.*1)) as [Hp|Hp]|].
  - left. apply own_get_set_versions; auto.
  - right. split; [done|]. by apply proto_key_stays_out.
  - left. apply own_get_set_versions; auto.
Qed.

Lemma set_versions_twice entries sec :
  NoDup entries.*1 ->
  fold_left set_version entries (fold_left set_version entries sec)
  = fold_left set_version entries sec.
Proof.
  intros Hnd. apply set_versions_fixed. intros k version Hin.
  by apply set_versions_settled.
Qed.

(** A manifest whose section is settled is a fixed point of [addDeps]. *)
Lemma merge_section_fixed r s ps sec :
  own_get (section_key s) ps = Some (JObj sec) ->
  (forall entries, options_get r s = Some entries ->
                   fold_left set_version entries sec = sec) ->
  merge_section r s ps = ps.
Proof.
  intros Hsec Hfixed. unfold merge_section.
  destruct (options_get r s) as [entries|]; [|done].
  assert (has_own (section_key s) ps = true) as ->
    by (apply has_own_true, own_get_is_Some; eauto).
  unfold section_before. rewrite Hsec, (Hfixed entries eq_refl).
  by apply replace_own_same.
Qed.

Lemma merge_section_twice r s ps :
  request r -> merge_section r s (merge_section r s ps) = merge_section r s ps.
Proof.
  intros Hr. destruct (options_get r s) as [entries|] eqn:Hs.
  - eapply merge_section_fixed; [by apply own_get_merge_section|].
    intros entries' Hs'. rewrite Hs in Hs'. injection Hs' as <-.
    apply set_versions_twice. by eapply Hr.
  - unfold merge_section. by rewrite Hs.
Qed.

Lemma merged_fixed r ps :
  request r ->
  let merged := merge_section r devDependencies (merge_section r dependencies ps) in
  merge_section r devDependencies (merge_section r dependencies merged) = merged.
Proof.
  intros Hr merged.
  assert (merge_section r dependencies merged = merged) as ->.
  { destruct (options_get r dependencies) as [entries|] eqn:Hs.
    - eapply merge_section_fixed.
      + unfold merged. rewrite own_get_merge_section_other by done.
        by apply own_get_merge_section.
      + intros entries' Hs'. rewrite Hs in Hs'. injection Hs' as <-.
        apply set_versions_twice. by eapply Hr.
    - unfold merge_section at 1. by rewrite Hs. }
  by apply merge_section_twice.
Qed.

End MergeTwice.

(** X2: merging the same request a second time changes nothing: the
    manifest that one merge returns is returned unchanged by the next. *)
Theorem addPackageJsonDeps_idempotent (m m' : list (list N * value)) (r : deps_options) :
  manifest m -> request r ->
  addPackageJsonDeps (JObj m) r = Normal (JObj m') ->
  addPackageJsonDeps (JObj m') r = Normal (JObj m').
Proof.
  intros Hm Hr. rewrite addPackageJsonDeps_closed_form by done. intros [= <-].
  rewrite addPackageJsonDeps_closed_form by (by do 2 apply manifest_merge_section).
  do 2 f_equal. by apply merged_fixed.
Qed.

(** The scenario of the specification, merged and merged again. *)
Lemma addPackageJsonDeps_idempotent_witness :
  addPackageJsonDeps
    (JObj [fld "devDependencies" (JObj [fld "a" (str "1.0.0"); fld "b" (str "2.0.0")])])
    (devDeps [("b", "2.0.0")]%string)
  = Normal
      (JObj [fld "devDependencies" (JObj [fld "a" (str "1.0.0"); fld "b" (str "2.0.0")])]).
Proof.
  apply (addPackageJsonDeps_idempotent
           [fld "devDependencies" (JObj [fld "a" (str "1.0.0")])]).
  - intros []; exact I.
  - intros [] entries; simpl; intros [= <-]. apply NoDup_singleton.
  - reflexivity.
Defined.

(** ** The package rules *)

Section PackageRules.
Context (P : Platform).
Implicit Types (w : World) (m sec : list (list N * value)) (k : list N)
  (entries : list (list N * list N)).

Lemma package_json_rule_closed_form entries message w buffer m :
  Tree_read P (host w) (js "package.json") = Some buffer ->
  JSON_parse P (Buffer_toString P buffer) = inl (JObj m) ->
  manifest m ->
  package_json_rule P (dev_request entries) message w
  = (Normal tt,
     {| host := <[tree_path P (js "package.json")
                    := Buffer_from P (JSON_stringify (JObj (package_json_after entries m)) 4)]>
                  (host w);
        trace := trace w ++ [Logger_info message] |}).
Proof.
  intros Hread Hparse Hm.
  assert (Tree_exists P (host w) (js "package.json") = true) as Hexists
    by (apply Tree_exists_read; eauto).
  unfold package_json_rule, bind, get_host, lift, Tree_overwrite, bind, get_host,
    set_host, emit.
  cbn [host trace]. rewrite Hexists. cbn [negb]. rewrite Hread, Hparse.
  rewrite addPackageJsonDeps_closed_form by done.
  assert (merge_section (dev_request entries) dependencies m = m) as -> by done.
  unfold get_field.
  rewrite (own_get_merge_section _ devDependencies _ entries) by done.
  unfold sortObjectByKeys_call, assign.
  assert (has_own (section_key devDependencies)
            (merge_section (dev_request entries) devDependencies m) = true) as Hhas.
  { apply has_own_true, own_get_is_Some.
    rewrite (own_get_merge_section _ devDependencies _ entries) by done. eauto. }
  change (js "devDependencies") with (section_key devDependencies).
  rewrite Hhas. cbn [host trace]. rewrite Hexists.
  unfold package_json_after, section_before.
  by rewrite (own_get_merge_section _ devDependencies _ entries).
Qed.

Lemma own_get_package_json_after_other entries m k :
  k <> js "devDependencies" ->
  own_get k (package_json_after entries m) = own_get k m.
Proof.
  intros Hk. unfold package_json_after.
  rewrite own_get_replace_own.
  - rewrite decide_False by done. by apply own_get_merge_section_other.
  - apply own_get_is_Some.
    rewrite (own_get_merge_section _ devDependencies _ entries) by done. eauto.
Qed.

Lemma own_get_package_json_after entries m :
  own_get (js "devDependencies") (package_json_after entries m)
  = Some (JObj (sortObjectByKeys
                  (fold_left set_version entries (section_before devDependencies m)))).
Proof.
  unfold package_json_after.
  rewrite own_get_replace_own.
  - rewrite decide_True by done. unfold section_before at 1.
    by rewrite (own_get_merge_section _ devDependencies _ entries).
  - apply own_get_is_Some.
    rewrite (own_get_merge_section _ devDependencies _ entries) by done. eauto.
Qed.

Lemma keys_package_json_after entries m :
  (package_json_after entries m).*1
  = m.*1 ++ (if has_own (js "devDependencies") m then [] else [js "devDependencies"]).
Proof.
  unfold package_json_after. rewrite keys_replace_own.
  by rewrite (keys_merge_section _ devDependencies).
Qed.

End PackageRules.

Section PackageRuleRuns.
Context (P : Platform).
Implicit Types (w : World) (m sec : list (list N * value)) (k : list N)
  (entries : list (list N * list N)).

(** X3: on a package.json that parses to a manifest, a package rule
    returns: it overwrites package.json with the text JSON.stringify gives,
    with a gap of four, for the manifest it has merged, and logs its notice
    once.  In that manifest the members other than devDependencies are as
    they were and the members keep their order, devDependencies coming last
    when it is new; devDependencies is in key order, holds every requested
    package at the requested version, and holds every other package as it
    was. *)
Theorem package_json_rule_manifest entries message w buffer m :
  NoDup entries.*1 ->
  Tree_read P (host w) (js "package.json") = Some buffer ->
  JSON_parse P (Buffer_toString P buffer) = inl (JObj m) ->
  manifest m ->
  let m' := package_json_after entries m in
  let sec := sortObjectByKeys
               (fold_left set_version entries (section_before devDependencies m)) in
  package_json_rule P (dev_request entries) message w
  = (Normal tt,
     {| host := <[tree_path P (js "package.json")
                    := Buffer_from P (JSON_stringify (JObj m') 4)]> (host w);
        trace := trace w ++ [Logger_info message] |})
  /\ m'.*1 = m.*1 ++ (if has_own (js "devDependencies") m then []
                      else [js "devDependencies"])
  /\ (forall k, k <> js "devDependencies" -> own_get k m' = own_get k m)
  /\ own_get (js "devDependencies") m' = Some (JObj sec)
  /\ ordered sec
  /\ (forall k version,
        (k, version) ∈ entries ->
        k <> proto_key \/ k ∈ (section_before devDependencies m).*1 ->
        own_get k sec = Some (JStr version))
  /\ (forall k, k ∉ entries.*1 ->
        own_get k sec = own_get k (section_before devDependencies m)).
Proof.
  intros Hnd Hread Hparse Hm m' sec. subst m' sec.
  split; [by eapply package_json_rule_closed_form|].
  split; [apply keys_package_json_after|].
  split; [apply own_get_package_json_after_other|].
  split; [apply own_get_package_json_after|].
  split; [apply ordered_sortObjectByKeys|].
  split.
  - intros k version Hin Hk. rewrite own_get_sortObjectByKeys.
    by apply own_get_set_versions.
  - intros k Hk. rewrite own_get_sortObjectByKeys.
    by apply own_get_set_versions_other.
Qed.

End PackageRuleRuns.

(** addPrettierPackages on the manifest of the sample workspace: the two
    packages join the one that was there, in key order. *)
Lemma package_json_rule_manifest_witness :
  let entries := [(js "prettier", js "2.4.1");
                  (js "prettier-plugin-organize-attributes", js "^0.0.4")] in
  let m := [fld "name" (str "demo"); fld "devDependencies" (JObj [fld "a" (str "1.0.0")])] in
  addPrettierPackages sample_platform single_workspace
  = (Normal tt,
     {| host := <[js "/package.json"
                    := sample_encode (JSON_stringify (JObj (package_json_after entries m)) 4)]>
                  (host single_workspace);
        trace := [Logger_info
                    (notice "The following prettier packages was added to project "
                       ["prettier"; "prettier-plugin-organize-attributes"]%string)] |})
  /\ own_get (js "devDependencies") (package_json_after entries m)
     = Some (JObj [fld "a" (str "1.0.0"); fld "prettier" (str "2.4.1");
                   fld "prettier-plugin-organize-attributes" (str "^0.0.4")]).
Proof.
  intros entries m.
  pose proof (package_json_rule_manifest sample_platform entries
                (notice "The following prettier packages was added to project "
                   ["prettier"; "prettier-plugin-organize-attributes"]%string)
                single_workspace
                (sample_encode (JSON_stringify sample_manifest 0)) m) as H.
  destruct H as (Hrun & _ & _ & Hsec & _).
  - by_decision.
  - vm_compute. reflexivity.
  - vm_compute. reflexivity.
  - intros []; exact I.
  - split; [exact Hrun|]. rewrite Hsec. vm_compute. reflexivity.
Defined.

Section PackageRuleFailures.
Context (P : Platform).
Implicit Types (w : World) (m sec : list (list N * value)) (k : list N)
  (entries : list (list N * list N)) (r : deps_options).

(** The overwrite is the only step of a package rule that changes the
    tree, and the notice the only one that reaches the context: both come
    after every step that can throw. *)
Lemma package_json_rule_cases r message w :
  (exists json,
     package_json_rule P r message w
     = (Normal tt,
        {| host := <[tree_path P (js "package.json")
                       := Buffer_from P (JSON_stringify json 4)]> (host w);
           trace := trace w ++ [Logger_info message] |}))
  \/ (exists c, c <> Normal tt /\ package_json_rule P r message w = (c, w)).
Proof.
  unfold package_json_rule, bind, get_host, lift, Tree_overwrite, bind, get_host,
    set_host, emit, throw.
  cbn [host trace].
  destruct (Tree_exists P (host w) (js "package.json")) eqn:E; cbn [negb];
    [|right; eexists; (split; [|reflexivity]); done].
  destruct (Tree_read P (host w) (js "package.json")) as [buffer|];
    [|right; eexists; (split; [|reflexivity]); done].
  destruct (JSON_parse P (Buffer_toString P buffer)) as [json|reason];
    [|right; eexists; (split; [|reflexivity]); done].
  destruct (addPackageJsonDeps json r) as [json1| |]; [|right; eexists; (split; [|reflexivity]); done..].
  destruct (get_field (js "devDependencies") json1) as [member| |];
    [|right; eexists; (split; [|reflexivity]); done..].
  destruct (sortObjectByKeys_call member) as [sorted| |]; [|right; eexists; (split; [|reflexivity]); done..].
  destruct (assign json1 (js "devDependencies") sorted) as [json2| |];
    [|right; eexists; (split; [|reflexivity]); done..].
  cbn [host trace]. rewrite E. left. by exists json2.
Qed.

Lemma forEach_entry_primitive s entry entries ps v :
  own_get (section_key s) ps = Some v ->
  v = JNull \/ (exists b, v = JBool b) \/ (exists n, v = JNum n) \/ (exists t, v = JStr t) ->
  forEach_entry s (entry :: entries) (JObj ps) = Throw TypeError.
Proof.
  intros Hv Hprim. destruct entry as [packageToAdd version].
  cbn [forEach_entry assign_in_section]. rewrite Hv.
  by destruct Hprim as [->|[[b ->]|[[n ->]|[t ->]]]].
Qed.

(** X4: how a package rule fails, and that it fails before it has changed
    anything.  Without package.json it throws the error that names the
    missing file.  The text of package.json goes to JSON.parse as it is,
    comments included, and the SyntaxError of the parser is thrown as it
    is.  A document that is null, a boolean, a number or a string ends in a
    TypeError, and so does a manifest whose devDependencies member is one of
    these.  Whatever the outcome, unless the rule returns, the tree and the
    context are as they were. *)
Theorem package_json_rule_failures r message w :
  (Tree_exists P (host w) (js "package.json") = false ->
     package_json_rule P r message w = (Throw (Error no_manifest_message), w))
  /\ (forall buffer reason,
        Tree_read P (host w) (js "package.json") = Some buffer ->
        JSON_parse P (Buffer_toString P buffer) = inr reason ->
        package_json_rule P r message w = (Throw (SyntaxError reason), w))
  /\ (forall buffer json,
        Tree_read P (host w) (js "package.json") = Some buffer ->
        JSON_parse P (Buffer_toString P buffer) = inl json ->
        typeof json <> t_object \/ json = JNull ->
        package_json_rule P r message w = (Throw TypeError, w))
  /\ (forall buffer m v entry entries,
        Tree_read P (host w) (js "package.json") = Some buffer ->
        JSON_parse P (Buffer_toString P buffer) = inl (JObj m) ->
        own_get (js "devDependencies") m = Some v ->
        typeof v <> t_object \/ v = JNull ->
        r = dev_request (entry :: entries) ->
        package_json_rule P r message w = (Throw TypeError, w))
  /\ (forall c w', package_json_rule P r message w = (c, w') -> c <> Normal tt -> w' = w).
Proof.
  split; [|split; [|split; [|split]]].
  - intros E. unfold package_json_rule, bind, get_host, throw. cbn [host].
    by rewrite E.
  - intros buffer reason Hread Hparse.
    assert (Tree_exists P (host w) (js "package.json") = true) as E
      by (apply Tree_exists_read; eauto).
    unfold package_json_rule, bind, get_host, lift. cbn [host].
    by rewrite E, Hread, Hparse.
  - intros buffer json Hread Hparse Hjson.
    assert (Tree_exists P (host w) (js "package.json") = true) as E
      by (apply Tree_exists_read; eauto).
    unfold package_json_rule, bind, get_host, lift. cbn [host].
    rewrite E, Hread, Hparse. cbn [negb].
    destruct json as [| | | | |ps]; try (by destruct Hjson as [Hjson|Hjson]).
    unfold addPackageJsonDeps, addDeps. cbn [typeof].
    destruct (options_get r dependencies), (options_get r devDependencies); done.
  - intros buffer m v entry entries Hread Hparse Hv Hprim ->.
    assert (Tree_exists P (host w) (js "package.json") = true) as E
      by (apply Tree_exists_read; eauto).
    unfold package_json_rule, bind, get_host, lift. cbn [host].
    rewrite E, Hread, Hparse. cbn [negb].
    assert (addPackageJsonDeps (JObj m) (dev_request (entry :: entries)) = Throw TypeError)
      as ->; [|done].
    unfold addPackageJsonDeps, addDeps. cbn [typeof options_get dev_request
      opt_dependencies opt_devDependencies cbind in_section].
    assert (has_own (section_key devDependencies) m = true) as ->
      by (apply has_own_true, own_get_is_Some; eauto).
    cbn [cbind]. apply (forEach_entry_primitive _ _ _ _ v); [done|].
    destruct v; try (by destruct Hprim as [Hprim|Hprim]); eauto.
  - intros c w' Hrun Hc.
    destruct (package_json_rule_cases r message w) as [[json H]|(c' & _ & H)];
      rewrite H in Hrun; by injection Hrun as <- <-.
Qed.

End PackageRuleFailures.

(** Without package.json the rule throws and changes nothing. *)
Lemma package_json_rule_failures_witness :
  addStylelintPackages sample_platform {| host := ∅; trace := [] |}
  = (Throw (Error (js "Could not find a `package.json` file at the root of your workspace")),
     {| host := ∅; trace := [] |}).
Proof.
  refine (proj1 (package_json_rule_failures sample_platform _ _
                   {| host := ∅; trace := [] |}) _).
  reflexivity.
Defined.

Section PackageRuleTwice.
Context (P : Platform).
Implicit Types (w : World) (m sec : list (list N * value)) (k : list N)
  (entries : list (list N * list N)).

Lemma manifest_package_json_after entries m :
  manifest m -> manifest (package_json_after entries m).
Proof.
  intros Hm s. destruct s.
  - rewrite own_get_package_json_after_other by done. apply (Hm dependencies).
  - change (section_key devDependencies) with (js "devDependencies").
    by rewrite own_get_package_json_after.
Qed.

Lemma section_before_package_json_after entries m :
  section_before devDependencies (package_json_after entries m)
  = sortObjectByKeys (fold_left set_version entries (section_before devDependencies m)).
Proof.
  unfold section_before at 1.
  change (section_key devDependencies) with (js "devDependencies").
  by rewrite own_get_package_json_after.
Qed.

Lemma package_json_after_section entries m sec :
  own_get (js "devDependencies") m = Some (JObj sec) ->
  package_json_after entries m
  = replace_own (js "devDependencies")
      (JObj (sortObjectByKeys (fold_left set_version entries sec))) m.
Proof.
  intros Hsec. unfold package_json_after, merge_section.
  cbn [options_get dev_request opt_devDependencies].
  change (section_key devDependencies) with (js "devDependencies").
  assert (has_own (js "devDependencies") m = true) as Hhas
    by (apply has_own_true, own_get_is_Some; eauto).
  rewrite Hhas, replace_own_twice. unfold section_before at 2.
  change (section_key devDependencies) with (js "devDependencies").
  rewrite Hsec. do 3 f_equal. unfold section_before.
  change (section_key devDependencies) with (js "devDependencies").
  rewrite own_get_replace_own by (by apply has_own_true).
  by rewrite decide_True.
Qed.

(** The manifest a package rule has written is a fixed point of the rule. *)
Lemma package_json_after_twice entries m :
  NoDup entries.*1 ->
  package_json_after entries (package_json_after entries m)
  = package_json_after entries m.
Proof.
  intros Hnd.
  rewrite (package_json_after_section entries (package_json_after entries m)
             _ (own_get_package_json_after entries m)).
  apply replace_own_same. rewrite own_get_package_json_after. do 2 f_equal.
  set (sec := fold_left set_version entries (section_before devDependencies m)).
  assert (fold_left set_version entries (sortObjectByKeys sec) = sortObjectByKeys sec)
    as ->; [|symmetry; apply sortObjectByKeys_idempotent].
  apply set_versions_fixed. intros k version Hin.
  destruct (set_versions_settled entries (section_before devDependencies m) k version
              Hnd Hin) as [Hget|[-> Hout]].
  - left. by rewrite own_get_sortObjectByKeys.
  - right. split; [done|]. by rewrite keys_sortObjectByKeys.
Qed.

(** X5: a package rule run a second time rewrites package.json with the
    text it holds.  Where the platform reads back, from the text the first
    run writes, the manifest the first run has merged, the second run
    returns, leaves every file as the first run left it, and logs the notice
    a second time. *)
Theorem package_json_rule_twice entries message w buffer m :
  NoDup entries.*1 ->
  Tree_read P (host w) (js "package.json") = Some buffer ->
  JSON_parse P (Buffer_toString P buffer) = inl (JObj m) ->
  manifest m ->
  (let written := JSON_stringify (JObj (package_json_after entries m)) 4 in
   JSON_parse P (Buffer_toString P (Buffer_from P written))
   = inl (JObj (package_json_after entries m))) ->
  exists w1,
    package_json_rule P (dev_request entries) message w = (Normal tt, w1)
    /\ package_json_rule P (dev_request entries) message w1
       = (Normal tt, {| host := host w1; trace := trace w1 ++ [Logger_info message] |}).
Proof.
  intros Hnd Hread Hparse Hm Hback. eexists.
  split; [by eapply package_json_rule_closed_form|].
  erewrite package_json_rule_closed_form;
    [|unfold Tree_read; cbn [host]; by rewrite lookup_insert_eq
     |exact Hback
     |by apply manifest_package_json_after].
  cbn [host trace]. rewrite package_json_after_twice by done.
  by rewrite insert_insert_eq.
Qed.

End PackageRuleTwice.

(** addPrettierPackages twice on the sample workspace, on a platform whose
    parser knows the manifest before and after. *)
Lemma package_json_rule_twice_witness :
  let P := known_platform
             [sample_manifest;
              JObj [fld "name" (str "demo");
                    fld "devDependencies"
                      (JObj [fld "a" (str "1.0.0"); fld "prettier" (str "2.4.1");
                             fld "prettier-plugin-organize-attributes" (str "^0.0.4")])]] in
  exists w1,
    addPrettierPackages P single_workspace = (Normal tt, w1)
    /\ addPrettierPackages P w1
       = (Normal tt,
          {| host := host w1;
             trace := trace w1
                      ++ [Logger_info
                            (notice "The following prettier packages was added to project "
                               ["prettier"; "prettier-plugin-organize-attributes"]%string)] |}).
Proof.
  intros P.
  refine (package_json_rule_twice P
            [(js "prettier", js "2.4.1");
             (js "prettier-plugin-organize-attributes", js "^0.0.4")]
            _ single_workspace
            (sample_encode (JSON_stringify sample_manifest 0))
            [fld "name" (str "demo"); fld "devDependencies" (JObj [fld "a" (str "1.0.0")])]
            _ _ _ _ _).
  - by_decision.
  - vm_compute. reflexivity.
  - vm_compute. reflexivity.
  - intros []; exact I.
  - vm_compute. reflexivity.
Defined.

(** ** The configuration rules *)

Section ConfigRuleRuns.
Context (P : Platform).
Implicit Types (w : World) (path projectName : list N)
  (projects descriptor : list (list N * value)).

Lemma updateJsonInTree_cases path callback w :
  (exists json,
     updateJsonInTree P path callback w
     = (Normal tt, written P w path (serializeJson (callback json))))
  \/ (exists c, c <> Normal tt /\ updateJsonInTree P path callback w = (c, w)).
Proof.
  destruct (Tree_exists P (host w) path) eqn:E.
  - rewrite updateJsonInTree_overwrite by done.
    destruct (readJsonInTree P (host w) path) as [json| |];
      [left; by exists json|right; eexists; (split; [|reflexivity]); done..].
  - rewrite updateJsonInTree_create by done. left. by exists (JObj []).
Qed.

Lemma updateJsonInTree_host path callback w c w' :
  updateJsonInTree P path callback w = (c, w') -> c <> Normal tt -> w' = w.
Proof.
  intros Hrun Hc.
  destruct (updateJsonInTree_cases path callback w) as [[json H]|(c' & _ & H)];
    rewrite H in Hrun; by injection Hrun as <- <-.
Qed.

(** X6: for a project the descriptor declares, the style-linter and the
    formatter rules write their configuration into the root directory of the
    project, where the linter rule writes into the root of the workspace:
    each is the update, with a callback that ignores what it is given, of
    .stylelintrc.json and of .prettierrc.json joined to the root the project
    declares.  The formatter rule has sent the name and the projects to the
    console before.  When the rule returns, the file holds the configuration
    and no other file has changed. *)
Theorem config_rules_project_root projectName w angularJSON projects descriptor :
  readJsonInTree P (host w) (js "angular.json") = Normal angularJSON ->
  get_field (js "projects") angularJSON = Normal (Some (JObj projects)) ->
  own_get projectName projects = Some (JObj descriptor) ->
  let root := own_get (js "root") descriptor in
  let logged := {| host := host w;
                   trace := trace w ++ [Console_log projectName (Some (JObj projects))] |} in
  (forall path,
     join_normalize P root (js ".stylelintrc.json") = Normal path ->
     addStylelintConfigForProject P projectName w
     = updateJsonInTree P path (fun _ => createProjectStylelintConfig) w
     /\ forall w', addStylelintConfigForProject P projectName w = (Normal tt, w') ->
          w' = written P w path (serializeJson createProjectStylelintConfig))
  /\ (forall path,
        join_normalize P root (js ".prettierrc.json") = Normal path ->
        addPrettierConfigForProject P projectName w
        = updateJsonInTree P path (fun _ => createPrettierConfig) logged
        /\ forall w', addPrettierConfigForProject P projectName w = (Normal tt, w') ->
             w' = written P logged path (serializeJson createPrettierConfig))
  /\ (forall e name,
        join_normalize P root name = Throw e ->
        (name = js ".stylelintrc.json" ->
         addStylelintConfigForProject P projectName w = (Throw e, w))
        /\ (name = js ".prettierrc.json" ->
            addPrettierConfigForProject P projectName w = (Throw e, logged))).
Proof.
  intros Hread Hprojects Hdescriptor root logged.
  split; [|split].
  - intros path Hpath.
    assert (addStylelintConfigForProject P projectName w
            = updateJsonInTree P path (fun _ => createProjectStylelintConfig) w) as Hrun.
    { unfold addStylelintConfigForProject, bind, get_host, lift.
      rewrite Hread, Hprojects. unfold index, get_dynamic. rewrite Hdescriptor.
      cbn [destructure get_field]. fold root. by rewrite Hpath. }
    split; [done|]. intros w' Hw'. rewrite Hrun in Hw'.
    by apply updateJsonInTree_constant in Hw'.
  - intros path Hpath.
    assert (addPrettierConfigForProject P projectName w
            = updateJsonInTree P path (fun _ => createPrettierConfig) logged) as Hrun.
    { unfold addPrettierConfigForProject, bind, get_host, lift, emit.
      rewrite Hread, Hprojects. unfold index, get_dynamic. rewrite Hdescriptor.
      cbn [destructure get_field]. fold root. by rewrite Hpath. }
    split; [done|]. intros w' Hw'. rewrite Hrun in Hw'.
    by apply updateJsonInTree_constant in Hw'.
  - intros e name Hname. split; intros ->.
    + unfold addStylelintConfigForProject, bind, get_host, lift.
      rewrite Hread, Hprojects. unfold index, get_dynamic. rewrite Hdescriptor.
      cbn [destructure get_field]. fold root. by rewrite Hname.
    + unfold addPrettierConfigForProject, bind, get_host, lift, emit.
      rewrite Hread, Hprojects. unfold index, get_dynamic. rewrite Hdescriptor.
      cbn [destructure get_field]. fold root. by rewrite Hname.
Qed.

(** X7: how the configuration rules fail.  Without angular.json each of
    them throws the error of the failed read.  For a project the descriptor
    does not declare, reading a member of the missing entry is a TypeError:
    the linter and the style-linter rules throw it with the world as it was,
    the formatter rule after it has written to the console.  Whatever the
    outcome, unless the rule returns, no file has changed. *)
Theorem config_rules_failures projectName w :
  (Tree_exists P (host w) (js "angular.json") = false ->
     forall rule,
       rule ∈ [updateESLintConfigForProject P projectName;
               addStylelintConfigForProject P projectName;
               addPrettierConfigForProject P projectName] ->
       rule w = (Throw (Error (js "Cannot find angular.json")), w))
  /\ (forall angularJSON projects,
        readJsonInTree P (host w) (js "angular.json") = Normal angularJSON ->
        get_field (js "projects") angularJSON = Normal (Some (JObj projects)) ->
        own_get projectName projects = None ->
        projectName ∉ Object_prototype_names ->
        updateESLintConfigForProject P projectName w = (Throw TypeError, w)
        /\ addStylelintConfigForProject P projectName w = (Throw TypeError, w)
        /\ addPrettierConfigForProject P projectName w
           = (Throw TypeError,
              {| host := host w;
                 trace := trace w ++ [Console_log projectName (Some (JObj projects))] |}))
  /\ (forall rule c w',
        rule ∈ [updateESLintConfigForProject P projectName;
                addStylelintConfigForProject P projectName;
                addPrettierConfigForProject P projectName] ->
        rule w = (c, w') -> c <> Normal tt -> host w' = host w).
Proof.
  split; [|split].
  - intros E rule Hrule.
    pose proof (readJsonInTree_missing P _ _ E) as Hread.
    rewrite !elem_of_cons in Hrule.
    destruct Hrule as [->|[->|[->|Hrule]]]; [| | |by apply elem_of_nil in Hrule].
    + unfold updateESLintConfigForProject, bind, get_host, lift. by rewrite Hread.
    + unfold addStylelintConfigForProject, bind, get_host, lift. by rewrite Hread.
    + unfold addPrettierConfigForProject, bind, get_host, lift. by rewrite Hread.
  - intros angularJSON projects Hread Hprojects Hnone Hname.
    assert (index (Some (JObj projects)) projectName = Normal None) as Hindex.
    { unfold index, get_dynamic. rewrite Hnone. by rewrite bool_decide_eq_false_2. }
    split; [|split].
    + unfold updateESLintConfigForProject, bind, get_host, lift.
      by rewrite Hread, Hprojects, Hindex.
    + unfold addStylelintConfigForProject, bind, get_host, lift.
      by rewrite Hread, Hprojects, Hindex.
    + unfold addPrettierConfigForProject, bind, get_host, lift, emit.
      by rewrite Hread, Hprojects, Hindex.
  - intros rule c w' Hrule Hrun Hc.
    rewrite !elem_of_cons in Hrule.
    destruct Hrule as [->|[->|[->|Hrule]]]; [| | |by apply elem_of_nil in Hrule].
    + unfold updateESLintConfigForProject, bind, get_host, lift in Hrun.
      destruct (readJsonInTree P (host w) (js "angular.json")) as [angularJSON| |];
        [|by injection Hrun as <- <-..].
      destruct (get_field (js "projects") angularJSON) as [projects| |];
        [|by injection Hrun as <- <-..].
      destruct (index projects projectName) as [descriptor| |];
        [|by injection Hrun as <- <-..].
      destruct (destructure (js "prefix") descriptor) as [declared| |];
        [|by injection Hrun as <- <-..].
      by rewrite (updateJsonInTree_host _ _ _ _ _ Hrun Hc).
    + unfold addStylelintConfigForProject, bind, get_host, lift in Hrun.
      destruct (readJsonInTree P (host w) (js "angular.json")) as [angularJSON| |];
        [|by injection Hrun as <- <-..].
      destruct (get_field (js "projects") angularJSON) as [projects| |];
        [|by injection Hrun as <- <-..].
      destruct (index projects projectName) as [descriptor| |];
        [|by injection Hrun as <- <-..].
      destruct (destructure (js "root") descriptor) as [projectRoot| |];
        [|by injection Hrun as <- <-..].
      destruct (join_normalize P projectRoot (js ".stylelintrc.json")) as [path| |];
        [|by injection Hrun as <- <-..].
      by rewrite (updateJsonInTree_host _ _ _ _ _ Hrun Hc).
    + unfold addPrettierConfigForProject, bind, get_host, lift, emit in Hrun.
      destruct (readJsonInTree P (host w) (js "angular.json")) as [angularJSON| |];
        [|by injection Hrun as <- <-..].
      destruct (get_field (js "projects") angularJSON) as [projects| |];
        [|by injection Hrun as <- <-..].
      destruct (index projects projectName) as [descriptor| |];
        [|by injection Hrun as <- <-..].
      destruct (destructure (js "root") descriptor) as [projectRoot| |];
        [|by injection Hrun as <- <-..].
      destruct (join_normalize P projectRoot (js ".prettierrc.json")) as [path| |];
        [|by injection Hrun as <- <-..].
      by rewrite (updateJsonInTree_host _ _ _ _ _ Hrun Hc).
Qed.

End ConfigRuleRuns.

(** The project "web" of the sample workspace has the root apps/web. *)
Lemma config_rules_project_root_witness :
  addStylelintConfigForProject sample_platform (js "web") single_workspace
  = updateJsonInTree sample_platform (js "apps/web/.stylelintrc.json")
      (fun _ => createProjectStylelintConfig) single_workspace.
Proof.
  refine (proj1 (proj1 (config_rules_project_root sample_platform (js "web")
                          single_workspace one_project
                          [fld "web" (JObj [fld "root" (str "apps/web")])]
                          [fld "root" (str "apps/web")] _ _ _)
                   (js "apps/web/.stylelintrc.json") _)).
  - vm_compute. reflexivity.
  - reflexivity.
  - reflexivity.
  - reflexivity.
Defined.

(** The sample workspace declares no project "docs": the formatter rule
    throws after its line on the console. *)
Lemma config_rules_failures_witness :
  addPrettierConfigForProject sample_platform (js "docs") single_workspace
  = (Throw TypeError,
     {| host := host single_workspace;
        trace := [Console_log (js "docs")
                    (Some (JObj [fld "web" (JObj [fld "root" (str "apps/web")])]))] |}).
Proof.
  refine (proj2 (proj2 (proj1 (proj2 (config_rules_failures sample_platform (js "docs")
                                        single_workspace))
                          one_project [fld "web" (JObj [fld "root" (str "apps/web")])]
                          _ _ _ _))).
  - vm_compute. reflexivity.
  - reflexivity.
  - reflexivity.
  - by_decision.
Defined.

(** ** Resolving the project *)

Section Unresolved.
Context (P : Platform).
Implicit Types (w : World) (hint : option (list N)).

Lemma configureLinters_throws w hint e :
  determineTargetProjectName P (host w) hint = Throw e ->
  configureLinters P hint w = (Throw e, w).
Proof. intros H. unfold configureLinters, bind, get_host, lift. by rewrite H. Qed.

Lemma configureLinters_no_project w hint name :
  determineTargetProjectName P (host w) hint = Normal name ->
  name = None \/ name = Some [] ->
  configureLinters P hint w = (Throw (Error ambiguous_project_message), w).
Proof.
  intros H Hname. unfold configureLinters, bind, get_host, lift. rewrite H.
  by destruct Hname as [->| ->].
Qed.

(** X8: without a project hint, a descriptor that declares no project at
    all, or one project under the empty name, ends in the same error as a
    descriptor with several projects, although the message speaks of
    multiple projects; a descriptor that is null, that has no projects
    member, or whose projects member is null, ends in a TypeError.  In each
    case configureLinters throws before any rule has run: the tree and the
    context are as they were. *)
Theorem configureLinters_unresolved w hint workspaceJson :
  truthy hint = false ->
  readJsonInTree P (host w) (path_argument (getWorkspacePath P (host w)))
    = Normal workspaceJson ->
  (forall projects,
     get_field (js "projects") workspaceJson = Normal (Some (JObj projects)) ->
     projects = [] \/ (exists descriptor, projects = [([], descriptor)]) ->
     configureLinters P hint w = (Throw (Error ambiguous_project_message), w))
  /\ (workspaceJson = JNull
      \/ get_field (js "projects") workspaceJson = Normal None
      \/ get_field (js "projects") workspaceJson = Normal (Some JNull) ->
      determineTargetProjectName P (host w) hint = Throw TypeError
      /\ configureLinters P hint w = (Throw TypeError, w)).
Proof.
  intros Hhint Hread. split.
  - intros projects Hprojects Hcases.
    pose proof (determineTargetProjectName_descriptor P _ _ _ _ Hhint Hread Hprojects)
      as Hname.
    eapply configureLinters_no_project; [exact Hname|].
    destruct Hcases as [->|[descriptor ->]]; [by left|by right].
  - intros Hcases.
    assert (determineTargetProjectName P (host w) hint = Throw TypeError) as Hname.
    { unfold determineTargetProjectName. rewrite Hhint, Hread. cbn [cbind].
      destruct Hcases as [->|[->| ->]]; reflexivity. }
    split; [done|]. by apply configureLinters_throws.
Qed.

End Unresolved.

(** A workspace whose descriptor declares no project. *)
Lemma configureLinters_unresolved_witness :
  let P := known_platform [JObj [fld "projects" (JObj [])]] in
  let w := {| host := list_to_map [sample_file "/angular.json"
                                     (JObj [fld "projects" (JObj [])])];
              trace := [] |} in
  configureLinters P None w = (Throw (Error ambiguous_project_message), w).
Proof.
  intros P w.
  refine (proj1 (configureLinters_unresolved P w None (JObj [fld "projects" (JObj [])])
                   _ _) [] _ _).
  - reflexivity.
  - vm_compute. reflexivity.
  - reflexivity.
  - by left.
Defined.

(** ** Updating a document twice *)

Section UpdateTwice.
Context (P : Platform).
Implicit Types (w : World) (path : list N) (f g : value -> value).

Lemma Tree_exists_written w path content :
  Tree_exists P (host (written P w path content)) path = true.
Proof. apply Tree_exists_read. eexists. apply written_read. Qed.

Lemma written_written w path content content' :
  written P (written P w path content) path content' = written P w path content'.
Proof. unfold written. cbn [host trace]. by rewrite insert_insert_eq. Qed.

(** X9: two updates of one path are the update by the composed callbacks,
    where the platform reads back the document the first update writes: the
    second update reads, through readJsonInTree, what the first has
    serialized.  So a rule whose callback ignores its argument, as all the
    configuration rules of the program do, leaves the file as it is when it
    runs again. *)
Theorem updateJsonInTree_twice path f g w :
  (forall json,
     JSON_parse P (stripJsonComments P
                     (Buffer_toString P (Buffer_from P (serializeJson (f json)))))
     = inl (f json)) ->
  bind (updateJsonInTree P path f) (fun _ => updateJsonInTree P path g) w
  = updateJsonInTree P path (fun json => g (f json)) w
  /\ (forall doc w1,
        f = (fun _ => doc) ->
        updateJsonInTree P path f w = (Normal tt, w1) ->
        updateJsonInTree P path f w1 = (Normal tt, w1)).
Proof.
  intros Hback.
  assert (forall w0 json,
            updateJsonInTree P path g (written P w0 path (serializeJson (f json)))
            = (Normal tt, written P w0 path (serializeJson (g (f json))))) as Hsecond.
  { intros w0 json.
    rewrite updateJsonInTree_overwrite by apply Tree_exists_written.
    erewrite readJsonInTree_present by apply written_read.
    by rewrite Hback, written_written. }
  split.
  - unfold bind at 1. destruct (Tree_exists P (host w) path) eqn:E.
    + rewrite (updateJsonInTree_overwrite P w path f),
        (updateJsonInTree_overwrite P w path (fun json => g (f json))) by done.
      destruct (readJsonInTree P (host w) path) as [json| |]; [|done..].
      apply Hsecond.
    + rewrite (updateJsonInTree_create P w path f),
        (updateJsonInTree_create P w path (fun json => g (f json))) by done.
      apply Hsecond.
  - intros doc w1 -> Hrun. apply updateJsonInTree_constant in Hrun as ->.
    rewrite updateJsonInTree_overwrite by apply Tree_exists_written.
    erewrite readJsonInTree_present by apply written_read.
    specialize (Hback JNull). cbn beta in Hback. by rewrite Hback, written_written.
Qed.

End UpdateTwice.

(** The formatter configuration, written and written again, on a platform
    whose parser knows it. *)
Lemma updateJsonInTree_twice_witness :
  let P := known_platform [createPrettierConfig] in
  let update := updateJsonInTree P (js ".prettierrc.json") (fun _ => createPrettierConfig) in
  bind update (fun _ => update) single_workspace = update single_workspace.
Proof.
  intros P update.
  refine (proj1 (updateJsonInTree_twice P (js ".prettierrc.json")
                   (fun _ => createPrettierConfig) (fun _ => createPrettierConfig)
                   single_workspace _)).
  intros json. vm_compute. reflexivity.
Defined.

(** ** The rules in a chain *)

Section Pipeline.
Context (P : Platform).
Implicit Types (w : World) (t : gmap (list N) (list Byte.byte)) (path projectName : list N)
  (m sec projects descriptor : list (list N * value)) (k : list N)
  (entries : list (list N * list N)).

Lemma addPrettierPackages_request :
  addPrettierPackages P = package_json_rule P (dev_request prettier_packages) prettier_notice.
Proof. reflexivity. Qed.

Lemma addESLintPluginsPackages_request :
  addESLintPluginsPackages P
  = package_json_rule P (dev_request eslint_packages) eslint_notice.
Proof. reflexivity. Qed.

Lemma addStylelintPackages_request :
  addStylelintPackages P
  = package_json_rule P (dev_request stylelint_packages) stylelint_notice.
Proof. reflexivity. Qed.

Lemma configureLinters_chain c name w :
  configureLinters P (Some (c :: name)) w
  = chain [externalSchematic P (js "@angular-eslint/schematics")
             (js "add-eslint-to-project") (c :: name);
           addPrettierPackages P;
           addPrettierConfigForProject P (c :: name);
           addESLintPluginsPackages P;
           updateESLintConfigForProject P (c :: name);
           addStylelintPackages P;
           addStylelintConfigForProject P (c :: name);
           addPackageInstallTask] w.
Proof. reflexivity. Qed.

Lemma bind_run {A B} (r : M A) (k : A -> M B) w a w1 :
  r w = (Normal a, w1) -> bind r k w = k a w1.
Proof. intros H. unfold bind. by rewrite H. Qed.

(** *** What a rule reads of the tree *)

Lemma readJsonInTree_ext t t' path :
  Tree_read P t path = Tree_read P t' path ->
  readJsonInTree P t path = readJsonInTree P t' path.
Proof.
  intros H. unfold readJsonInTree, Tree_exists.
  unfold Tree_read in H |- *. by rewrite H.
Qed.

Lemma updatable_ext t t' path :
  Tree_read P t path = Tree_read P t' path -> updatable P t path -> updatable P t' path.
Proof.
  intros H Hu. unfold updatable. rewrite <- (readJsonInTree_ext t t' path H).
  unfold Tree_exists in *. unfold Tree_read in H. by rewrite <- H.
Qed.

Lemma updateJsonInTree_updatable path doc w :
  updatable P (host w) path ->
  updateJsonInTree P path (fun _ => doc) w
  = (Normal tt, written P w path (serializeJson doc)).
Proof.
  intros Hu. destruct (Tree_exists P (host w) path) eqn:E.
  - rewrite updateJsonInTree_overwrite by done.
    by destruct (Hu E) as [json ->].
  - by rewrite updateJsonInTree_create.
Qed.

(** *** The three configuration rules on a declared project *)

Lemma updateESLintConfigForProject_run projectName w angularJSON projects descriptor :
  readJsonInTree P (host w) (js "angular.json") = Normal angularJSON ->
  get_field (js "projects") angularJSON = Normal (Some (JObj projects)) ->
  own_get projectName projects = Some (JObj descriptor) ->
  updateESLintConfigForProject P projectName w
  = updateJsonInTree P (js ".eslintrc.json")
      (fun _ => createProjectESLintConfig
                  (default (str "app") (own_get (js "prefix") descriptor))) w.
Proof.
  intros Hread Hprojects Hdescriptor.
  unfold updateESLintConfigForProject, bind, get_host, lift.
  rewrite Hread, Hprojects. unfold index, get_dynamic. by rewrite Hdescriptor.
Qed.

Lemma addStylelintConfigForProject_run projectName w angularJSON projects descriptor path :
  readJsonInTree P (host w) (js "angular.json") = Normal angularJSON ->
  get_field (js "projects") angularJSON = Normal (Some (JObj projects)) ->
  own_get projectName projects = Some (JObj descriptor) ->
  join_normalize P (own_get (js "root") descriptor) (js ".stylelintrc.json") = Normal path ->
  addStylelintConfigForProject P projectName w
  = updateJsonInTree P path (fun _ => createProjectStylelintConfig) w.
Proof.
  intros Hread Hprojects Hdescriptor Hpath.
  unfold addStylelintConfigForProject, bind, get_host, lift.
  rewrite Hread, Hprojects. unfold index, get_dynamic. rewrite Hdescriptor.
  cbn [destructure get_field]. by rewrite Hpath.
Qed.

Lemma addPrettierConfigForProject_run projectName w angularJSON projects descriptor path :
  readJsonInTree P (host w) (js "angular.json") = Normal angularJSON ->
  get_field (js "projects") angularJSON = Normal (Some (JObj projects)) ->
  own_get projectName projects = Some (JObj descriptor) ->
  join_normalize P (own_get (js "root") descriptor) (js ".prettierrc.json") = Normal path ->
  addPrettierConfigForProject P projectName w
  = updateJsonInTree P path (fun _ => createPrettierConfig)
      {| host := host w;
         trace := trace w ++ [Console_log projectName (Some (JObj projects))] |}.
Proof.
  intros Hread Hprojects Hdescriptor Hpath.
  unfold addPrettierConfigForProject, bind, get_host, lift, emit.
  rewrite Hread, Hprojects. unfold index, get_dynamic. rewrite Hdescriptor.
  cbn [destructure get_field]. by rewrite Hpath.
Qed.

(** *** The packages of the three requests *)

Lemma own_get_three_requests e1 e2 e3 sec k version :
  NoDup (e1 ++ e2 ++ e3).*1 ->
  proto_key ∉ (e1 ++ e2 ++ e3).*1 ->
  (k, version) ∈ e1 ++ e2 ++ e3 ->
  own_get k
    (sortObjectByKeys (fold_left set_version e3
       (sortObjectByKeys (fold_left set_version e2
          (sortObjectByKeys (fold_left set_version e1 sec))))))
  = Some (JStr version).
Proof.
  rewrite !fmap_app. intros Hnd Hproto Hin.
  apply NoDup_app in Hnd as (Hnd1 & Hdisjoint1 & Hnd23).
  apply NoDup_app in Hnd23 as (Hnd2 & Hdisjoint2 & Hnd3).
  assert (k <> proto_key) as Hk.
  { intros ->. apply Hproto. rewrite <- !fmap_app.
    apply (list_elem_of_fmap_2 fst _ _ Hin). }
  rewrite !elem_of_app in Hin. destruct Hin as [Hin|[Hin|Hin]].
  - pose proof (list_elem_of_fmap_2 fst _ _ Hin) as Hin1. cbn [fst] in Hin1.
    pose proof (Hdisjoint1 _ Hin1) as Hout. rewrite not_elem_of_app in Hout.
    destruct Hout as [Hout2 Hout3].
    rewrite own_get_sortObjectByKeys, own_get_set_versions_other by done.
    rewrite own_get_sortObjectByKeys, own_get_set_versions_other by done.
    rewrite own_get_sortObjectByKeys. apply own_get_set_versions; auto.
  - pose proof (list_elem_of_fmap_2 fst _ _ Hin) as Hin2. cbn [fst] in Hin2.
    pose proof (Hdisjoint2 _ Hin2) as Hout3.
    rewrite own_get_sortObjectByKeys, own_get_set_versions_other by done.
    rewrite own_get_sortObjectByKeys. apply own_get_set_versions; auto.
  - rewrite own_get_sortObjectByKeys. apply own_get_set_versions; auto.
Qed.

Lemma own_get_three_requests_other e1 e2 e3 sec k :
  k ∉ (e1 ++ e2 ++ e3).*1 ->
  own_get k
    (sortObjectByKeys (fold_left set_version e3
       (sortObjectByKeys (fold_left set_version e2
          (sortObjectByKeys (fold_left set_version e1 sec))))))
  = own_get k sec.
Proof.
  rewrite !fmap_app, !not_elem_of_app. intros (H1 & H2 & H3).
  rewrite own_get_sortObjectByKeys, own_get_set_versions_other by done.
  rewrite own_get_sortObjectByKeys, own_get_set_versions_other by done.
  rewrite own_get_sortObjectByKeys. by apply own_get_set_versions_other.
Qed.

Lemma Tree_read_insert t path path' b :
  Tree_read P (<[tree_path P path' := b]> t) path
  = if decide (tree_path P path' = tree_path P path) then Some b else Tree_read P t path.
Proof.
  unfold Tree_read. case_decide as H.
  - rewrite H. apply lookup_insert_eq.
  - by apply lookup_insert_ne.
Qed.

Ltac open_worlds :=
  repeat match goal with w := _ : World |- _ => subst w end;
  unfold written; cbn [host trace].

(** X10: the whole schematic on a workspace in order.  The external
    schematic has returned; package.json parses to a manifest, and the
    platform reads back the manifests the first two package rules write;
    angular.json declares the project, whose root gives the paths of the
    formatter and style-linter configurations; the five paths are filed
    apart, and each configuration path is free or holds a document that
    parses.  Then configureLinters returns.  Four files have changed:
    package.json holds, with a gap of four, the manifest after the three
    merges, and the three configuration files hold their documents.  The
    context has received the three notices, the line on the console and
    the install task, in the order of the chain.  In the manifest,
    devDependencies is in key order and holds the fourteen packages at
    their versions and the other packages as they were, and every other
    member is as it was. *)
Theorem configureLinters_files c name w w1 buffer m angularJSON projects descriptor
    prettierrc stylelintrc :
  let projectName := c :: name in
  let root := own_get (js "root") descriptor in
  let prefix := default (str "app") (own_get (js "prefix") descriptor) in
  let m1 := package_json_after prettier_packages m in
  let m2 := package_json_after eslint_packages m1 in
  let m3 := package_json_after stylelint_packages m2 in
  let packages := prettier_packages ++ eslint_packages ++ stylelint_packages in
  externalSchematic P (js "@angular-eslint/schematics") (js "add-eslint-to-project")
    projectName w = (Normal tt, w1) ->
  Tree_read P (host w1) (js "package.json") = Some buffer ->
  JSON_parse P (Buffer_toString P buffer) = inl (JObj m) ->
  manifest m ->
  JSON_parse P (Buffer_toString P (Buffer_from P (JSON_stringify (JObj m1) 4)))
    = inl (JObj m1) ->
  JSON_parse P (Buffer_toString P (Buffer_from P (JSON_stringify (JObj m2) 4)))
    = inl (JObj m2) ->
  readJsonInTree P (host w1) (js "angular.json") = Normal angularJSON ->
  get_field (js "projects") angularJSON = Normal (Some (JObj projects)) ->
  own_get projectName projects = Some (JObj descriptor) ->
  join_normalize P root (js ".prettierrc.json") = Normal prettierrc ->
  join_normalize P root (js ".stylelintrc.json") = Normal stylelintrc ->
  NoDup (tree_path P <$> [js "package.json"; js "angular.json"; prettierrc;
                          js ".eslintrc.json"; stylelintrc]) ->
  updatable P (host w1) prettierrc ->
  updatable P (host w1) (js ".eslintrc.json") ->
  updatable P (host w1) stylelintrc ->
  exists w' sec,
    configureLinters P (Some projectName) w = (Normal tt, w')
    /\ host w'
       = <[tree_path P stylelintrc
             := Buffer_from P (serializeJson createProjectStylelintConfig)]>
           (<[tree_path P (js ".eslintrc.json")
                := Buffer_from P (serializeJson (createProjectESLintConfig prefix))]>
              (<[tree_path P prettierrc
                   := Buffer_from P (serializeJson createPrettierConfig)]>
                 (<[tree_path P (js "package.json")
                      := Buffer_from P (JSON_stringify (JObj m3) 4)]> (host w1))))
    /\ trace w' = trace w1 ++ full_trace projectName (Some (JObj projects))
    /\ (forall k, k <> js "devDependencies" -> own_get k m3 = own_get k m)
    /\ own_get (js "devDependencies") m3 = Some (JObj sec)
    /\ ordered sec
    /\ (forall k version, (k, version) ∈ packages -> own_get k sec = Some (JStr version))
    /\ (forall k, k ∉ packages.*1 ->
          own_get k sec = own_get k (section_before devDependencies m)).
Proof.
  intros projectName root prefix m1 m2 m3 packages
    Hext Hpkg Hparse Hm Hback1 Hback2 Hread Hprojects Hdescriptor
    Hprettierrc Hstylelintrc Hapart Hup1 Hup2 Hup3.
  cbn [fmap list_fmap] in Hapart.
  apply NoDup_cons in Hapart as [Hpkg_apart Hapart].
  apply NoDup_cons in Hapart as [Hang_apart Hapart].
  apply NoDup_cons in Hapart as [Hpre_apart Hapart].
  apply NoDup_cons in Hapart as [Hesl_apart _].
  rewrite !not_elem_of_cons in Hpkg_apart. rewrite !not_elem_of_cons in Hang_apart.
  rewrite !not_elem_of_cons in Hpre_apart. rewrite !not_elem_of_cons in Hesl_apart.
  destruct Hpkg_apart as (Hpa & Hpp & Hpe & Hps & _).
  destruct Hang_apart as (Hap & Hae & Has & _).
  destruct Hpre_apart as (Hre & Hrs & _).
  destruct Hesl_apart as (Hes & _).
  set (B := fun m0 => Buffer_from P (JSON_stringify (JObj m0) 4)).
  (* the worlds the rules leave, one after the other *)
  set (w2 := {| host := <[tree_path P (js "package.json") := B m1]> (host w1);
                trace := trace w1 ++ [Logger_info prettier_notice] |}).
  set (w3 := written P {| host := host w2;
                          trace := trace w2
                                   ++ [Console_log projectName (Some (JObj projects))] |}
               prettierrc (serializeJson createPrettierConfig)).
  set (w4 := {| host := <[tree_path P (js "package.json") := B m2]> (host w3);
                trace := trace w3 ++ [Logger_info eslint_notice] |}).
  set (w5 := written P w4 (js ".eslintrc.json")
               (serializeJson (createProjectESLintConfig prefix))).
  set (w6 := {| host := <[tree_path P (js "package.json") := B m3]> (host w5);
                trace := trace w5 ++ [Logger_info stylelint_notice] |}).
  set (w7 := written P w6 stylelintrc (serializeJson createProjectStylelintConfig)).
  assert (manifest m1) as Hm1 by (by apply manifest_package_json_after).
  assert (manifest m2) as Hm2 by (by apply manifest_package_json_after).
  assert (addPrettierPackages P w1 = (Normal tt, w2)) as Hstep2.
  { rewrite addPrettierPackages_request.
    by apply (package_json_rule_closed_form P _ _ _ buffer). }
  assert (addPrettierConfigForProject P projectName w2 = (Normal tt, w3)) as Hstep3.
  { rewrite (addPrettierConfigForProject_run projectName w2 angularJSON projects
               descriptor prettierrc); try done.
    - apply updateJsonInTree_updatable.
      apply (updatable_ext (host w1)); [|done].
      open_worlds. rewrite !Tree_read_insert. by rewrite !decide_False.
    - rewrite <- Hread. apply readJsonInTree_ext.
      open_worlds. rewrite !Tree_read_insert. by rewrite !decide_False. }
  assert (addESLintPluginsPackages P w3 = (Normal tt, w4)) as Hstep4.
  { rewrite addESLintPluginsPackages_request.
    apply (package_json_rule_closed_form P _ _ _ (B m1)); [|done..].
    open_worlds. rewrite Tree_read_insert, decide_False by done.
    rewrite Tree_read_insert. by rewrite decide_True. }
  assert (updateESLintConfigForProject P projectName w4 = (Normal tt, w5)) as Hstep5.
  { rewrite (updateESLintConfigForProject_run projectName w4 angularJSON projects
               descriptor); try done.
    - apply updateJsonInTree_updatable.
      apply (updatable_ext (host w1)); [|done].
      open_worlds. rewrite !Tree_read_insert. by rewrite !decide_False.
    - rewrite <- Hread. apply readJsonInTree_ext.
      open_worlds. rewrite !Tree_read_insert. by rewrite !decide_False. }
  assert (addStylelintPackages P w5 = (Normal tt, w6)) as Hstep6.
  { rewrite addStylelintPackages_request.
    apply (package_json_rule_closed_form P _ _ _ (B m2)); [|done..].
    open_worlds. rewrite Tree_read_insert, decide_False by done.
    rewrite Tree_read_insert. by rewrite decide_True. }
  assert (addStylelintConfigForProject P projectName w6 = (Normal tt, w7)) as Hstep7.
  { rewrite (addStylelintConfigForProject_run projectName w6 angularJSON projects
               descriptor stylelintrc); try done.
    - apply updateJsonInTree_updatable.
      apply (updatable_ext (host w1)); [|done].
      open_worlds. rewrite !Tree_read_insert. by rewrite !decide_False.
    - rewrite <- Hread. apply readJsonInTree_ext.
      open_worlds. rewrite !Tree_read_insert. by rewrite !decide_False. }
  exists {| host := host w7; trace := trace w7 ++ [AddTask_NodePackageInstall] |},
    (sortObjectByKeys (fold_left set_version stylelint_packages
       (sortObjectByKeys (fold_left set_version eslint_packages
          (sortObjectByKeys (fold_left set_version prettier_packages
             (section_before devDependencies m))))))).
  split; [|split; [|split; [|split; [|split; [|split; [|split]]]]]].
  - transitivity (configureLinters P (Some (c :: name)) w); [reflexivity|].
    rewrite (configureLinters_chain c name w). cbn [chain]. fold projectName.
    rewrite (bind_run _ _ _ _ _ Hext), (bind_run _ _ _ _ _ Hstep2),
      (bind_run _ _ _ _ _ Hstep3), (bind_run _ _ _ _ _ Hstep4),
      (bind_run _ _ _ _ _ Hstep5), (bind_run _ _ _ _ _ Hstep6),
      (bind_run _ _ _ _ _ Hstep7).
    reflexivity.
  - open_worlds. apply map_eq. intros i. unfold B.
    rewrite !lookup_insert. repeat case_decide; congruence.
  - open_worlds. unfold full_trace. by rewrite <- !app_assoc.
  - intros k Hk. unfold m3, m2, m1.
    by rewrite !own_get_package_json_after_other.
  - unfold m3. rewrite own_get_package_json_after. unfold m2.
    rewrite section_before_package_json_after. unfold m1.
    by rewrite section_before_package_json_after.
  - apply ordered_sortObjectByKeys.
  - intros k version Hin. apply own_get_three_requests; [by_decision|by_decision|done].
  - intros k Hout. by apply own_get_three_requests_other.
Qed.

End Pipeline.

(** The sample workspace, on a platform whose parser knows the descriptor
    and the manifest before and after each package rule: the schematic
    returns, and the context has received the five events. *)
Lemma configureLinters_files_witness :
  let m := [fld "name" (str "demo"); fld "devDependencies" (JObj [fld "a" (str "1.0.0")])] in
  let m1 := package_json_after prettier_packages m in
  let m2 := package_json_after eslint_packages m1 in
  let P := known_platform [one_project; JObj m; JObj m1; JObj m2] in
  exists w',
    configureLinters P (Some (js "web")) single_workspace = (Normal tt, w')
    /\ trace w'
       = full_trace (js "web") (Some (JObj [fld "web" (JObj [fld "root" (str "apps/web")])])).
Proof.
  intros m m1 m2 P.
  destruct (configureLinters_files P 119 (js "eb") single_workspace single_workspace
              (sample_encode (JSON_stringify sample_manifest 0)) m one_project
              [fld "web" (JObj [fld "root" (str "apps/web")])]
              [fld "root" (str "apps/web")]
              (js "apps/web/.prettierrc.json") (js "apps/web/.stylelintrc.json"))
    as (w' & sec & Hrun & _ & Htrace & _).
  - reflexivity.
  - vm_compute. reflexivity.
  - vm_compute. reflexivity.
  - intros []; exact I.
  - vm_compute. reflexivity.
  - vm_compute. reflexivity.
  - vm_compute. reflexivity.
  - reflexivity.
  - reflexivity.
  - reflexivity.
  - reflexivity.
  - by_decision.
  - intros H. vm_compute in H. discriminate H.
  - intros H. vm_compute in H. discriminate H.
  - intros H. vm_compute in H. discriminate H.
  - exists w'. split; [exact Hrun|exact Htrace].
Defined.

(** ** What reaches the context *)

Section Events.
Context (P : Platform).
Implicit Types (w : World) (path projectName : list N) (r : deps_options).

Lemma package_json_rule_trace r message w o w' :
  package_json_rule P r message w = (o, w') ->
  (o = Normal tt /\ trace w' = trace w ++ [Logger_info message])
  \/ (o <> Normal tt /\ w' = w).
Proof.
  intros Hrun.
  destruct (package_json_rule_cases P r message w) as [[json H]|(c & Hc & H)];
    rewrite H in Hrun; injection Hrun as <- <-; [by left|by right].
Qed.

Lemma updateJsonInTree_trace path callback w o w' :
  updateJsonInTree P path callback w = (o, w') -> trace w' = trace w.
Proof.
  intros Hrun.
  destruct (updateJsonInTree_cases P path callback w) as [[json H]|(c & Hc & H)];
    rewrite H in Hrun; by injection Hrun as <- <-.
Qed.

Lemma updateESLintConfigForProject_trace projectName w o w' :
  updateESLintConfigForProject P projectName w = (o, w') -> trace w' = trace w.
Proof.
  unfold updateESLintConfigForProject, bind, get_host, lift. intros Hrun.
  destruct (readJsonInTree P (host w) (js "angular.json")) as [angularJSON| |];
    [|by injection Hrun as <- <-..].
  destruct (get_field (js "projects") angularJSON) as [projects| |];
    [|by injection Hrun as <- <-..].
  destruct (index projects projectName) as [descriptor| |];
    [|by injection Hrun as <- <-..].
  destruct (destructure (js "prefix") descriptor) as [declared| |];
    [|by injection Hrun as <- <-..].
  by apply updateJsonInTree_trace in Hrun.
Qed.

Lemma addStylelintConfigForProject_trace projectName w o w' :
  addStylelintConfigForProject P projectName w = (o, w') -> trace w' = trace w.
Proof.
  unfold addStylelintConfigForProject, bind, get_host, lift. intros Hrun.
  destruct (readJsonInTree P (host w) (js "angular.json")) as [angularJSON| |];
    [|by injection Hrun as <- <-..].
  destruct (get_field (js "projects") angularJSON) as [projects| |];
    [|by injection Hrun as <- <-..].
  destruct (index projects projectName) as [descriptor| |];
    [|by injection Hrun as <- <-..].
  destruct (destructure (js "root") descriptor) as [projectRoot| |];
    [|by injection Hrun as <- <-..].
  destruct (join_normalize P projectRoot (js ".stylelintrc.json")) as [path| |];
    [|by injection Hrun as <- <-..].
  by apply updateJsonInTree_trace in Hrun.
Qed.

Lemma addPrettierConfigForProject_trace projectName w o w' :
  addPrettierConfigForProject P projectName w = (o, w') ->
  (o <> Normal tt /\ trace w' = trace w)
  \/ exists projects, trace w' = trace w ++ [Console_log projectName projects].
Proof.
  unfold addPrettierConfigForProject, bind, get_host, lift, emit. intros Hrun.
  destruct (readJsonInTree P (host w) (js "angular.json")) as [angularJSON| |];
    [|left; by injection Hrun as <- <-..].
  destruct (get_field (js "projects") angularJSON) as [projects| |];
    [|left; by injection Hrun as <- <-..].
  right. exists projects. cbn [host trace] in Hrun.
  destruct (index projects projectName) as [descriptor| |];
    [|by injection Hrun as <- <-..].
  destruct (destructure (js "root") descriptor) as [projectRoot| |];
    [|by injection Hrun as <- <-..].
  destruct (join_normalize P projectRoot (js ".prettierrc.json")) as [path| |];
    [|by injection Hrun as <- <-..].
  by apply updateJsonInTree_trace in Hrun.
Qed.

Lemma bind_fail (rule : M unit) (k : unit -> M unit) w o w1 :
  rule w = (o, w1) -> o <> Normal tt -> bind rule k w = (o, w1).
Proof. intros H Ho. unfold bind. rewrite H. by destruct o as [[]| |]. Qed.

Lemma chain_rest (rule : M unit) (rest : unit -> M unit) w1 o2 w2 :
  rule w1 = (o2, w2) ->
  bind rule rest w1 = match o2 with Normal _ => rest tt w2 | _ => (o2, w2) end.
Proof. intros H. unfold bind. rewrite H. by destruct o2 as [[]| |]. Qed.

(** X11: what configureLinters sends to the context, whatever the tree
    holds.  When the external schematic fails, its failure and its world are
    those of configureLinters.  When it returns, the events that follow are,
    if configureLinters returns, the three notices, the line on the console
    and the install task, in the order of the chain; and if it fails, a
    beginning of that list without the install task: the packages are never
    installed after a rule has failed, and a notice is logged only by a
    package rule that has returned. *)
Theorem configureLinters_events c name w :
  let projectName := c :: name in
  let started := externalSchematic P (js "@angular-eslint/schematics")
                   (js "add-eslint-to-project") projectName w in
  let finished := configureLinters P (Some projectName) w in
  (started.1 <> Normal tt -> finished = started)
  /\ (started.1 = Normal tt ->
      exists projects new,
        trace finished.2 = trace started.2 ++ new
        /\ (finished.1 = Normal tt -> new = full_trace projectName projects)
        /\ (finished.1 <> Normal tt ->
            new `prefix_of` [Logger_info prettier_notice;
                             Console_log projectName projects;
                             Logger_info eslint_notice;
                             Logger_info stylelint_notice])).
Proof.
  intros projectName started finished. subst finished started projectName.
  rewrite (configureLinters_chain P c name w). cbn [chain].
  set (projectName := c :: name).
  destruct (externalSchematic P (js "@angular-eslint/schematics")
              (js "add-eslint-to-project") projectName w) as [o1 w1] eqn:Hext.
  cbn [fst snd].
  split.
  - intros Ho1. by apply bind_fail.
  - intros ->. rewrite (bind_run _ _ _ _ _ Hext).
    (* addPrettierPackages *)
    destruct (addPrettierPackages P w1) as [oA wA] eqn:HA.
    rewrite (chain_rest _ _ _ _ _ HA).
    rewrite addPrettierPackages_request in HA.
    destruct (package_json_rule_trace _ _ _ _ _ HA) as [[-> HtA]|[HoA ->]]; cycle 1.
    { exists None, []. destruct oA as [[]| |]; [done|..]; cbn [fst snd];
        (split; [by rewrite app_nil_r|split; [done|intros _; apply prefix_nil]]). }
    (* addPrettierConfigForProject *)
    destruct (addPrettierConfigForProject P projectName wA) as [oB wB] eqn:HB.
    rewrite (chain_rest _ _ _ _ _ HB).
    destruct (addPrettierConfigForProject_trace _ _ _ _ HB)
      as [[HoB HtB]|[projects HtB]].
    { exists None, [Logger_info prettier_notice].
      destruct oB as [[]| |]; [done|..]; cbn [fst snd];
        (split; [by rewrite HtB, HtA|split; [done|intros _; by eexists]]). }
    destruct oB as [[]| |]; cycle 1.
    { exists projects, [Logger_info prettier_notice; Console_log projectName projects].
      cbn [fst snd]. split; [by rewrite HtB, HtA, <- app_assoc|].
      split; [done|intros _; by eexists]. }
    { exists projects, [Logger_info prettier_notice; Console_log projectName projects].
      cbn [fst snd]. split; [by rewrite HtB, HtA, <- app_assoc|].
      split; [done|intros _; by eexists]. }
    (* addESLintPluginsPackages *)
    destruct (addESLintPluginsPackages P wB) as [oC wC] eqn:HC.
    rewrite (chain_rest _ _ _ _ _ HC).
    rewrite addESLintPluginsPackages_request in HC.
    destruct (package_json_rule_trace _ _ _ _ _ HC) as [[-> HtC]|[HoC ->]]; cycle 1.
    { exists projects, [Logger_info prettier_notice; Console_log projectName projects].
      destruct oC as [[]| |]; [done|..]; cbn [fst snd];
        (split; [by rewrite HtB, HtA, <- app_assoc|split; [done|intros _; by eexists]]). }
    (* updateESLintConfigForProject *)
    destruct (updateESLintConfigForProject P projectName wC) as [oD wD] eqn:HD.
    rewrite (chain_rest _ _ _ _ _ HD).
    pose proof (updateESLintConfigForProject_trace _ _ _ _ HD) as HtD.
    assert (trace wD = trace w1 ++ [Logger_info prettier_notice;
                                    Console_log projectName projects;
                                    Logger_info eslint_notice]) as HtD'.
    { by rewrite HtD, HtC, HtB, HtA, <- !app_assoc. }
    destruct oD as [[]| |]; cycle 1.
    { eexists projects, _. cbn [fst snd]. split; [exact HtD'|].
      split; [done|intros _; by eexists]. }
    { eexists projects, _. cbn [fst snd]. split; [exact HtD'|].
      split; [done|intros _; by eexists]. }
    (* addStylelintPackages *)
    destruct (addStylelintPackages P wD) as [oE wE] eqn:HE.
    rewrite (chain_rest _ _ _ _ _ HE).
    rewrite addStylelintPackages_request in HE.
    destruct (package_json_rule_trace _ _ _ _ _ HE) as [[-> HtE]|[HoE ->]]; cycle 1.
    { eexists projects, _.
      destruct oE as [[]| |]; [done|..]; cbn [fst snd];
        (split; [exact HtD'|split; [done|intros _; by eexists]]). }
    (* addStylelintConfigForProject *)
    destruct (addStylelintConfigForProject P projectName wE) as [oF wF] eqn:HF.
    rewrite (chain_rest _ _ _ _ _ HF).
    pose proof (addStylelintConfigForProject_trace _ _ _ _ HF) as HtF.
    assert (trace wF = trace w1 ++ [Logger_info prettier_notice;
                                    Console_log projectName projects;
                                    Logger_info eslint_notice;
                                    Logger_info stylelint_notice]) as HtF'.
    { by rewrite HtF, HtE, HtD', <- !app_assoc. }
    destruct oF as [[]| |]; cycle 1.
    { eexists projects, _. cbn [fst snd]. split; [exact HtF'|].
      split; [done|intros _; by eexists]. }
    { eexists projects, _. cbn [fst snd]. split; [exact HtF'|].
      split; [done|intros _; by eexists]. }
    (* addPackageInstallTask *)
    exists projects, (full_trace projectName projects).
    unfold addPackageInstallTask, bind, emit, ret. cbn [fst snd host trace].
    split; [by rewrite HtF', <- !app_assoc|]. split; [done|]. by intros [].
Qed.

End Events.

(** A platform whose external schematic fails: its failure is the failure
    of configureLinters, and no rule of the chain has run. *)
Lemma configureLinters_events_witness :
  let P := {| Buffer_toString := sample_decode;
              Buffer_from := sample_encode;
              stripJsonComments := fun text => text;
              JSON_parse := sample_parse;
              tree_path := sample_tree_path;
              join_normalize := sample_join;
              externalSchematic :=
                fun _ _ _ => throw (Error (js "Collection cannot be resolved")) |} in
  configureLinters P (Some (js "web")) single_workspace
  = (Throw (Error (js "Collection cannot be resolved")), single_workspace).
Proof.
  intros P.
  refine (proj1 (configureLinters_events P 119 (js "eb") single_workspace) _).
  discriminate.
Defined.

(** ** A chain that stops *)

Section Midway.
Context (P : Platform).
Implicit Types (w : World) (m projects : list (list N * value)).

(** X12: the chain does not undo what its rules have done when a later
    rule fails.  With a project name, an external schematic that has
    returned and a package.json that parses to a manifest, the first package
    rule rewrites package.json and logs its notice; the formatter rule then
    reads angular.json, whatever file the project name was resolved from.
    Without angular.json it throws the error of the failed read; with an
    angular.json that does not declare the project it throws a TypeError
    after its line on the console.  configureLinters fails with that error,
    and the tree it leaves holds the rewritten package.json. *)
Theorem configureLinters_stops_midway c name w w1 buffer m :
  let projectName := c :: name in
  let w2 := {| host := <[tree_path P (js "package.json")
                           := Buffer_from P
                                (JSON_stringify
                                   (JObj (package_json_after prettier_packages m)) 4)]>
                         (host w1);
               trace := trace w1 ++ [Logger_info prettier_notice] |} in
  externalSchematic P (js "@angular-eslint/schematics") (js "add-eslint-to-project")
    projectName w = (Normal tt, w1) ->
  Tree_read P (host w1) (js "package.json") = Some buffer ->
  JSON_parse P (Buffer_toString P buffer) = inl (JObj m) ->
  manifest m ->
  tree_path P (js "package.json") <> tree_path P (js "angular.json") ->
  (Tree_exists P (host w1) (js "angular.json") = false ->
     configureLinters P (Some projectName) w
     = (Throw (Error (js "Cannot find angular.json")), w2))
  /\ (forall angularJSON projects,
        readJsonInTree P (host w1) (js "angular.json") = Normal angularJSON ->
        get_field (js "projects") angularJSON = Normal (Some (JObj projects)) ->
        own_get projectName projects = None ->
        projectName ∉ Object_prototype_names ->
        configureLinters P (Some projectName) w
        = (Throw TypeError,
           {| host := host w2;
              trace := trace w2 ++ [Console_log projectName (Some (JObj projects))] |})).
Proof.
  intros projectName w2 Hext Hpkg Hparse Hm Hapart.
  assert (addPrettierPackages P w1 = (Normal tt, w2)) as Hstep2.
  { rewrite addPrettierPackages_request.
    by apply (package_json_rule_closed_form P _ _ _ buffer). }
  assert (Tree_read P (host w2) (js "angular.json")
          = Tree_read P (host w1) (js "angular.json")) as Hsame.
  { unfold w2. cbn [host]. rewrite Tree_read_insert. by rewrite decide_False. }
  assert (forall o w3,
            addPrettierConfigForProject P projectName w2 = (o, w3) ->
            o <> Normal tt ->
            configureLinters P (Some projectName) w = (o, w3)) as Hstop.
  { intros o w3 Hstep3 Ho.
    transitivity (configureLinters P (Some (c :: name)) w); [reflexivity|].
    rewrite (configureLinters_chain P c name w). cbn [chain]. fold projectName.
    rewrite (bind_run _ _ _ _ _ Hext), (bind_run _ _ _ _ _ Hstep2).
    by apply bind_fail. }
  split.
  - intros Hmissing. apply Hstop; [|done].
    unfold addPrettierConfigForProject, bind, get_host, lift.
    rewrite (readJsonInTree_ext P _ _ _ Hsame).
    by rewrite (readJsonInTree_missing P _ _ Hmissing).
  - intros angularJSON projects Hread Hprojects Hnone Hname. apply Hstop; [|done].
    unfold addPrettierConfigForProject, bind, get_host, lift, emit.
    rewrite (readJsonInTree_ext P _ _ _ Hsame), Hread, Hprojects.
    unfold index, get_dynamic. rewrite Hnone. by rewrite bool_decide_eq_false_2.
Qed.

End Midway.

(** A workspace whose descriptor is workspace.json: the project is named,
    package.json is rewritten, and the chain stops for want of
    angular.json. *)
Lemma configureLinters_stops_midway_witness :
  let w := {| host := list_to_map [sample_file "/workspace.json" one_project;
                                   sample_file "/package.json" sample_manifest];
              trace := [] |} in
  let m := [fld "name" (str "demo"); fld "devDependencies" (JObj [fld "a" (str "1.0.0")])] in
  determineTargetProjectName sample_platform (host w) None = Normal (Some (js "web"))
  /\ configureLinters sample_platform (Some (js "web")) w
     = (Throw (Error (js "Cannot find angular.json")),
        {| host := <[js "/package.json"
                       := sample_encode
                            (JSON_stringify
                               (JObj (package_json_after prettier_packages m)) 4)]>
                     (host w);
           trace := [Logger_info prettier_notice] |}).
Proof.
  intros w m. split; [vm_compute; reflexivity|].
  refine (proj1 (configureLinters_stops_midway sample_platform 119 (js "eb") w w
                   (sample_encode (JSON_stringify sample_manifest 0)) m _ _ _ _ _) _).
  - reflexivity.
  - vm_compute. reflexivity.
  - vm_compute. reflexivity.
  - intros []; exact I.
  - discriminate.
  - vm_compute. reflexivity.
Defined.

(** ** The order of the members given to sortObjectByKeys *)

(** X13: sortObjectByKeys gives one result for all the objects that hold
    the same members, in whatever order they hold them: the order in which
    the packages were added to devDependencies leaves no trace in the
    manifest a package rule writes. *)
Theorem sortObjectByKeys_order_free (a b : list (list N * value)) :
  (forall k, own_get k a = own_get k b) ->
  sortObjectByKeys a = sortObjectByKeys b.
Proof.
  intros Hsame. apply ordered_ext; try apply ordered_sortObjectByKeys.
  intros k. by rewrite !own_get_sortObjectByKeys.
Qed.

Lemma sortObjectByKeys_order_free_witness :
  sortObjectByKeys [fld "b" (str "2.0.0"); fld "a" (str "1.0.0")]
  = sortObjectByKeys [fld "a" (str "1.0.0"); fld "b" (str "2.0.0")].
Proof.
  apply (sortObjectByKeys_order_free
           [fld "b" (str "2.0.0"); fld "a" (str "1.0.0")]
           [fld "a" (str "1.0.0"); fld "b" (str "2.0.0")]).
  intros k. cbn [own_get fld].
  destruct (decide (js "b" = k)) as [<-|Hb]; [|reflexivity].
  destruct (decide (js "a" = js "b")) as [Ha|Ha]; [|reflexivity].
  vm_compute in Ha. discriminate Ha.
Defined.
